(** * AcmeLiquers: order intake, inventory reservation, order saga and
      change-event transformer.

    A shallow embedding of the TypeScript handlers and repository
    operations, over an explicit model of the AWS services they talk to
    (DynamoDB tables, the SQS work queue, Lambda invocations, the
    EventBridge bus), followed by the properties the system specification
    states about them and by further properties of the code.

    Conventions.
    - JavaScript [number]s that hold money are IEEE-754 binary64 values
      ([float]); those that the schema restricts to integers (item
      quantities, stock counts) are [Z].
    - A stored item is a record whose non-key attributes are optional:
      DynamoDB's [UpdateItem] creates the item when the key is absent, so an
      item may hold only the attributes an update has set.  An absent
      attribute reads as JavaScript [undefined].
    - Handlers run in a state-and-exception monad over [World]; what a
      handler reads from its environment (clock, ULID generator, random
      numbers, service outages, Lambda replies) comes from oracles stored in
      the world.
    - The document client is taken to marshal every item it is given:
      the numbers of an item are assumed to be ones it accepts (finite
      and below 2^53).  A condition or update expression has the meaning
      its text has; whether the service accepts the expression is not
      modelled. *)

From Stdlib Require Import ZArith Floats Ascii.
From stdpp Require Import gmap strings list fin_maps.

Set Warnings "-inexact-float,-clear-no-such-hyp".

Local Open Scope Z_scope.
Local Open Scope string_scope.

(* ===================================================================== *)
(** ** Data model ([types/order.ts], [sqs/client.ts])                     *)
(* ===================================================================== *)

Module OrderStatus.
Inductive t :=
| PENDING | CONFIRMED | PROCESSING | SHIPPED | DELIVERED | CANCELLED | FAILED.

#[global] Instance eq_dec : EqDecision t.
Proof. solve_decision. Defined.

(** The string each member stands for in the source. *)
Definition to_string (s : t) : string :=
  match s with
  | PENDING => "PENDING" | CONFIRMED => "CONFIRMED"
  | PROCESSING => "PROCESSING" | SHIPPED => "SHIPPED"
  | DELIVERED => "DELIVERED" | CANCELLED => "CANCELLED"
  | FAILED => "FAILED"
  end.
End OrderStatus.

Module PaymentState.
Inductive t := PENDING | AUTHORIZED | CAPTURED | FAILED | REFUNDED.

#[global] Instance eq_dec : EqDecision t.
Proof. solve_decision. Defined.
End PaymentState.

(** [CreateOrderItemSchema]: a line of a create request. *)
Module CreateOrderItem.
Record t := mk {
  sku : string;
  name : string;
  quantity : Z;
  unit_price : float;
}.
End CreateOrderItem.

(** [OrderItemSchema]: a stored line, with its computed [total_price]. *)
Module OrderItem.
Record t := mk {
  sku : string;
  name : string;
  quantity : Z;
  unit_price : float;
  total_price : float;
}.
End OrderItem.

Module Address.
Record t := mk {
  street : string;
  city : string;
  state : string;
  zip : string;
}.
End Address.

Module CreateOrderRequest.
Record t := mk {
  customer_id : string;
  store_id : string;
  county_id : string;
  items : list CreateOrderItem.t;
  shipping_address : Address.t;
}.
End CreateOrderRequest.

(** [interface Order]: an item of the orders table, keyed by
    ([customer_id], [order_ts_id]). *)
Module Order.
Record t := mk {
  customer_id : string;
  order_ts_id : string;
  order_id : option string;
  order_ts : option string;
  store_id : option string;
  county_id : option string;
  status : option OrderStatus.t;
  payment_state : option PaymentState.t;
  items : option (list OrderItem.t);
  subtotal : option float;
  tax : option float;
  total : option float;
  shipping_address : option Address.t;
  idempotency_key : option string;
  created_at : option string;
  updated_at : option string;
  ttl : option Z;
}.

(** [SET #status = :newStatus, updated_at = :now] *)
Definition set_status (s : OrderStatus.t) (now : string) (o : t) : t :=
  mk (customer_id o) (order_ts_id o) (order_id o) (order_ts o)
     (store_id o) (county_id o) (Some s) (payment_state o) (items o)
     (subtotal o) (tax o) (total o) (shipping_address o)
     (idempotency_key o) (created_at o) (Some now) (ttl o).

(** The item an update creates when no item has the key. *)
Definition blank (cid tsid : string) : t :=
  mk cid tsid None None None None None None None None None None None None
     None None None.
End Order.

(** [interface OrderById]: an item of the by-ID table, keyed by
    [order_id]. *)
Module OrderById.
Record t := mk {
  order_id : string;
  customer_id : option string;
  order_ts : option string;
  status : option OrderStatus.t;
  payment_state : option PaymentState.t;
  store_id : option string;
  county_id : option string;
  items : option (list OrderItem.t);
  subtotal : option float;
  tax : option float;
  total : option float;
  shipping_address : option Address.t;
  created_at : option string;
  updated_at : option string;
}.

(** [SET #status = :newStatus, updated_at = :now] *)
Definition set_status (s : OrderStatus.t) (now : string) (o : t) : t :=
  mk (order_id o) (customer_id o) (order_ts o) (Some s) (payment_state o)
     (store_id o) (county_id o) (items o) (subtotal o) (tax o) (total o)
     (shipping_address o) (created_at o) (Some now).

(** [SET payment_state = :state, updated_at = :now] *)
Definition set_payment_state (p : PaymentState.t) (now : string) (o : t) : t :=
  mk (order_id o) (customer_id o) (order_ts o) (status o) (Some p)
     (store_id o) (county_id o) (items o) (subtotal o) (tax o) (total o)
     (shipping_address o) (created_at o) (Some now).

Definition blank (oid : string) : t :=
  mk oid None None None None None None None None None None None None None.
End OrderById.

(** An item of the inventory table, keyed by [store_sku]: the attributes
    the reservation handler reads and writes. *)
Module Inventory.
Record t := mk {
  store_sku : string;
  quantity_available : option Z;
  quantity_reserved : option Z;
  updated_at : option string;
}.
End Inventory.

Module OrderProcessingMessage.
Inductive Action :=
| PROCESS_ORDER | RESERVE_INVENTORY | PROCESS_PAYMENT | SEND_NOTIFICATION.

Record t := mk {
  order_id : string;
  customer_id : string;
  order_ts_id : string;
  action : Action;
  attempt : option Z;
  timestamp : string;
}.
End OrderProcessingMessage.

(* ===================================================================== *)
(** ** The environment                                                    *)
(* ===================================================================== *)

(** What a handler can see thrown. *)
Inductive Error :=
| ConditionalCheckFailedException
| TransactionCanceledException
| ValidationException
| ServiceUnavailable
| SyntaxError.

(** An oracle: an infinite supply of answers and the position of the next
    one. *)
Record Oracle (A : Type) := mkOracle { feed : nat → A; cursor : nat }.
Arguments mkOracle {A}.
Arguments feed {A}.
Arguments cursor {A}.

Definition peek {A} (o : Oracle A) : A := feed o (cursor o).
Definition advance {A} (o : Oracle A) : Oracle A :=
  mkOracle (feed o) (S (cursor o)).

(** The three worker functions the orchestrator invokes. *)
Inductive LambdaFn := RESERVE_INVENTORY_FN | PROCESS_PAYMENT_FN | SEND_NOTIFICATIONS_FN.

(** The payloads the orchestrator sends, one shape per function. *)
Inductive Payload :=
| ReservePayload (order_id customer_id : string)
    (items : option (list OrderItem.t)) (store_id : option string)
| PaymentPayload (order_id customer_id : string) (amount : option float)
| NotifyPayload (order_id customer_id : string) (status : OrderStatus.t)
    (total : option float) (reason : option string).

Record Invocation := mkInvocation {
  inv_fn : LambdaFn;
  inv_payload : Payload;
  inv_async : bool;
}.

(** How the Lambda service answers a synchronous [InvokeCommand] it has
    accepted: the function failed, or it returned. *)
Inductive LambdaReply :=
| FunctionError (errorMessage : option string)
| Returned.

(** What the clock shows: [new Date().toISOString()] and [Date.now()]. *)
Record Instant := mkInstant { iso : string; millis : Z }.

Record World := mkWorld {
  orders : gmap (string * string) Order.t;
  orders_by_id : gmap string OrderById.t;
  inventory : gmap string Inventory.t;
  queue : list OrderProcessingMessage.t;
  invoked : list Invocation;
  outages : Oracle bool;
  clock : Oracle Instant;
  ulids : Oracle string;
  randoms : Oracle float;
  lambda_replies : Oracle LambdaReply;
}.

Definition with_orders (m : gmap (string * string) Order.t) (w : World) : World :=
  mkWorld m (orders_by_id w) (inventory w) (queue w) (invoked w)
          (outages w) (clock w) (ulids w) (randoms w) (lambda_replies w).

Definition with_orders_by_id (m : gmap string OrderById.t) (w : World) : World :=
  mkWorld (orders w) m (inventory w) (queue w) (invoked w)
          (outages w) (clock w) (ulids w) (randoms w) (lambda_replies w).

Definition with_inventory (m : gmap string Inventory.t) (w : World) : World :=
  mkWorld (orders w) (orders_by_id w) m (queue w) (invoked w)
          (outages w) (clock w) (ulids w) (randoms w) (lambda_replies w).

Definition with_queue (q : list OrderProcessingMessage.t) (w : World) : World :=
  mkWorld (orders w) (orders_by_id w) (inventory w) q (invoked w)
          (outages w) (clock w) (ulids w) (randoms w) (lambda_replies w).

Definition with_invoked (l : list Invocation) (w : World) : World :=
  mkWorld (orders w) (orders_by_id w) (inventory w) (queue w) l
          (outages w) (clock w) (ulids w) (randoms w) (lambda_replies w).

Definition with_outages (o : Oracle bool) (w : World) : World :=
  mkWorld (orders w) (orders_by_id w) (inventory w) (queue w) (invoked w)
          o (clock w) (ulids w) (randoms w) (lambda_replies w).

Definition with_clock (o : Oracle Instant) (w : World) : World :=
  mkWorld (orders w) (orders_by_id w) (inventory w) (queue w) (invoked w)
          (outages w) o (ulids w) (randoms w) (lambda_replies w).

Definition with_ulids (o : Oracle string) (w : World) : World :=
  mkWorld (orders w) (orders_by_id w) (inventory w) (queue w) (invoked w)
          (outages w) (clock w) o (randoms w) (lambda_replies w).

Definition with_randoms (o : Oracle float) (w : World) : World :=
  mkWorld (orders w) (orders_by_id w) (inventory w) (queue w) (invoked w)
          (outages w) (clock w) (ulids w) o (lambda_replies w).

Definition with_lambda_replies (o : Oracle LambdaReply) (w : World) : World :=
  mkWorld (orders w) (orders_by_id w) (inventory w) (queue w) (invoked w)
          (outages w) (clock w) (ulids w) (randoms w) o.

(* ===================================================================== *)
(** ** The handler monad: state and exceptions                            *)
(* ===================================================================== *)

Inductive Result (A : Type) :=
| Ok (a : A)
| Throw (e : Error).
Arguments Ok {A}.
Arguments Throw {A}.

Definition M (A : Type) : Type := World → Result A * World.

Definition ret {A} (a : A) : M A := fun w => (Ok a, w).

Definition throw {A} (e : Error) : M A := fun w => (Throw e, w).

Definition bind {A B} (m : M A) (k : A → M B) : M B :=
  fun w => match m w with
           | (Ok a, w') => k a w'
           | (Throw e, w') => (Throw e, w')
           end.

(** [try { m } catch (error) { h error }] *)
Definition try_catch {A} (m : M A) (h : Error → M A) : M A :=
  fun w => match m w with
           | (Ok a, w') => (Ok a, w')
           | (Throw e, w') => h e w'
           end.

Declare Scope handler_scope.
Delimit Scope handler_scope with M.
Notation "'let*' x ':=' m 'in' k" := (bind m (fun x => k))
  (at level 10, x name, m at level 100, k at level 200) : handler_scope.
Local Open Scope handler_scope.

(** [await Promise.all(xs.map(f))]: every promise is started; the result
    is the list of values, or the first rejection. *)
Fixpoint promise_all {A B} (f : A → M B) (xs : list A) : M (list B) :=
  match xs with
  | [] => ret []
  | x :: xs' =>
      fun w =>
        match f x w with
        | (Ok b, w1) =>
            match promise_all f xs' w1 with
            | (Ok bs, w2) => (Ok (b :: bs), w2)
            | (Throw e, w2) => (Throw e, w2)
            end
        | (Throw e, w1) =>
            (Throw e, snd (promise_all f xs' w1))
        end
  end.

(** Reading the oracles. *)
Definition now : M string :=
  fun w => (Ok (iso (peek (clock w))), with_clock (advance (clock w)) w).

Definition Date_now : M Z :=
  fun w => (Ok (millis (peek (clock w))), with_clock (advance (clock w)) w).

Definition ulid : M string :=
  fun w => (Ok (peek (ulids w)), with_ulids (advance (ulids w)) w).

Definition Math_random : M float :=
  fun w => (Ok (peek (randoms w)), with_randoms (advance (randoms w)) w).

(** Every request to an AWS service first meets the outage oracle. *)
Definition aws_request : M unit :=
  fun w =>
    let w' := with_outages (advance (outages w)) w in
    if peek (outages w) then (Throw ServiceUnavailable, w') else (Ok tt, w').

(** No request ever meets an outage. *)
Definition healthy (w : World) : Prop := ∀ n, feed (outages w) n = false.

(* ===================================================================== *)
(** ** DynamoDB, as the repository uses it                                *)
(* ===================================================================== *)

Module DynamoDB.

(** [PutCommand] on the orders table with
    [ConditionExpression: "attribute_not_exists(customer_id)"].  The
    condition is evaluated on the item that has the new item's key;
    [customer_id] is a key attribute, so it fails exactly when such an
    item exists. *)
Definition put_order_if_absent (o : Order.t) : M unit :=
  let* _ := aws_request in
  fun w =>
    let key := (Order.customer_id o, Order.order_ts_id o) in
    match orders w !! key with
    | Some _ => (Throw ConditionalCheckFailedException, w)
    | None => (Ok tt, with_orders (<[key := o]> (orders w)) w)
    end.

(** [PutCommand] on the by-ID table, unconditional: it replaces. *)
Definition put_order_by_id (o : OrderById.t) : M unit :=
  let* _ := aws_request in
  fun w =>
    (Ok tt, with_orders_by_id (<[OrderById.order_id o := o]> (orders_by_id w)) w).

Definition get_order (customerId orderTsId : string) : M (option Order.t) :=
  let* _ := aws_request in
  fun w => (Ok (orders w !! (customerId, orderTsId)), w).

Definition get_order_by_id (orderId : string) : M (option OrderById.t) :=
  let* _ := aws_request in
  fun w => (Ok (orders_by_id w !! orderId), w).

(** The condition [#status = :currentStatus]; no condition when the
    caller gave no expected status.  An absent item, or one without a
    [status], does not satisfy it. *)
Definition status_condition (expected : option OrderStatus.t)
    (current : option Order.t) : bool :=
  match expected with
  | None => true
  | Some e => bool_decide (current ≫= Order.status = Some e)
  end.

(** [UpdateCommand] on the orders table:
    [SET #status = :newStatus, updated_at = :now], under the condition.
    An update of an absent key creates the item. *)
Definition update_order_status (customerId orderTsId : string)
    (newStatus : OrderStatus.t) (now : string)
    (expected : option OrderStatus.t) : M unit :=
  let* _ := aws_request in
  fun w =>
    let key := (customerId, orderTsId) in
    let current := orders w !! key in
    if status_condition expected current then
      let item := default (Order.blank customerId orderTsId) current in
      (Ok tt,
       with_orders (<[key := Order.set_status newStatus now item]> (orders w)) w)
    else (Throw ConditionalCheckFailedException, w).

(** [UpdateCommand] on the by-ID table, same [SET], no condition. *)
Definition update_order_by_id_status (orderId : string)
    (newStatus : OrderStatus.t) (now : string) : M unit :=
  let* _ := aws_request in
  fun w =>
    let item := default (OrderById.blank orderId) (orders_by_id w !! orderId) in
    (Ok tt,
     with_orders_by_id
       (<[orderId := OrderById.set_status newStatus now item]> (orders_by_id w)) w).

(** [UpdateCommand] on the by-ID table:
    [SET payment_state = :state, updated_at = :now]. *)
Definition update_order_by_id_payment (orderId : string)
    (state : PaymentState.t) (now : string) : M unit :=
  let* _ := aws_request in
  fun w =>
    let item := default (OrderById.blank orderId) (orders_by_id w !! orderId) in
    (Ok tt,
     with_orders_by_id
       (<[orderId := OrderById.set_payment_state state now item]> (orders_by_id w)) w).

End DynamoDB.

(* ===================================================================== *)
(** ** The order repository ([dynamodb/operations.ts])                    *)
(* ===================================================================== *)

Record CreateResult := mkCreateResult { created : bool; order : Order.t }.

Definition getOrderByCustomer (customerId orderTsId : string) : M (option Order.t) :=
  DynamoDB.get_order customerId orderTsId.

Definition getOrderById (orderId : string) : M (option OrderById.t) :=
  DynamoDB.get_order_by_id orderId.

(** The by-ID item [createOrder] builds field by field from the order. *)
Definition projection (oid : string) (order : Order.t) : OrderById.t :=
  OrderById.mk oid
    (Some (Order.customer_id order))
    (Order.order_ts order)
    (Order.status order)
    (Order.payment_state order)
    (Order.store_id order)
    (Order.county_id order)
    (Order.items order)
    (Order.subtotal order)
    (Order.tax order)
    (Order.total order)
    (Order.shipping_address order)
    (Order.created_at order)
    (Order.updated_at order).

(** Its key is the order's [order_id]; an item without its key is refused
    by the table. *)
Definition put_projection (order : Order.t) : M unit :=
  match Order.order_id order with
  | Some oid => DynamoDB.put_order_by_id (projection oid order)
  | None => let* _ := aws_request in throw ValidationException
  end.

Definition createOrder (order : Order.t) : M CreateResult :=
  try_catch
    (let* _ := DynamoDB.put_order_if_absent order in
     let* _ := put_projection order in
     ret (mkCreateResult true order))
    (fun error =>
       match error with
       | ConditionalCheckFailedException =>
           let* existing :=
             getOrderByCustomer (Order.customer_id order) (Order.order_ts_id order) in
           match existing with
           | Some e => ret (mkCreateResult false e)
           | None => throw error
           end
       | _ => throw error
       end).

Definition updateOrderStatus (customerId orderTsId orderId : string)
    (newStatus : OrderStatus.t) (expectedCurrentStatus : option OrderStatus.t)
    : M bool :=
  let* now_ := now in
  try_catch
    (let* _ :=
       DynamoDB.update_order_status customerId orderTsId newStatus now_
         expectedCurrentStatus in
     let* _ := DynamoDB.update_order_by_id_status orderId newStatus now_ in
     ret true)
    (fun error =>
       match error with
       | ConditionalCheckFailedException => ret false
       | _ => throw error
       end).

(** [sendOrderMessage] ([sqs/client.ts]). *)
Definition sendOrderMessage (message : OrderProcessingMessage.t) : M unit :=
  let* _ := aws_request in
  fun w => (Ok tt, with_queue (queue w ++ [message]) w).

(* ===================================================================== *)
(** ** API Gateway events and request validation                          *)
(* ===================================================================== *)

(** The body of a request, as [parseAndValidateBody] tells the cases
    apart: absent or empty; not JSON, or JSON that lacks a field of the
    schema or has one of the wrong type; JSON of the schema's shape. *)
Inductive Body :=
| NoBody
| Malformed
| Json (request : CreateOrderRequest.t).

Record APIGatewayProxyEvent := mkEvent {
  headers : gmap string string;
  pathParameters : option (gmap string string);
  body : Body;
}.

Record APIGatewayProxyResult (B : Type) := mkResult {
  statusCode : Z;
  response : B;
}.
Arguments mkResult {B}.
Arguments statusCode {B}.
Arguments response {B}.

(** [z.string().min(n)] and [.max(n)]; a string's length is counted in
    characters of one byte. *)
Definition min_length (n : nat) (s : string) : bool := Nat.leb n (String.length s).
Definition max_length (n : nat) (s : string) : bool := Nat.leb (String.length s) n.

(** [z.number().positive()] on a price *)
Definition positive_number (x : float) : bool := PrimFloat.ltb 0%float x.

Definition CreateOrderItemSchema (i : CreateOrderItem.t) : bool :=
  min_length 1 (CreateOrderItem.sku i)
  && min_length 1 (CreateOrderItem.name i)
  && Z.ltb 0 (CreateOrderItem.quantity i)
  && positive_number (CreateOrderItem.unit_price i).

Definition AddressSchema (a : Address.t) : bool :=
  min_length 1 (Address.street a)
  && min_length 1 (Address.city a)
  && Nat.eqb (String.length (Address.state a)) 2
  && min_length 5 (Address.zip a) && max_length 10 (Address.zip a).

Definition CreateOrderRequestSchema (r : CreateOrderRequest.t) : bool :=
  min_length 1 (CreateOrderRequest.customer_id r)
  && min_length 1 (CreateOrderRequest.store_id r)
  && min_length 1 (CreateOrderRequest.county_id r)
  && forallb CreateOrderItemSchema (CreateOrderRequest.items r)
  && Nat.leb 1 (length (CreateOrderRequest.items r))
  && AddressSchema (CreateOrderRequest.shipping_address r).

(** [parseAndValidateBody(CreateOrderRequestSchema, body)]: the validated
    request, or [None] for a failed validation. *)
Definition parseAndValidateBody (b : Body) : option CreateOrderRequest.t :=
  match b with
  | NoBody => None
  | Malformed => None
  | Json r => if CreateOrderRequestSchema r then Some r else None
  end.

(* ===================================================================== *)
(** ** POST /orders ([handlers/create-order.ts])                          *)
(* ===================================================================== *)

(** The binary64 value of an integer (exact below 2^53). *)
Definition number_of_Z (z : Z) : float :=
  if Z.ltb z 0 then PrimFloat.opp (PrimFloat.of_uint63 (Uint63.of_Z (- z)))
  else PrimFloat.of_uint63 (Uint63.of_Z z).

Definition generateOrderId : M string :=
  let* u := ulid in ret ("ORD-" ++ u).

Module CreateOrder.

Inductive ResponseBody :=
| ErrorBody (error : string)
| ValidationErrors
| OrderBody
    (order_id : option string) (customer_id : string)
    (status : option OrderStatus.t) (payment_state : option PaymentState.t)
    (items : option (list OrderItem.t))
    (subtotal tax total : option float) (created_at : option string)
    (message : option string).

(** [item.quantity * item.unit_price] *)
Definition line_total (i : CreateOrderItem.t) : float :=
  PrimFloat.mul (number_of_Z (CreateOrderItem.quantity i))
                (CreateOrderItem.unit_price i).

(** [request.items.reduce((sum, item) => sum + ..., 0)] *)
Definition subtotal (items : list CreateOrderItem.t) : float :=
  fold_left (fun sum item => PrimFloat.add sum (line_total item)) items 0%float.

Definition tax (subtotal : float) : float := PrimFloat.mul subtotal 0.08%float.

Definition total (subtotal tax : float) : float := PrimFloat.add subtotal tax.

Definition itemsWithTotals (items : list CreateOrderItem.t) : list OrderItem.t :=
  map (fun item =>
         OrderItem.mk (CreateOrderItem.sku item) (CreateOrderItem.name item)
           (CreateOrderItem.quantity item) (CreateOrderItem.unit_price item)
           (line_total item))
      items.

(** The order object the handler builds from a validated request. *)
Definition build_order (request : CreateOrderRequest.t)
    (idempotencyKey orderId orderTs : string) : Order.t :=
  let orderTsId := orderTs ++ "#" ++ orderId in
  let subtotal := subtotal (CreateOrderRequest.items request) in
  let tax := tax subtotal in
  let total := total subtotal tax in
  Order.mk (CreateOrderRequest.customer_id request) orderTsId
    (Some orderId) (Some orderTs)
    (Some (CreateOrderRequest.store_id request))
    (Some (CreateOrderRequest.county_id request))
    (Some OrderStatus.PENDING) (Some PaymentState.PENDING)
    (Some (itemsWithTotals (CreateOrderRequest.items request)))
    (Some subtotal) (Some tax) (Some total)
    (Some (CreateOrderRequest.shipping_address request))
    (Some idempotencyKey) (Some orderTs) (Some orderTs) None.

(** The fields of [result.order] the response shows, and the optional
    [message]. *)
Definition order_body (o : Order.t) (message : option string) : ResponseBody :=
  OrderBody (Order.order_id o) (Order.customer_id o) (Order.status o)
    (Order.payment_state o) (Order.items o) (Order.subtotal o)
    (Order.tax o) (Order.total o) (Order.created_at o) message.

Definition order_response (result : CreateResult)
    : APIGatewayProxyResult ResponseBody :=
  mkResult (if created result then 201 else 200)
    (order_body (order result)
       (if created result then None
        else Some "Order already exists (idempotent)")).

(** [headers["X-Idempotency-Key"] ?? headers["x-idempotency-key"]] *)
Definition idempotency_header (event : APIGatewayProxyEvent) : option string :=
  match headers event !! "X-Idempotency-Key" with
  | Some k => Some k
  | None => headers event !! "x-idempotency-key"
  end.

Definition missing_key_response : APIGatewayProxyResult ResponseBody :=
  mkResult 400 (ErrorBody "Missing X-Idempotency-Key header").

(** The message that enqueues a new order for processing. *)
Definition work_message (request : CreateOrderRequest.t)
    (orderId orderTs : string) : OrderProcessingMessage.t :=
  OrderProcessingMessage.mk orderId
    (CreateOrderRequest.customer_id request)
    (orderTs ++ "#" ++ orderId)
    OrderProcessingMessage.PROCESS_ORDER None orderTs.

(** After the header check and the validation. *)
Definition create (request : CreateOrderRequest.t) (idempotencyKey : string)
    : M (APIGatewayProxyResult ResponseBody) :=
  let* orderId := generateOrderId in
  let* orderTs := now in
  let order := build_order request idempotencyKey orderId orderTs in
  let* result := createOrder order in
  let* _ :=
    if created result then
      sendOrderMessage (work_message request orderId orderTs)
    else ret tt in
  ret (order_response result).

Definition handler (event : APIGatewayProxyEvent)
    : M (APIGatewayProxyResult ResponseBody) :=
  try_catch
    (match idempotency_header event with
     | None => ret missing_key_response
     | Some idempotencyKey =>
         (* [!idempotencyKey]: the empty string is falsy too *)
         if String.eqb idempotencyKey "" then ret missing_key_response
         else
           match parseAndValidateBody (body event) with
           | None => ret (mkResult 400 ValidationErrors)
           | Some request => create request idempotencyKey
           end
     end)
    (fun _ => ret (mkResult 500 (ErrorBody "Internal server error"))).

End CreateOrder.

(* ===================================================================== *)
(** ** DELETE /orders/{order_id} ([handlers/cancel-order.ts])             *)
(* ===================================================================== *)

(** [`${x}`] of a string that may be [undefined]. *)
Definition template (x : option string) : string := default "undefined" x.

Module CancelOrder.

Definition CANCELLABLE_STATUSES : list OrderStatus.t :=
  [OrderStatus.PENDING; OrderStatus.CONFIRMED].

Inductive ResponseBody :=
| ErrorBody (error : string) (order_id : option string)
    (current_status : option OrderStatus.t) (message : option string)
| CancelledBody (order_id : string) (status : OrderStatus.t) (message : string).

(** [CANCELLABLE_STATUSES.includes(order.status)] *)
Definition cancellable (status : option OrderStatus.t) : bool :=
  match status with
  | Some s => bool_decide (s ∈ CANCELLABLE_STATUSES)
  | None => false
  end.

Definition missing_id_response : APIGatewayProxyResult ResponseBody :=
  mkResult 400 (ErrorBody "Missing order_id parameter" None None None).

Definition not_cancellable_response (orderId : string) (order : OrderById.t)
    : APIGatewayProxyResult ResponseBody :=
  mkResult 409
    (ErrorBody "Order cannot be cancelled" (Some orderId)
       (OrderById.status order)
       (Some ("Order can only be cancelled when status is "
              ++ String.concat " or "
                   (map OrderStatus.to_string CANCELLABLE_STATUSES)))).

(** After the order has been fetched. *)
Definition cancel (orderId : string) (order : OrderById.t)
    : M (APIGatewayProxyResult ResponseBody) :=
  if negb (cancellable (OrderById.status order)) then
    ret (not_cancellable_response orderId order)
  else
    let orderTsId :=
      template (OrderById.order_ts order) ++ "#" ++ OrderById.order_id order in
    let* updated :=
      match OrderById.customer_id order with
      | Some customerId =>
          updateOrderStatus customerId orderTsId orderId
            OrderStatus.CANCELLED (OrderById.status order)
      | None =>
          (* the key of the update has no [customer_id]: the table
             refuses the request *)
          throw ValidationException
      end in
    if negb updated then
      ret (mkResult 409
             (ErrorBody "Order status changed, please retry" (Some orderId)
                None None))
    else
      ret (mkResult 200
             (CancelledBody orderId OrderStatus.CANCELLED
                "Order cancelled successfully")).

Definition handler (event : APIGatewayProxyEvent)
    : M (APIGatewayProxyResult ResponseBody) :=
  try_catch
    (match pathParameters event ≫= (fun p => p !! "order_id") with
     | None => ret missing_id_response
     | Some orderId =>
         if String.eqb orderId "" then ret missing_id_response
         else
           let* order := getOrderById orderId in
           match order with
           | None =>
               ret (mkResult 404
                      (ErrorBody "Order not found" (Some orderId) None None))
           | Some order => cancel orderId order
           end
     end)
    (fun _ => ret (mkResult 500
                     (ErrorBody "Internal server error" None None None))).

End CancelOrder.

(* ===================================================================== *)
(** ** Inventory reservation ([handlers/reserve-inventory.ts])            *)
(* ===================================================================== *)

Definition generateReservationId : M string :=
  let* u := ulid in ret ("RES-" ++ u).

(** [Math.floor(Date.now() / 1000) + minutes * 60] *)
Definition calculateTTL (minutes : Z) : M Z :=
  let* ms := Date_now in ret (ms / 1000 + minutes * 60).

(** [String(error)] *)
Definition String_of_error (e : Error) : string :=
  match e with
  | ConditionalCheckFailedException => "ConditionalCheckFailedException"
  | TransactionCanceledException => "TransactionCanceledException"
  | ValidationException => "ValidationException"
  | ServiceUnavailable => "ServiceUnavailable"
  | SyntaxError => "SyntaxError"
  end.

Module ReserveInventory.

Record ReserveInventoryRequest := mkRequest {
  order_id : string;
  customer_id : string;
  store_id : string;
  items : list OrderItem.t;
}.

(** An entry of [failed_items]. *)
Module FailedItem.
Record t := mk {
  sku : string;
  requested : Z;
  available : Z;
}.
End FailedItem.

Record ReserveInventoryResponse := mkResponse {
  success : bool;
  reservation_id : option string;
  failed_items : option (list FailedItem.t);
  error : option string;
}.

(** One entry of [availabilityChecks]. *)
Record Check := mkCheck {
  sku : string;
  store_sku : string;
  requested : Z;
  available : Z;
  sufficient : bool;
}.

(** [`${event.store_id}#${item.sku}`] *)
Definition storeSku (event : ReserveInventoryRequest) (item : OrderItem.t) : string :=
  store_id event ++ "#" ++ OrderItem.sku item.

(** [inventory ? (inventory.quantity_available ?? 0)
                 - (inventory.quantity_reserved ?? 0) : 0] *)
Definition available_of (inventory : option Inventory.t) : Z :=
  match inventory with
  | Some i =>
      default 0 (Inventory.quantity_available i)
      - default 0 (Inventory.quantity_reserved i)
  | None => 0
  end.

(** [GetCommand] on the inventory table. *)
Definition get_inventory (key : string) : M (option Inventory.t) :=
  let* _ := aws_request in
  fun w => (Ok (inventory w !! key), w).

Definition check (event : ReserveInventoryRequest) (item : OrderItem.t) : M Check :=
  let* result := get_inventory (storeSku event item) in
  let available := available_of result in
  ret (mkCheck (OrderItem.sku item) (storeSku event item)
         (OrderItem.quantity item) available
         (Z.geb available (OrderItem.quantity item))).

Definition insufficient (checks : list Check) : list Check :=
  List.filter (fun c => negb (sufficient c)) checks.

Definition report (i : Check) : FailedItem.t :=
  FailedItem.mk (sku i) (requested i) (available i).

(** One [Update] of the transaction: the key and the quantity to add. *)
Definition transactItems (event : ReserveInventoryRequest) : list (string * Z) :=
  map (fun item => (storeSku event item, OrderItem.quantity item)) (items event).

(** [(quantity_available - if_not_exists(quantity_reserved, :zero)) >= :qty].
    An item that is absent, or has no [quantity_available], does not
    satisfy it. *)
Definition commit_condition (inv : gmap string Inventory.t)
    (u : string * Z) : bool :=
  match inv !! u.1 with
  | Some i =>
      match Inventory.quantity_available i with
      | Some qa => Z.geb (qa - default 0 (Inventory.quantity_reserved i)) u.2
      | None => false
      end
  | None => false
  end.

(** [SET quantity_reserved = if_not_exists(quantity_reserved, :zero) + :qty,
        updated_at = :now] *)
Definition commit_update (now : string) (u : string * Z)
    (inv : gmap string Inventory.t) : gmap string Inventory.t :=
  match inv !! u.1 with
  | Some i =>
      <[u.1 := Inventory.mk (Inventory.store_sku i)
                 (Inventory.quantity_available i)
                 (Some (default 0 (Inventory.quantity_reserved i) + u.2))
                 (Some now)]> inv
  | None => inv
  end.

(** [executeTransaction({ TransactItems })]: a [TransactWriteCommand].
    The service refuses an empty transaction, one of more than 100
    operations, and one with two operations on one item; otherwise all
    updates are applied if every condition holds, and none if one
    fails. *)
Definition executeTransaction (updates : list (string * Z)) (now : string)
    : M unit :=
  let* _ := aws_request in
  fun w =>
    if negb (bool_decide (NoDup updates.*1))
       || Nat.eqb (length updates) 0 || Nat.ltb 100 (length updates)
    then (Throw ValidationException, w)
    else if forallb (commit_condition (inventory w)) updates then
      (Ok tt, with_inventory (foldr (commit_update now) (inventory w) updates) w)
    else (Throw TransactionCanceledException, w).

Definition handler (event : ReserveInventoryRequest) : M ReserveInventoryResponse :=
  let* reservationId := generateReservationId in
  let* now_ := now in
  let* ttl := calculateTTL 30 in
  try_catch
    (let* availabilityChecks := promise_all (check event) (items event) in
     let insufficientItems := insufficient availabilityChecks in
     if Nat.ltb 0 (length insufficientItems) then
       ret (mkResponse false None (Some (map report insufficientItems))
              (Some "Insufficient inventory"))
     else
       let* _ := executeTransaction (transactItems event) now_ in
       ret (mkResponse true (Some reservationId) None None))
    (fun error =>
       match error with
       | TransactionCanceledException =>
           ret (mkResponse false None None
                  (Some "Inventory changed during reservation, please retry"))
       | _ => ret (mkResponse false None None (Some (String_of_error error)))
       end).

End ReserveInventory.

(* ===================================================================== *)
(** ** Payment ([handlers/process-payment.ts])                            *)
(* ===================================================================== *)

Module ProcessPayment.

Record ProcessPaymentRequest := mkRequest {
  order_id : string;
  customer_id : string;
  amount : option float;
}.

(** The two numbers [`TXN-${Date.now()}-${Math.random()...}`] is
    printed from. *)
Record TransactionId := mkTransactionId { txn_millis : Z; txn_random : float }.

Record ProcessPaymentResponse := mkResponse {
  success : bool;
  transaction_id : option TransactionId;
  payment_state : option PaymentState.t;
  error : option string;
}.

(** [amount <= 0]; the comparison is false when [amount] is
    [undefined]. *)
Definition invalid_amount (amount : option float) : bool :=
  match amount with
  | Some a => PrimFloat.leb a 0%float
  | None => false
  end.

Definition simulatePayment (amount : option float) : M bool :=
  let successRate := 0.95%float in
  let* random := Math_random in
  if invalid_amount amount then ret false
  else ret (PrimFloat.ltb random successRate).

Definition handler (event : ProcessPaymentRequest) : M ProcessPaymentResponse :=
  let* now_ := now in
  try_catch
    (let* paymentSuccess := simulatePayment (amount event) in
     let* ms := Date_now in
     let* r := Math_random in
     let transactionId := mkTransactionId ms r in
     let paymentState :=
       if paymentSuccess then PaymentState.CAPTURED else PaymentState.FAILED in
     let* _ :=
       DynamoDB.update_order_by_id_payment (order_id event) paymentState now_ in
     if paymentSuccess then
       ret (mkResponse true (Some transactionId) (Some PaymentState.CAPTURED) None)
     else
       ret (mkResponse false None (Some PaymentState.FAILED)
              (Some "Payment declined")))
    (fun error =>
       ret (mkResponse false None None (Some (String_of_error error)))).

End ProcessPayment.

(* ===================================================================== *)
(** ** The saga orchestrator ([handlers/process-order.ts])                *)
(* ===================================================================== *)

Module ProcessOrder.

(** A record of the SQS batch; [body] is [None] when the text is not
    JSON. *)
Record SQSRecord := mkSQSRecord {
  messageId : string;
  body : option OrderProcessingMessage.t;
}.

Record InvokeResult := mkInvokeResult {
  success : bool;
  error : option string;
}.

(** [lambdaClient.send(new InvokeCommand(...))]: the service records
    the invocation; a synchronous one waits for the function's reply.
    The invoked function runs in an execution environment of its own:
    its reply comes from the environment, and what it writes is a step
    of the environment, not of this handler. *)
Definition send_invoke (fn : LambdaFn) (payload : Payload) (async : bool)
    : M LambdaReply :=
  let* _ := aws_request in
  fun w =>
    let w1 := with_invoked (invoked w ++ [mkInvocation fn payload async]) w in
    if async then (Ok Returned, w1)
    else (Ok (peek (lambda_replies w1)),
          with_lambda_replies (advance (lambda_replies w1)) w1).

Definition invokeFunction (fn : LambdaFn) (payload : Payload) (async : bool)
    : M InvokeResult :=
  try_catch
    (let* response := send_invoke fn payload async in
     if async then ret (mkInvokeResult true None)
     else
       match response with
       | FunctionError errorMessage =>
           ret (mkInvokeResult false
                  (Some (match errorMessage with
                         | Some m => if String.eqb m "" then "Function error" else m
                         | None => "Function error"
                         end)))
       | Returned => ret (mkInvokeResult true None)
       end)
    (fun error => ret (mkInvokeResult false (Some (String_of_error error)))).

Definition failOrder (message : OrderProcessingMessage.t) (reason : string)
    : M unit :=
  try_catch
    (let* order := getOrderById (OrderProcessingMessage.order_id message) in
     let* _ :=
       match order with
       | Some order =>
           let orderTsId :=
             template (OrderById.order_ts order) ++ "#" ++ OrderById.order_id order in
           let* _ :=
             updateOrderStatus (OrderProcessingMessage.customer_id message)
               orderTsId (OrderProcessingMessage.order_id message)
               OrderStatus.FAILED (Some OrderStatus.PENDING) in
           ret tt
       | None => ret tt
       end in
     let* _ :=
       invokeFunction SEND_NOTIFICATIONS_FN
         (NotifyPayload (OrderProcessingMessage.order_id message)
            (OrderProcessingMessage.customer_id message)
            OrderStatus.FAILED None (Some reason))
         true in
     ret tt)
    (fun _ => ret tt).

(** The workflow for an order found PENDING; the result lists the
    message ids to report as failed. *)
Definition workflow (record : SQSRecord) (message : OrderProcessingMessage.t)
    (order : OrderById.t) : M (list string) :=
  let order_id := OrderProcessingMessage.order_id message in
  let customer_id := OrderProcessingMessage.customer_id message in
  let* inventoryResult :=
    invokeFunction RESERVE_INVENTORY_FN
      (ReservePayload order_id customer_id (OrderById.items order)
         (OrderById.store_id order))
      false in
  if negb (success inventoryResult) then
    let* _ := failOrder message "Inventory reservation failed" in ret []
  else
    let* paymentResult :=
      invokeFunction PROCESS_PAYMENT_FN
        (PaymentPayload order_id customer_id (OrderById.total order)) false in
    if negb (success paymentResult) then
      let* _ := failOrder message "Payment processing failed" in ret []
    else
      let orderTsId :=
        template (OrderById.order_ts order) ++ "#" ++ OrderById.order_id order in
      let* updated :=
        updateOrderStatus customer_id orderTsId order_id
          OrderStatus.CONFIRMED (Some OrderStatus.PENDING) in
      if negb updated then ret [messageId record]
      else
        let* _ :=
          invokeFunction SEND_NOTIFICATIONS_FN
            (NotifyPayload order_id customer_id OrderStatus.CONFIRMED
               (OrderById.total order) None)
            true in
        ret [].

(** The body of the [for] loop: the failures one record adds to
    [batchItemFailures]. *)
Definition process_record (record : SQSRecord) : M (list string) :=
  try_catch
    (match body record with
     | None => throw SyntaxError
     | Some message =>
         let* order := getOrderById (OrderProcessingMessage.order_id message) in
         match order with
         | None => ret []
         | Some order =>
             if negb (bool_decide (OrderById.status order = Some OrderStatus.PENDING))
             then ret []
             else workflow record message order
         end
     end)
    (fun _ => ret [messageId record]).

(** [handler]: the records in order, the failures accumulated. *)
Fixpoint handler (records : list SQSRecord) : M (list string) :=
  match records with
  | [] => ret []
  | record :: rest =>
      let* failed := process_record record in
      let* more := handler rest in
      ret (failed ++ more)%list
  end.

End ProcessOrder.

(* ===================================================================== *)
(** ** The change-event transformer (the change-feed handler)             *)
(* ===================================================================== *)

Module StreamProcessor.

Inductive EventName := INSERT | MODIFY | REMOVE.

(** [record.dynamodb]: the images, already unmarshalled. *)
Record StreamRecord := mkStreamRecord {
  NewImage : option Order.t;
  OldImage : option Order.t;
}.

Record DynamoDBRecord := mkDynamoDBRecord {
  eventID : option string;
  eventName : option EventName;
  dynamodb : option StreamRecord;
}.

(** The object [Detail] is the JSON text of, one constructor per
    [event_type]. *)
Inductive Detail :=
| ORDER_CREATED (order_id : option string) (customer_id : string)
    (store_id county_id : option string) (status : option OrderStatus.t)
    (total : option float) (item_count : nat) (timestamp : string)
| ORDER_STATUS_CHANGED (order_id : option string) (customer_id : string)
    (store_id county_id : option string)
    (old_status new_status : option OrderStatus.t)
    (total : option float) (timestamp : string)
| ORDER_CONFIRMED (order_id : option string) (customer_id : string)
    (store_id county_id : option string) (total : option float)
    (items : option (list OrderItem.t))
    (shipping_address : option Address.t) (timestamp : string)
| ORDER_CANCELLED (order_id : option string) (customer_id : string)
    (store_id county_id : option string) (total : option float)
    (timestamp : string)
| ORDER_SHIPPED (order_id : option string) (customer_id : string)
    (store_id : option string) (shipping_address : option Address.t)
    (timestamp : string)
| PAYMENT_STATE_CHANGED (order_id : option string) (customer_id : string)
    (old_state new_state : option PaymentState.t)
    (total : option float) (timestamp : string)
| ORDER_DELETED (order_id : option string) (customer_id : string)
    (timestamp : string).

(** The [event_type] field of the object. *)
Definition event_type (d : Detail) : string :=
  match d with
  | ORDER_CREATED _ _ _ _ _ _ _ _ => "ORDER_CREATED"
  | ORDER_STATUS_CHANGED _ _ _ _ _ _ _ _ => "ORDER_STATUS_CHANGED"
  | ORDER_CONFIRMED _ _ _ _ _ _ _ _ => "ORDER_CONFIRMED"
  | ORDER_CANCELLED _ _ _ _ _ _ => "ORDER_CANCELLED"
  | ORDER_SHIPPED _ _ _ _ _ => "ORDER_SHIPPED"
  | PAYMENT_STATE_CHANGED _ _ _ _ _ _ => "PAYMENT_STATE_CHANGED"
  | ORDER_DELETED _ _ _ => "ORDER_DELETED"
  end.

Record PutEventsRequestEntry := mkEntry {
  EventBusName : string;
  Source : string;
  DetailType : string;
  Time : string;
  Detail_ : Detail;
}.

Definition EVENT_SOURCE : string := "acme.orders".

Section Transform.

(** [process.env.EVENT_BUS_NAME] *)
Variable EVENT_BUS_NAME : string.

Definition entry (detailType timestamp : string) (d : Detail)
    : PutEventsRequestEntry :=
  mkEntry EVENT_BUS_NAME EVENT_SOURCE detailType timestamp d.

(** The events of a MODIFY record whose status changed. *)
Definition status_events (timestamp : string) (newImage oldImage : Order.t)
    : list PutEventsRequestEntry :=
  [entry "Order Status Changed" timestamp
     (ORDER_STATUS_CHANGED (Order.order_id newImage)
        (Order.customer_id newImage) (Order.store_id newImage)
        (Order.county_id newImage) (Order.status oldImage)
        (Order.status newImage) (Order.total newImage) timestamp)]
  ++ (if bool_decide (Order.status newImage = Some OrderStatus.CONFIRMED) then
        [entry "Order Confirmed" timestamp
           (ORDER_CONFIRMED (Order.order_id newImage)
              (Order.customer_id newImage) (Order.store_id newImage)
              (Order.county_id newImage) (Order.total newImage)
              (Order.items newImage) (Order.shipping_address newImage)
              timestamp)]
      else [])
  ++ (if bool_decide (Order.status newImage = Some OrderStatus.CANCELLED) then
        [entry "Order Cancelled" timestamp
           (ORDER_CANCELLED (Order.order_id newImage)
              (Order.customer_id newImage) (Order.store_id newImage)
              (Order.county_id newImage) (Order.total newImage) timestamp)]
      else [])
  ++ (if bool_decide (Order.status newImage = Some OrderStatus.SHIPPED) then
        [entry "Order Shipped" timestamp
           (ORDER_SHIPPED (Order.order_id newImage)
              (Order.customer_id newImage) (Order.store_id newImage)
              (Order.shipping_address newImage) timestamp)]
      else []).

Definition modify_events (timestamp : string) (newImage oldImage : Order.t)
    : list PutEventsRequestEntry :=
  (if negb (bool_decide (Order.status newImage = Order.status oldImage)) then
     status_events timestamp newImage oldImage
   else [])
  ++ (if negb (bool_decide
                 (Order.payment_state newImage = Order.payment_state oldImage))
      then
        [entry "Payment State Changed" timestamp
           (PAYMENT_STATE_CHANGED (Order.order_id newImage)
              (Order.customer_id newImage) (Order.payment_state oldImage)
              (Order.payment_state newImage) (Order.total newImage)
              timestamp)]
      else []).

(** The [switch (eventName)]. *)
Definition events_of (timestamp : string) (eventName : option EventName)
    (newImage oldImage : option Order.t) : list PutEventsRequestEntry :=
  match eventName with
  | Some INSERT =>
      match newImage with
      | Some n =>
          [entry "Order Created" timestamp
             (ORDER_CREATED (Order.order_id n) (Order.customer_id n)
                (Order.store_id n) (Order.county_id n) (Order.status n)
                (Order.total n)
                (match Order.items n with Some l => length l | None => 0%nat end)
                timestamp)]
      | None => []
      end
  | Some MODIFY =>
      match newImage, oldImage with
      | Some n, Some o => modify_events timestamp n o
      | _, _ => []
      end
  | Some REMOVE =>
      match oldImage with
      | Some o =>
          [entry "Order Deleted" timestamp
             (ORDER_DELETED (Order.order_id o) (Order.customer_id o) timestamp)]
      | None => []
      end
  | None => []
  end.

Definition transformToDomainEvents (record : DynamoDBRecord)
    : M (list PutEventsRequestEntry) :=
  let* timestamp := now in
  match dynamodb record with
  | None => ret []
  | Some images =>
      ret (events_of timestamp (eventName record)
             (NewImage images) (OldImage images))
  end.

End Transform.

End StreamProcessor.

(* ===================================================================== *)
(** ** Vocabulary of the properties                                       *)
(* ===================================================================== *)

(** The primary key the create handler derives when it starts in [w]:
    the customer, and the timestamp and the generated id it will read. *)
Definition derived_key (request : CreateOrderRequest.t) (w : World)
    : string * string :=
  (CreateOrderRequest.customer_id request,
   iso (peek (clock w)) ++ "#" ++ ("ORD-" ++ peek (ulids w))).

(** The order object it builds there. *)
Definition derived_order (request : CreateOrderRequest.t)
    (idempotencyKey : string) (w : World) : Order.t :=
  CreateOrder.build_order request idempotencyKey
    ("ORD-" ++ peek (ulids w)) (iso (peek (clock w))).

(** The world in which the create handler calls the repository: it has
    drawn its id and read the clock. *)
Definition after_reads (w : World) : World :=
  with_clock (advance (clock w)) (with_ulids (advance (ulids w)) w).

(** Nothing stored, queued or invoked differs between two worlds. *)
Definition same_storage (w w' : World) : Prop :=
  orders w' = orders w
  ∧ orders_by_id w' = orders_by_id w
  ∧ inventory w' = inventory w
  ∧ queue w' = queue w
  ∧ invoked w' = invoked w.

(** The primary record a by-ID item points to: the one whose key the
    handlers rebuild from the item's [customer_id], [order_ts] and
    [order_id]. *)
Definition primary_of (w : World) (order : OrderById.t) : option Order.t :=
  OrderById.customer_id order ≫= fun customerId =>
    orders w !! (customerId,
                 template (OrderById.order_ts order) ++ "#" ++ OrderById.order_id order).

(** A DELETE request for [orderId]. *)
Definition cancel_event (orderId : string) : APIGatewayProxyEvent :=
  mkEvent ∅ (Some {["order_id" := orderId]}) NoBody.

(** What the ledger holds for an item of a reservation request:
    [quantity_available - quantity_reserved], and 0 when the store has no
    record of the SKU. *)
Definition available (w : World) (event : ReserveInventory.ReserveInventoryRequest)
    (item : OrderItem.t) : Z :=
  ReserveInventory.available_of
    (inventory w !! ReserveInventory.storeSku event item).

Definition short (w : World) (event : ReserveInventory.ReserveInventoryRequest)
    (item : OrderItem.t) : bool :=
  Z.ltb (available w event item) (OrderItem.quantity item).

(** The report a rejected reservation owes: every short item, in request
    order, with what was requested and what is available. *)
Definition shortfalls (w : World) (event : ReserveInventory.ReserveInventoryRequest)
    : list ReserveInventory.FailedItem.t :=
  map (fun item =>
         ReserveInventory.FailedItem.mk (OrderItem.sku item)
           (OrderItem.quantity item) (available w event item))
      (List.filter (short w event) (ReserveInventory.items event)).

(** The check of one item, on the ledger as it stands. *)
Definition checked (w : World) (event : ReserveInventory.ReserveInventoryRequest)
    (item : OrderItem.t) : ReserveInventory.Check :=
  ReserveInventory.mkCheck (OrderItem.sku item)
    (ReserveInventory.storeSku event item) (OrderItem.quantity item)
    (available w event item)
    (Z.geb (available w event item) (OrderItem.quantity item)).

(** Two worlds that differ at most in how many requests have been sent. *)
Definition only_requests (w w' : World) : Prop :=
  ∃ n, w' = with_outages (mkOracle (feed (outages w)) n) w.

(** A MODIFY record of the change feed with both images. *)
Definition modify_record (eventID : option string) (newImage oldImage : Order.t)
    : StreamProcessor.DynamoDBRecord :=
  StreamProcessor.mkDynamoDBRecord eventID (Some StreamProcessor.MODIFY)
    (Some (StreamProcessor.mkStreamRecord (Some newImage) (Some oldImage))).

(** The event types of a list of entries, in order. *)
Definition event_types (events : list StreamProcessor.PutEventsRequestEntry)
    : list string :=
  map (fun e => StreamProcessor.event_type (StreamProcessor.Detail_ e)) events.

(** The status-specific event type of a status, if it has one. *)
Definition specific_event_type (status : option OrderStatus.t) : list string :=
  match status with
  | Some OrderStatus.CONFIRMED => ["ORDER_CONFIRMED"]
  | Some OrderStatus.CANCELLED => ["ORDER_CANCELLED"]
  | Some OrderStatus.SHIPPED => ["ORDER_SHIPPED"]
  | _ => []
  end.

(** Two by-ID items that agree on every attribute other than
    [payment_state] and [updated_at]. *)
Definition same_but_payment (b b' : OrderById.t) : Prop :=
  OrderById.order_id b' = OrderById.order_id b
  ∧ OrderById.customer_id b' = OrderById.customer_id b
  ∧ OrderById.order_ts b' = OrderById.order_ts b
  ∧ OrderById.status b' = OrderById.status b
  ∧ OrderById.store_id b' = OrderById.store_id b
  ∧ OrderById.county_id b' = OrderById.county_id b
  ∧ OrderById.items b' = OrderById.items b
  ∧ OrderById.subtotal b' = OrderById.subtotal b
  ∧ OrderById.tax b' = OrderById.tax b
  ∧ OrderById.total b' = OrderById.total b
  ∧ OrderById.shipping_address b' = OrderById.shipping_address b
  ∧ OrderById.created_at b' = OrderById.created_at b.

(** [|x - y| <= 0.01], in binary64. *)
Definition within_tolerance (x y : float) : bool :=
  PrimFloat.leb (PrimFloat.abs (PrimFloat.sub x y)) 0.01%float.

(** [Σ quantity × unit_price] over stored lines, summed as [reduce]
    does. *)
Definition sum_of_lines (items : list OrderItem.t) : float :=
  fold_left
    (fun sum item =>
       PrimFloat.add sum
         (PrimFloat.mul (number_of_Z (OrderItem.quantity item))
                        (OrderItem.unit_price item)))
    items 0%float.

(** Concrete data for the scenarios. *)
Module Scenario.

Definition steady {A} (a : A) : Oracle A := mkOracle (fun _ => a) 0.

Definition noon : Instant :=
  mkInstant "2024-03-01T12:00:00.000Z" 1709294400000.

(** An empty system whose services never fail; the ULID generator and
    the clock keep giving the same answer. *)
Definition world : World :=
  mkWorld ∅ ∅ ∅ [] [] (steady false) (steady noon)
    (steady "01HQXG5Z8K3V9T2M4N6P7R0S1W") (steady 0.5%float) (steady Returned).

Definition wine : CreateOrderItem.t :=
  CreateOrderItem.mk "WINE-001" "Red wine" 2 25%float.

Definition beer : CreateOrderItem.t :=
  CreateOrderItem.mk "BEER-001" "Lager" 6 8%float.

Definition address : Address.t :=
  Address.mk "1 Main St" "Austin" "TX" "78701".

Definition request : CreateOrderRequest.t :=
  CreateOrderRequest.mk "CUST-001" "STORE-001" "COUNTY-001" [wine; beer] address.

Definition event : APIGatewayProxyEvent :=
  mkEvent {["X-Idempotency-Key" := "retry-key-0001"]} None (Json request).

(** The ledger of the rejection scenario: five units of WINE-001 at
    STORE-001, three of them reserved. *)
Definition stocked_world : World :=
  with_inventory
    {["STORE-001#WINE-001" :=
        Inventory.mk "STORE-001#WINE-001" (Some 5) (Some 3) None]}
    world.

(** A request for ten units of it. *)
Definition ten_wine : OrderItem.t :=
  OrderItem.mk "WINE-001" "Red wine" 10 25%float 250%float.

Definition reservation : ReserveInventory.ReserveInventoryRequest :=
  ReserveInventory.mkRequest "ORD-1" "CUST-001" "STORE-001" [ten_wine].

(** An order that has already been shipped, as the by-ID table holds
    it, and the work item that refers to it. *)
Definition shipped_order : OrderById.t :=
  OrderById.mk "ORD-9" (Some "CUST-001") (Some "2024-02-27T09:30:00.000Z")
    (Some OrderStatus.SHIPPED) (Some PaymentState.CAPTURED)
    (Some "STORE-001") (Some "COUNTY-001") (Some [ten_wine])
    (Some 250%float) (Some 20%float) (Some 270%float) (Some address)
    (Some "2024-02-27T09:30:00.000Z") (Some "2024-02-28T10:00:00.000Z").

Definition shipped_world : World :=
  with_orders_by_id {["ORD-9" := shipped_order]} world.

Definition shipped_work_item : ProcessOrder.SQSRecord :=
  ProcessOrder.mkSQSRecord "msg-1"
    (Some (OrderProcessingMessage.mk "ORD-9" "CUST-001"
             "2024-02-27T09:30:00.000Z#ORD-9"
             OrderProcessingMessage.PROCESS_ORDER None "2024-02-27T09:30:00.000Z")).

(** The same system, except that its second request meets an
    outage. *)
Definition world_second_request_down : World :=
  with_outages (mkOracle (fun n => Nat.eqb n 1) 0) world.

End Scenario.

(* ===================================================================== *)
(** ** GET /orders/{order_id} ([handlers/get-order.ts])                   *)
(* ===================================================================== *)

Module GetOrder.

Inductive ResponseBody :=
| ErrorBody (error : string) (order_id : option string)
| OrderBody
    (order_id : string) (customer_id : option string)
    (status : option OrderStatus.t) (payment_state : option PaymentState.t)
    (store_id county_id : option string)
    (items : option (list OrderItem.t))
    (subtotal tax total : option float)
    (shipping_address : option Address.t)
    (created_at updated_at : option string).

Definition missing_id_response : APIGatewayProxyResult ResponseBody :=
  mkResult 400 (ErrorBody "Missing order_id parameter" None).

Definition order_response (order : OrderById.t)
    : APIGatewayProxyResult ResponseBody :=
  mkResult 200
    (OrderBody (OrderById.order_id order) (OrderById.customer_id order)
       (OrderById.status order) (OrderById.payment_state order)
       (OrderById.store_id order) (OrderById.county_id order)
       (OrderById.items order) (OrderById.subtotal order)
       (OrderById.tax order) (OrderById.total order)
       (OrderById.shipping_address order)
       (OrderById.created_at order) (OrderById.updated_at order)).

Definition handler (event : APIGatewayProxyEvent)
    : M (APIGatewayProxyResult ResponseBody) :=
  try_catch
    (match pathParameters event ≫= (fun p => p !! "order_id") with
     | None => ret missing_id_response
     | Some orderId =>
         if String.eqb orderId "" then ret missing_id_response
         else
           let* order := getOrderById orderId in
           match order with
           | None => ret (mkResult 404 (ErrorBody "Order not found" (Some orderId)))
           | Some order => ret (order_response order)
           end
     end)
    (fun _ => ret (mkResult 500 (ErrorBody "Internal server error" None))).

End GetOrder.

(* ===================================================================== *)
(** ** Vocabulary of the further properties                               *)
(* ===================================================================== *)

(** Whatever the services answer, a run of [m] relates the world it
    starts in to the world it ends in by [R]. *)
Definition keeps {A} (R : World → World → Prop) (m : M A) : Prop :=
  ∀ w, R w (m w).2.

(** Whatever the services answer, [m] returns a value: it never throws. *)
Definition answers {A} (m : M A) : Prop :=
  ∀ w, ∃ a, (m w).1 = Ok a.

(** Two orders that agree on every attribute other than [status] and
    [updated_at]. *)
Definition same_but_status (o o' : Order.t) : Prop :=
  Order.customer_id o' = Order.customer_id o
  ∧ Order.order_ts_id o' = Order.order_ts_id o
  ∧ Order.order_id o' = Order.order_id o
  ∧ Order.order_ts o' = Order.order_ts o
  ∧ Order.store_id o' = Order.store_id o
  ∧ Order.county_id o' = Order.county_id o
  ∧ Order.payment_state o' = Order.payment_state o
  ∧ Order.items o' = Order.items o
  ∧ Order.subtotal o' = Order.subtotal o
  ∧ Order.tax o' = Order.tax o
  ∧ Order.total o' = Order.total o
  ∧ Order.shipping_address o' = Order.shipping_address o
  ∧ Order.idempotency_key o' = Order.idempotency_key o
  ∧ Order.created_at o' = Order.created_at o
  ∧ Order.ttl o' = Order.ttl o.

(** Two by-ID items that agree on every attribute other than [status]
    and [updated_at]. *)
Definition same_but_state (b b' : OrderById.t) : Prop :=
  OrderById.order_id b' = OrderById.order_id b
  ∧ OrderById.customer_id b' = OrderById.customer_id b
  ∧ OrderById.order_ts b' = OrderById.order_ts b
  ∧ OrderById.payment_state b' = OrderById.payment_state b
  ∧ OrderById.store_id b' = OrderById.store_id b
  ∧ OrderById.county_id b' = OrderById.county_id b
  ∧ OrderById.items b' = OrderById.items b
  ∧ OrderById.subtotal b' = OrderById.subtotal b
  ∧ OrderById.tax b' = OrderById.tax b
  ∧ OrderById.total b' = OrderById.total b
  ∧ OrderById.shipping_address b' = OrderById.shipping_address b
  ∧ OrderById.created_at b' = OrderById.created_at b.

(** From [w] to [w'] no primary record and no by-ID item has been added
    or removed, and each has changed in [status] and [updated_at] at
    most. *)
Definition records_kept (w w' : World) : Prop :=
  (∀ key, match orders w !! key with
          | Some o => ∃ o', orders w' !! key = Some o' ∧ same_but_status o o'
          | None => orders w' !! key = None
          end)
  ∧ (∀ id, match orders_by_id w !! id with
           | Some b => ∃ b', orders_by_id w' !! id = Some b' ∧ same_but_state b b'
           | None => orders_by_id w' !! id = None
           end).

(** Whatever the services answer, a run of [m] that starts in a world
    whose by-ID table has an item of [id] relates that world to the one
    it ends in by [R]. *)
Definition keeps_having {A} (id : string) (R : World → World → Prop) (m : M A)
    : Prop :=
  ∀ w, is_Some (orders_by_id w !! id) → R w (m w).2.

(** From [w] to [w'] the ledger is unchanged. *)
Definition ledger_kept (w w' : World) : Prop := inventory w' = inventory w.

(** Nothing stored differs; invocations and messages may have been
    added. *)
Definition tables_kept (w w' : World) : Prop :=
  orders w' = orders w
  ∧ orders_by_id w' = orders_by_id w
  ∧ inventory w' = inventory w.

(** From [w] to [w'] no primary record that has left PENDING has been
    taken back: a CONFIRMED one is the same item or is CANCELLED, and
    one of any other status, or of none, is the same item. *)
Definition settled_kept (w w' : World) : Prop :=
  ∀ key o, orders w !! key = Some o →
    match Order.status o with
    | Some OrderStatus.PENDING => True
    | Some OrderStatus.CONFIRMED =>
        orders w' !! key = Some o
        ∨ ∃ o', orders w' !! key = Some o'
                ∧ Order.status o' = Some OrderStatus.CANCELLED
    | _ => orders w' !! key = Some o
    end.

(** Nothing has been queued or invoked. *)
Definition silent (w w' : World) : Prop :=
  queue w' = queue w ∧ invoked w' = invoked w.


(** From [w] to [w'] every primary record that is not PENDING is the
    same item. *)
Definition pending_only (w w' : World) : Prop :=
  ∀ key o, orders w !! key = Some o →
           Order.status o ≠ Some OrderStatus.PENDING →
           orders w' !! key = Some o.


(* ===================================================================== *)
(** ** Publishing the change events (the change-feed [handler])           *)
(* ===================================================================== *)

Module EventBridge.

(** How the service answers a [PutEventsCommand]: the request fails, or
    it is answered with a [FailedEntryCount], which may be absent. *)
Inductive PutEventsReply :=
| RequestFailed
| Answered (FailedEntryCount : option nat).

(** The event bus as the handler meets it: the requests it has been
    sent, in order, and the answers it is going to give. *)
Record Bus := mkBus {
  requests : list (list StreamProcessor.PutEventsRequestEntry);
  replies : Oracle PutEventsReply;
}.

(** [eventBridgeClient.send(new PutEventsCommand({ Entries: batch }))] *)
Definition send (batch : list StreamProcessor.PutEventsRequestEntry) (b : Bus)
    : PutEventsReply * Bus :=
  (peek (replies b), mkBus (requests b ++ [batch]) (advance (replies b))).

End EventBridge.

Module StreamHandler.

(** [result.FailedEntryCount && result.FailedEntryCount > 0] *)
Definition some_failed (FailedEntryCount : option nat) : bool :=
  match FailedEntryCount with
  | Some n => Nat.ltb 0 n
  | None => false
  end.

(** The loop of [publishEvents] from index [i] on; [false] when it
    throws.  Every turn moves [i] forward by ten, so that [fuel] turns
    are enough for [fuel] events. *)
Fixpoint publish_from (fuel i : nat)
    (events : list StreamProcessor.PutEventsRequestEntry)
    (b : EventBridge.Bus) : bool * EventBridge.Bus :=
  match fuel with
  | O => (true, b)
  | S fuel' =>
      if Nat.ltb i (length events) then
        let batch := take 10 (drop i events) in
        match EventBridge.send batch b with
        | (EventBridge.RequestFailed, b') => (false, b')
        | (EventBridge.Answered FailedEntryCount, b') =>
            if some_failed FailedEntryCount then (false, b')
            else publish_from fuel' (i + 10) events b'
        end
      else (true, b)
  end.

Definition publishEvents (events : list StreamProcessor.PutEventsRequestEntry)
    (b : EventBridge.Bus) : bool * EventBridge.Bus :=
  publish_from (length events) 0 events b.

(** What [unmarshall] returns for an image of the feed: the item, each
    number of it as a JS number or, when it is an integer beyond the
    safe range, as a BigInt.  [order] has the nearest number in the
    place of a BigInt. *)
Record Unmarshalled := mkUnmarshalled {
  order : Order.t;
  total_is_bigint : bool;
  items_hold_bigint : bool;
}.

(** An image as the feed delivers it: a map [unmarshall] throws on, or
    one it reads. *)
Inductive Image :=
| Malformed
| Item (item : Unmarshalled).

(** [record.dynamodb] *)
Record StreamImages := mkStreamImages {
  NewImage : option Image;
  OldImage : option Image;
}.

Record FeedRecord := mkFeedRecord {
  eventID : option string;
  eventName : option StreamProcessor.EventName;
  dynamodb : option StreamImages;
}.

(** [image ? unmarshall(image) : null]; the outer [None] when
    [unmarshall] throws. *)
Definition unmarshall (image : option Image) : option (option Unmarshalled) :=
  match image with
  | None => Some None
  | Some Malformed => None
  | Some (Item item) => Some (Some item)
  end.

(** Whether [JSON.stringify] throws on the object of an event, which it
    does on a BigInt: [newImage.total] is part of every object but those
    of ORDER_SHIPPED and ORDER_DELETED, [newImage.items] of that of
    ORDER_CONFIRMED. *)
Definition stringify_throws (newImage : option Unmarshalled)
    (d : StreamProcessor.Detail) : bool :=
  match newImage with
  | None => false
  | Some image =>
      match d with
      | StreamProcessor.ORDER_CREATED _ _ _ _ _ _ _ _
      | StreamProcessor.ORDER_STATUS_CHANGED _ _ _ _ _ _ _ _
      | StreamProcessor.ORDER_CANCELLED _ _ _ _ _ _
      | StreamProcessor.PAYMENT_STATE_CHANGED _ _ _ _ _ _ =>
          total_is_bigint image
      | StreamProcessor.ORDER_CONFIRMED _ _ _ _ _ _ _ _ =>
          total_is_bigint image || items_hold_bigint image
      | StreamProcessor.ORDER_SHIPPED _ _ _ _ _
      | StreamProcessor.ORDER_DELETED _ _ _ => false
      end
  end.

(** [if (record.eventID) batchItemFailures.push(...)]: an absent id and
    the empty one are skipped. *)
Definition itemIdentifier (record : FeedRecord) : list string :=
  match eventID record with
  | Some id => if String.eqb id "" then [] else [id]
  | None => []
  end.

Section Handler.

Variable EVENT_BUS_NAME : string.

(** [transformToDomainEvents] after it has read the time, on a record as
    the feed delivers it; [None] when it throws. *)
Definition transform_at (timestamp : string) (record : FeedRecord)
    : option (list StreamProcessor.PutEventsRequestEntry) :=
  match dynamodb record with
  | None => Some []
  | Some images =>
      newImage ← unmarshall (NewImage images);
      oldImage ← unmarshall (OldImage images);
      let events :=
        StreamProcessor.events_of EVENT_BUS_NAME timestamp (eventName record)
          (order <$> newImage) (order <$> oldImage) in
      if existsb (fun e => stringify_throws newImage (StreamProcessor.Detail_ e))
           events
      then None
      else Some events
  end.

Definition transformToDomainEvents (record : FeedRecord)
    : M (option (list StreamProcessor.PutEventsRequestEntry)) :=
  let* timestamp := now in
  ret (transform_at timestamp record).

(** The first loop: the events to publish and the failures so far.  The
    [catch] of a record reports its id and goes on. *)
Fixpoint collect (records : list FeedRecord)
    : M (list StreamProcessor.PutEventsRequestEntry * list string) :=
  match records with
  | [] => ret ([], [])
  | record :: rest =>
      let* domainEvents := transformToDomainEvents record in
      let one :=
        match domainEvents with
        | Some events => (events, [])
        | None => ([], itemIdentifier record)
        end in
      let* more := collect rest in
      ret ((one.1 ++ more.1)%list, (one.2 ++ more.2)%list)
  end.

(** [handler]: the result is [batchItemFailures]. *)
Definition handler (records : list FeedRecord)
    (w : World) (b : EventBridge.Bus)
    : Result (list string) * World * EventBridge.Bus :=
  match collect records w with
  | (Ok (eventsToPublish, batchItemFailures), w') =>
      if Nat.ltb 0 (length eventsToPublish) then
        match publishEvents eventsToPublish b with
        | (true, b') => (Ok batchItemFailures, w', b')
        | (false, b') =>
            (Ok (batchItemFailures ++ concat (map itemIdentifier records))%list,
             w', b')
        end
      else (Ok batchItemFailures, w', b)
  | (Throw e, w') => (Throw e, w', b)
  end.

End Handler.

End StreamHandler.

(** An answer of the bus that makes [publishEvents] throw: a failed
    request, or a positive [FailedEntryCount]. *)
Definition refusal (reply : EventBridge.PutEventsReply) : bool :=
  match reply with
  | EventBridge.RequestFailed => true
  | EventBridge.Answered FailedEntryCount =>
      StreamHandler.some_failed FailedEntryCount
  end.

(** The bus never refuses. *)
Definition accepting (b : EventBridge.Bus) : Prop :=
  ∀ n, refusal (feed (EventBridge.replies b) n) = false.





(** Batches that are the slices of [events]: in order they make up
    [events], and each has between one and ten entries. *)
Definition slices_of {A} (events : list A) (batches : list (list A)) : Prop :=
  concat batches = events
  ∧ Forall (fun batch => (0 < length batch ≤ 10)%nat) batches.


(* ===================================================================== *)
(** ** Sort keys and request hashes ([utils/idempotency.ts])              *)
(* ===================================================================== *)

(** [generateOrderSortKey]: [`${timestamp}#${orderId}`] *)
Definition generateOrderSortKey (orderId : string) : M string :=
  let* timestamp := now in ret (timestamp ++ "#" ++ orderId).

(** [s.split("#")]: the pieces between the separators; a string without
    a separator is its only piece. *)
Fixpoint split_hash (s : string) : list string :=
  match s with
  | EmptyString => [EmptyString]
  | String c rest =>
      if Ascii.eqb c "#"%char then EmptyString :: split_hash rest
      else match split_hash rest with
           | piece :: pieces => String c piece :: pieces
           | [] => [String c EmptyString]
           end
  end.

(** [parseOrderSortKey]: [const [timestamp, orderId] = sortKey.split("#")];
    a piece that is missing is [undefined]. *)
Module ParsedSortKey.
Record t := mk {
  timestamp : option string;
  orderId : option string;
}.
End ParsedSortKey.

Definition parseOrderSortKey (sortKey : string) : ParsedSortKey.t :=
  let pieces := split_hash sortKey in
  ParsedSortKey.mk (pieces !! 0%nat) (pieces !! 1%nat).

(** [x | 0]: the 32-bit two's complement integer a bit operation makes
    of the integer [x]. *)
Definition ToInt32 (x : Z) : Z := (x + 2 ^ 31) mod 2 ^ 32 - 2 ^ 31.

(** One turn of the loop of [hashRequestData], on the char code
    [json.charCodeAt(i)]:
    [hash = (hash << 5) - hash + char; hash = hash & hash]. *)
Definition hash_turn (hash char : Z) : Z :=
  let hash := ToInt32 (hash * 2 ^ 5) - hash + char in
  ToInt32 hash.

(** The number [hashRequestData] prints in base 16, from the char codes
    of the JSON text: [Math.abs(hash)]. *)
Definition hashRequestData (json : list Z) : Z :=
  Z.abs (fold_left hash_turn json 0).

(** A string in which "#" occurs. *)
Fixpoint has_hash (s : string) : bool :=
  match s with
  | EmptyString => false
  | String c rest => Ascii.eqb c "#"%char || has_hash rest
  end.

(** The polynomial [Σ json[i] · 31^(n-1-i)]. *)
Definition polynomial_31 (json : list Z) : Z :=
  fold_left (fun sum char => 31 * sum + char) json 0.

(** A stored line of an order as the request schema and the handler leave
    it: named, of a positive quantity and price, and with the product of
    the two as its total. *)
Definition valid_line (line : OrderItem.t) : Prop :=
  OrderItem.sku line ≠ ""
  ∧ OrderItem.name line ≠ ""
  ∧ (0 < OrderItem.quantity line)%Z
  ∧ PrimFloat.ltb 0%float (OrderItem.unit_price line) = true
  ∧ OrderItem.total_price line
    = PrimFloat.mul (number_of_Z (OrderItem.quantity line)) (OrderItem.unit_price line).


(* ===================================================================== *)
(** ** A retried request                                                  *)
(* ===================================================================== *)


(** What the create handler shows of the order it builds for [request]
    when it starts in [w], with the optional [message]. *)
Definition shown_order (request : CreateOrderRequest.t) (w : World)
    (message : option string) : CreateOrder.ResponseBody :=
  let subtotal := CreateOrder.subtotal (CreateOrderRequest.items request) in
  let tax := CreateOrder.tax subtotal in
  CreateOrder.OrderBody
    (Some ("ORD-" ++ peek (ulids w)))
    (CreateOrderRequest.customer_id request)
    (Some OrderStatus.PENDING) (Some PaymentState.PENDING)
    (Some (CreateOrder.itemsWithTotals (CreateOrderRequest.items request)))
    (Some subtotal) (Some tax) (Some (CreateOrder.total subtotal tax))
    (Some (iso (peek (clock w))))
    message.

(* ===================================================================== *)
(** ** Amounts without rounding                                           *)
(* ===================================================================== *)

(** The value of a finite binary64 number, counted in units of 2^-1074,
    of which every such number is a whole multiple; [None] for an
    infinity and for NaN. *)
Definition exact_value (x : float) : option Z :=
  match Prim2SF x with
  | S754_zero _ => Some 0%Z
  | S754_finite s m e =>
      Some ((if s then -1 else 1) * Z.pos m * 2 ^ (e + 1074))%Z
  | _ => None
  end.

(** [Σ quantity × unit_price] over stored lines, without rounding, in
    the same units. *)
Definition exact_sum (items : list OrderItem.t) : option Z :=
  foldr (fun item acc =>
           price ← exact_value (OrderItem.unit_price item);
           sum ← acc;
           Some (OrderItem.quantity item * price + sum)%Z)
        (Some 0%Z) items.

(** [|x - y| <= 0.01], without rounding, for [y] in units of 2^-1074. *)
Definition within_a_cent (x : float) (y : Z) : bool :=
  from_option (fun v => Z.leb (100 * Z.abs (v - y)) (2 ^ 1074)) false
    (exact_value x).

(** [|x - cents / 100| <= 0.01], without rounding. *)
Definition within_a_cent_of (x : float) (cents : Z) : bool :=
  from_option (fun v => Z.leb (Z.abs (100 * v - cents * 2 ^ 1074)) (2 ^ 1074))
    false (exact_value x).

(** A request the schema accepts, all of whose numbers are below 2^53:
    one cask at 140737488355328 (2^47) and one cork at 0.015. *)
Definition cask_request : CreateOrderRequest.t :=
  CreateOrderRequest.mk "CUST-001" "STORE-001" "COUNTY-001"
    [CreateOrderItem.mk "CASK-001" "Cask" 1 140737488355328%float;
     CreateOrderItem.mk "CORK-001" "Cork" 1 0.015%float]
    Scenario.address.

Definition cask_event : APIGatewayProxyEvent :=
  mkEvent {["X-Idempotency-Key" := "retry-key-0002"]} None (Json cask_request).

(* ===================================================================== *)
(** * Properties                                                          *)
(* ===================================================================== *)

(** *** Running requests *)

Lemma aws_request_healthy w :
  healthy w → aws_request w = (Ok tt, with_outages (advance (outages w)) w).
Proof. intros H. unfold aws_request, peek. by rewrite H. Qed.

Lemma aws_request_up w :
  peek (outages w) = false →
  aws_request w = (Ok tt, with_outages (advance (outages w)) w).
Proof. intros H. unfold aws_request. by rewrite H. Qed.

Lemma aws_request_down w :
  peek (outages w) = true →
  aws_request w = (Throw ServiceUnavailable, with_outages (advance (outages w)) w).
Proof. intros H. unfold aws_request. by rewrite H. Qed.

(** A run is its result and its final world. *)
Lemma run_eq {A} (m : M A) (w : World) (r : Result A) :
  (m w).1 = r → m w = (r, (m w).2).
Proof. intros <-. apply surjective_pairing. Qed.

Ltac healthy_tac :=
  match goal with
  | H : healthy _ |- healthy _ => let n := fresh in intros n; cbn; apply H
  end.

Ltac request_ok := rewrite aws_request_healthy by healthy_tac; cbn.

(* --------------------------------------------------------------------- *)
(** ** Idempotent creation                                                *)
(* --------------------------------------------------------------------- *)

Lemma create_first request idempotencyKey w :
  healthy w →
  orders w !! derived_key request w = None →
  ∃ w',
    CreateOrder.create request idempotencyKey w
    = (Ok (mkResult 201
             (CreateOrder.order_body (derived_order request idempotencyKey w) None)),
       w')
    ∧ healthy w'
    ∧ orders w'
      = <[derived_key request w := derived_order request idempotencyKey w]> (orders w)
    ∧ orders_by_id w'
      = <["ORD-" ++ peek (ulids w)
          := projection ("ORD-" ++ peek (ulids w))
               (derived_order request idempotencyKey w)]> (orders_by_id w)
    ∧ queue w'
      = (queue w
         ++ [CreateOrder.work_message request
               ("ORD-" ++ peek (ulids w)) (iso (peek (clock w)))])%list.
Proof.
  intros H Hf. eexists. split.
  - unfold CreateOrder.create, generateOrderId, bind, ulid, ret, now. cbn.
    unfold createOrder, try_catch, bind, DynamoDB.put_order_if_absent, bind.
    request_ok.
    unfold derived_key in Hf. cbn in Hf. rewrite Hf.
    unfold put_projection. cbn. unfold DynamoDB.put_order_by_id, bind.
    request_ok. unfold sendOrderMessage, bind. request_ok. reflexivity.
  - cbn. repeat split; eauto.
Qed.


Lemma handler_create event idempotencyKey request w :
  CreateOrder.idempotency_header event = Some idempotencyKey →
  idempotencyKey ≠ "" →
  parseAndValidateBody (body event) = Some request →
  CreateOrder.handler event w
  = try_catch (CreateOrder.create request idempotencyKey)
      (fun _ => ret (mkResult 500 (CreateOrder.ErrorBody "Internal server error")))
      w.
Proof.
  intros Hh Hk Hp. unfold CreateOrder.handler. rewrite Hh, Hp.
  apply String.eqb_neq in Hk. by rewrite Hk.
Qed.

(** The repository operation on a key not yet stored, and on a stored
    one. *)
Lemma createOrder_fresh order oid w :
  healthy w →
  Order.order_id order = Some oid →
  orders w !! (Order.customer_id order, Order.order_ts_id order) = None →
  ∃ w',
    createOrder order w = (Ok (mkCreateResult true order), w')
    ∧ healthy w'
    ∧ orders w'
      = <[(Order.customer_id order, Order.order_ts_id order) := order]> (orders w)
    ∧ orders_by_id w' = <[oid := projection oid order]> (orders_by_id w)
    ∧ queue w' = queue w.
Proof.
  intros H Hid Hf. eexists. split.
  - unfold createOrder, try_catch, bind, DynamoDB.put_order_if_absent, bind.
    request_ok. rewrite Hf.
    unfold put_projection. rewrite Hid. unfold DynamoDB.put_order_by_id, bind.
    request_ok. reflexivity.
  - cbn. repeat split; eauto.
Qed.





(** With the same idempotency header but a key not stored before, the
    second request creates a second order: the repository collides on
    the derived key only. *)
Lemma create_twice_other_key w0 w1 w2 r1 r2 ev k req :
  healthy w0 →
  CreateOrder.idempotency_header ev = Some k → k ≠ "" →
  parseAndValidateBody (body ev) = Some req →
  orders w0 !! derived_key req w0 = None →
  CreateOrder.handler ev w0 = (r1, w1) →
  orders w1 !! derived_key req w1 = None →
  CreateOrder.handler ev w1 = (r2, w2) →
  (∃ b1, r1 = Ok (mkResult 201 b1))
  ∧ (∃ b2, r2 = Ok (mkResult 201 b2))
  ∧ size (orders w2) = S (S (size (orders w0))).
Proof.
  intros H Hh Hk Hp Hf0 Hrun1 Hf1 Hrun2.
  rewrite (handler_create _ _ _ _ Hh Hk Hp) in Hrun1.
  rewrite (handler_create _ _ _ _ Hh Hk Hp) in Hrun2.
  destruct (create_first req k w0 H Hf0) as (w1' & E1 & H1 & Ho1 & _).
  unfold try_catch in Hrun1. rewrite E1 in Hrun1. injection Hrun1 as <- <-.
  destruct (create_first req k w1' H1 Hf1) as (w2' & E2 & _ & Ho2 & _).
  unfold try_catch in Hrun2. rewrite E2 in Hrun2. injection Hrun2 as <- <-.
  split; [eauto|]. split; [eauto|].
  rewrite Ho2, map_size_insert_None by done.
  rewrite Ho1, map_size_insert_None by done. done.
Qed.

(* --------------------------------------------------------------------- *)
(** ** A failed projection write                                          *)
(* --------------------------------------------------------------------- *)

(** The repository operation: the primary write succeeds, the projection
    write meets an outage; the error is rethrown. *)
Lemma createOrder_projection_down order oid w :
  Order.order_id order = Some oid →
  peek (outages w) = false →
  feed (outages w) (S (cursor (outages w))) = true →
  orders w !! (Order.customer_id order, Order.order_ts_id order) = None →
  ∃ w',
    createOrder order w = (Throw ServiceUnavailable, w')
    ∧ orders w'
      = <[(Order.customer_id order, Order.order_ts_id order) := order]> (orders w)
    ∧ orders_by_id w' = orders_by_id w
    ∧ queue w' = queue w.
Proof.
  intros Hid Hup Hdown Hfresh. eexists. split.
  - unfold createOrder, try_catch, bind, DynamoDB.put_order_if_absent, bind.
    rewrite aws_request_up by done. cbn. rewrite Hfresh.
    unfold put_projection. rewrite Hid. unfold DynamoDB.put_order_by_id, bind.
    rewrite aws_request_down by done. reflexivity.
  - cbn. done.
Qed.

(** C7 (amended). In Create, when the guarded write of the primary record
    succeeds and the write of the by-ID projection then fails, the
    primary record stays stored, and the failure propagates: the
    repository operation throws, the handler answers 500, the projection
    is not written and no work message is enqueued. *)
Theorem projection_failure_propagates w ev k req :
  CreateOrder.idempotency_header ev = Some k → k ≠ "" →
  parseAndValidateBody (body ev) = Some req →
  peek (outages w) = false →
  feed (outages w) (S (cursor (outages w))) = true →
  orders w !! derived_key req w = None →
  (createOrder (derived_order req k w) (after_reads w)).1 = Throw ServiceUnavailable
  ∧ ∃ w',
      CreateOrder.handler ev w
      = (Ok (mkResult 500 (CreateOrder.ErrorBody "Internal server error")), w')
      ∧ orders w' = <[derived_key req w := derived_order req k w]> (orders w)
      ∧ orders_by_id w' = orders_by_id w
      ∧ queue w' = queue w.
Proof.
  intros Hh Hk Hp Hup Hdown Hfresh.
  destruct (createOrder_projection_down (derived_order req k w)
              ("ORD-" ++ peek (ulids w)) (after_reads w))
    as (w' & E & Ho & Hb & Hq); try done.
  split; [by rewrite E|].
  rewrite (handler_create _ _ _ _ Hh Hk Hp).
  unfold try_catch, CreateOrder.create, generateOrderId, bind, ulid, ret, now. cbn.
  unfold derived_order, after_reads in E. rewrite E.
  eexists. split; [reflexivity|]. done.
Qed.

Lemma projection_failure_propagates_witness :
  let w := Scenario.world_second_request_down in
  (createOrder (derived_order Scenario.request "retry-key-0001" w) (after_reads w)).1
  = Throw ServiceUnavailable
  ∧ ∃ w',
    CreateOrder.handler Scenario.event Scenario.world_second_request_down
    = (Ok (mkResult 500 (CreateOrder.ErrorBody "Internal server error")), w')
    ∧ orders w'
      = <[derived_key Scenario.request Scenario.world_second_request_down
          := derived_order Scenario.request "retry-key-0001"
               Scenario.world_second_request_down]> ∅
    ∧ orders_by_id w' = ∅
    ∧ queue w' = [].
Proof.
  apply (projection_failure_propagates Scenario.world_second_request_down
           Scenario.event "retry-key-0001" Scenario.request);
    first [ discriminate | reflexivity ].
Defined.

(** The claim as first stated fails: here the primary write succeeds, the
    projection write fails, and the create operation and the handler both
    report a failure, although the order is stored. *)
Lemma projection_failure_not_tolerated :
  let w0 := Scenario.world_second_request_down in
  let o := derived_order Scenario.request "retry-key-0001" w0 in
  (createOrder o w0).1 = Throw ServiceUnavailable
  ∧ (CreateOrder.handler Scenario.event w0).1
    = Ok (mkResult 500 (CreateOrder.ErrorBody "Internal server error"))
  ∧ orders (CreateOrder.handler Scenario.event w0).2 !! derived_key Scenario.request w0
    = Some o
  ∧ orders_by_id (CreateOrder.handler Scenario.event w0).2 = ∅
  ∧ queue (CreateOrder.handler Scenario.event w0).2 = [].
Proof. repeat split; reflexivity. Qed.

(* --------------------------------------------------------------------- *)
(** ** Order totals                                                       *)
(* --------------------------------------------------------------------- *)

Lemma sum_of_lines_itemsWithTotals items acc :
  fold_left
    (fun sum item =>
       PrimFloat.add sum
         (PrimFloat.mul (number_of_Z (OrderItem.quantity item))
                        (OrderItem.unit_price item)))
    (CreateOrder.itemsWithTotals items) acc
  = fold_left (fun sum item => PrimFloat.add sum (CreateOrder.line_total item))
      items acc.
Proof.
  revert acc. induction items as [|i items IH]; intros acc; [done|].
  cbn. apply IH.
Qed.

Lemma build_order_totals request k oid ts :
  let o := CreateOrder.build_order request k oid ts in
  ∃ items sub,
    Order.items o = Some items
    ∧ Forall (fun it => OrderItem.total_price it
                        = PrimFloat.mul (number_of_Z (OrderItem.quantity it))
                                        (OrderItem.unit_price it)) items
    ∧ sub = sum_of_lines items
    ∧ Order.subtotal o = Some sub
    ∧ Order.tax o = Some (PrimFloat.mul sub 0.08%float)
    ∧ Order.total o = Some (PrimFloat.add sub (PrimFloat.mul sub 0.08%float)).
Proof.
  intros o. eexists _, _. split; [reflexivity|]. split.
  { unfold CreateOrder.itemsWithTotals. apply Forall_map, Forall_forall. by intros. }
  split; [reflexivity|].
  unfold sum_of_lines. rewrite sum_of_lines_itemsWithTotals. done.
Qed.

(** Whenever the handler answers 201, it shows and has stored the order it
    derived from the request. *)
Lemma created_is_derived w ev r w' :
  CreateOrder.handler ev w = (Ok r, w') →
  statusCode r = 201 →
  ∃ request k,
    parseAndValidateBody (body ev) = Some request
    ∧ response r = CreateOrder.order_body (derived_order request k w) None
    ∧ orders w' !! derived_key request w = Some (derived_order request k w).
Proof.
  unfold CreateOrder.handler, try_catch.
  destruct (CreateOrder.idempotency_header ev) as [k|]; [|by intros [= <- <-]].
  destruct (String.eqb k ""); [by intros [= <- <-]|].
  destruct (parseAndValidateBody (body ev)) as [request|]; [|by intros [= <- <-]].
  unfold CreateOrder.create, generateOrderId, bind, ulid, ret, now. cbn.
  unfold createOrder, try_catch, bind, DynamoDB.put_order_if_absent, bind, aws_request.
  cbn.
  destruct (peek (outages w)); cbn; [by intros [= <- <-]|].
  destruct (orders w !! _) eqn:Hl; cbn.
  { unfold getOrderByCustomer, DynamoDB.get_order, bind, aws_request. cbn.
    destruct (feed _ _); cbn; [by intros [= <- <-]|].
    rewrite Hl. cbn. by intros [= <- <-]. }
  unfold put_projection. cbn. unfold DynamoDB.put_order_by_id, bind, aws_request. cbn.
  destruct (feed _ _); cbn; [by intros [= <- <-]|].
  unfold sendOrderMessage, bind, aws_request. cbn.
  destruct (feed _ _); cbn; [by intros [= <- <-]|].
  intros [= <- <-] _. exists request, k. cbn. split; [done|]. split; [done|].
  apply lookup_insert_eq.
Qed.

(** C8. Every order the create handler creates (it answers 201) is stored
    with the amounts binary64 arithmetic gives: each line's [total_price]
    is the rounded product of its quantity and unit price, [subtotal] is
    the sum of these products taken from 0 in the order of the lines and
    rounded at each step, [tax] is the rounded product of that subtotal
    and 0.08, and [total] the rounded sum of the two; this sets no bound
    on their distance from the amounts without rounding.  For two
    WINE-001 at 25.00 and six BEER-001
    at 8.00 no step of the subtotal rounds: the lines add up to 98
    exactly, the stored subtotal is 98, and the stored tax and total are
    within 0.01 of 7.84 and of 105.84. *)
Theorem created_order_totals_are_binary64 w ev r w' :
  CreateOrder.handler ev w = (Ok r, w') →
  statusCode r = 201 →
  (∃ request o items sub,
     parseAndValidateBody (body ev) = Some request
     ∧ orders w' !! derived_key request w = Some o
     ∧ response r = CreateOrder.order_body o None
     ∧ Order.items o = Some items
     ∧ Forall (fun it => OrderItem.total_price it
                         = PrimFloat.mul (number_of_Z (OrderItem.quantity it))
                                         (OrderItem.unit_price it)) items
     ∧ sub = sum_of_lines items
     ∧ Order.subtotal o = Some sub
     ∧ Order.tax o = Some (PrimFloat.mul sub 0.08%float)
     ∧ Order.total o = Some (PrimFloat.add sub (PrimFloat.mul sub 0.08%float)))
  ∧ (∃ o items,
       orders (CreateOrder.handler Scenario.event Scenario.world).2
         !! derived_key Scenario.request Scenario.world = Some o
       ∧ Order.items o = Some items
       ∧ exact_sum items = Some (98 * 2 ^ 1074)%Z
       ∧ Order.subtotal o = Some 98%float
       ∧ from_option (fun tax => within_a_cent_of tax 784) false (Order.tax o) = true
       ∧ from_option (fun total => within_a_cent_of total 10584) false (Order.total o)
         = true
       ∧ (from_option (within_tolerance 7.84%float) false (Order.tax o)
          && from_option (within_tolerance 105.84%float) false (Order.total o))
         = true).
Proof.
  intros Hrun Hcode. split.
  - destruct (created_is_derived _ _ _ _ Hrun Hcode) as (request & k & Hp & Hr & Ho).
    destruct (build_order_totals request k ("ORD-" ++ peek (ulids w))
                (iso (peek (clock w))))
      as (items & sub & Hi & Hall & Hsub & Hs & Ht & Htot).
    exists request, (derived_order request k w), items, sub. done.
  - eexists _, _. split; [vm_compute; reflexivity|].
    split; [vm_compute; reflexivity|]. repeat split; vm_compute; reflexivity.
Qed.

Lemma created_order_totals_are_binary64_witness :
  let run := CreateOrder.handler Scenario.event Scenario.world in
  ∃ request o sub,
    parseAndValidateBody (body Scenario.event) = Some request
    ∧ orders run.2 !! derived_key request Scenario.world = Some o
    ∧ Order.subtotal o = Some sub
    ∧ Order.tax o = Some (PrimFloat.mul sub 0.08%float)
    ∧ Order.total o = Some (PrimFloat.add sub (PrimFloat.mul sub 0.08%float)).
Proof.
  intros run.
  destruct (created_order_totals_are_binary64 Scenario.world Scenario.event
              (mkResult 201
                 (CreateOrder.order_body
                    (derived_order Scenario.request "retry-key-0001" Scenario.world)
                    None))
              run.2)
    as [(request & o & items & sub & Hp & Ho & _ & Hi & _ & Hsub & Hs & Ht & Htot) _].
  - apply run_eq. vm_compute. reflexivity.
  - reflexivity.
  - exists request, o, sub.
    exact (conj Hp (conj Ho (conj Hs (conj Ht Htot)))).
Defined.

(** The claim as first stated fails: this order passes the validation,
    has no number of 2^53 or more, and is created with a 201; its lines
    are stored as sent, one at 140737488355328 and one at the binary64
    number next to 0.015, and its stored subtotal is 140737488355328,
    which is more than 0.01 away from the sum of its lines. *)
Lemma created_order_totals_miss_tolerance :
  let run := CreateOrder.handler cask_event Scenario.world in
  let key := derived_key cask_request Scenario.world in
  let lines :=
    [OrderItem.mk "CASK-001" "Cask" 1 140737488355328%float 140737488355328%float;
     OrderItem.mk "CORK-001" "Cork" 1 0.015%float 0.015%float] in
  parseAndValidateBody (body cask_event) = Some cask_request
  ∧ run.1 = Ok (mkResult 201 (shown_order cask_request Scenario.world None))
  ∧ ∃ o sum,
      orders run.2 !! key = Some o
      ∧ Order.items o = Some lines
      ∧ Order.subtotal o = Some 140737488355328%float
      ∧ Order.tax o = Some 11258999068426.24%float
      ∧ Order.total o = Some 151996487423754.25%float
      ∧ PrimFloat.ltb 151996487423754.25%float 9007199254740992%float = true
      ∧ exact_sum lines = Some sum
      ∧ within_a_cent 140737488355328%float sum = false.
Proof.
  split; [reflexivity|]. split; [vm_compute; reflexivity|].
  eexists _, _. split; [vm_compute; reflexivity|].
  repeat (split; [vm_compute; reflexivity|]). vm_compute. reflexivity.
Qed.

(* --------------------------------------------------------------------- *)
(** ** Conditional status transition                                      *)
(* --------------------------------------------------------------------- *)

(** C3. A status transition whose expected status is not the status of
    the stored record (or that finds no record) writes neither the
    primary record nor the by-ID projection, whatever else happens; and
    when the request reaches the table it returns [false], not an
    error. *)
Theorem stale_transition_is_refused w customerId orderTsId orderId newStatus expected :
  (orders w !! (customerId, orderTsId)) ≫= Order.status ≠ Some expected →
  let run := updateOrderStatus customerId orderTsId orderId newStatus (Some expected) w in
  orders run.2 = orders w
  ∧ orders_by_id run.2 = orders_by_id w
  ∧ (peek (outages w) = false → run.1 = Ok false).
Proof.
  intros Hstale run. subst run.
  unfold updateOrderStatus, bind, now, try_catch, DynamoDB.update_order_status,
    bind, aws_request.
  cbn. destruct (peek (outages w)); cbn; [done|].
  rewrite bool_decide_eq_false_2 by done. done.
Qed.

Lemma stale_transition_is_refused_witness :
  let w := (CreateOrder.handler Scenario.event Scenario.world).2 in
  let key := derived_key Scenario.request Scenario.world in
  let run :=
    updateOrderStatus key.1 key.2 ("ORD-" ++ peek (ulids Scenario.world))
      OrderStatus.CANCELLED (Some OrderStatus.CONFIRMED) w in
  orders run.2 = orders w
  ∧ orders_by_id run.2 = orders_by_id w
  ∧ (peek (outages w) = false → run.1 = Ok false).
Proof.
  intros w key.
  apply (stale_transition_is_refused w key.1 key.2
           ("ORD-" ++ peek (ulids Scenario.world))
           OrderStatus.CANCELLED OrderStatus.CONFIRMED).
  vm_compute. discriminate.
Defined.

(** A transition whose expectation holds writes both records. *)
Lemma fresh_transition_succeeds w customerId orderTsId orderId newStatus expected o :
  healthy w →
  orders w !! (customerId, orderTsId) = Some o →
  Order.status o = Some expected →
  ∃ w',
    updateOrderStatus customerId orderTsId orderId newStatus (Some expected) w
    = (Ok true, w')
    ∧ healthy w'
    ∧ orders w'
      = <[(customerId, orderTsId)
          := Order.set_status newStatus (iso (peek (clock w))) o]> (orders w)
    ∧ orders_by_id w'
      = <[orderId
          := OrderById.set_status newStatus (iso (peek (clock w)))
               (default (OrderById.blank orderId) (orders_by_id w !! orderId))]>
          (orders_by_id w)
    ∧ inventory w' = inventory w ∧ queue w' = queue w ∧ invoked w' = invoked w.
Proof.
  intros H Ho Hs. eexists. split.
  - unfold updateOrderStatus, bind, now, try_catch, DynamoDB.update_order_status, bind.
    request_ok. rewrite Ho. cbn. unfold DynamoDB.status_condition. cbn.
    rewrite Hs, bool_decide_eq_true_2 by done.
    unfold DynamoDB.update_order_by_id_status, bind.
    request_ok. reflexivity.
  - cbn. repeat split; eauto.
Qed.

Lemma stale_transition_run w customerId orderTsId orderId newStatus expected :
  healthy w →
  (orders w !! (customerId, orderTsId)) ≫= Order.status ≠ Some expected →
  ∃ w',
    updateOrderStatus customerId orderTsId orderId newStatus (Some expected) w
    = (Ok false, w')
    ∧ healthy w'
    ∧ same_storage w w'.
Proof.
  intros H Hstale. eexists. split.
  - unfold updateOrderStatus, bind, now, try_catch, DynamoDB.update_order_status, bind.
    request_ok. unfold DynamoDB.status_condition.
    rewrite bool_decide_eq_false_2 by done. reflexivity.
  - cbn. unfold same_storage. repeat split; eauto.
Qed.

(* --------------------------------------------------------------------- *)
(** ** Cancellation                                                       *)
(* --------------------------------------------------------------------- *)

Lemma cancellable_spec status :
  CancelOrder.cancellable status = true
  ↔ status = Some OrderStatus.PENDING ∨ status = Some OrderStatus.CONFIRMED.
Proof.
  destruct status as [[]|]; cbn; split; intros Hc;
    try discriminate; try (destruct Hc; discriminate); auto.
Qed.

Lemma handler_cancel event orderId w :
  pathParameters event ≫= (fun p => p !! "order_id") = Some orderId →
  orderId ≠ "" →
  CancelOrder.handler event w
  = try_catch
      (let* order := getOrderById orderId in
       match order with
       | None =>
           ret (mkResult 404
                  (CancelOrder.ErrorBody "Order not found" (Some orderId) None None))
       | Some order => CancelOrder.cancel orderId order
       end)
      (fun _ => ret (mkResult 500
                       (CancelOrder.ErrorBody "Internal server error" None None None)))
      w.
Proof.
  intros Hp Hne. unfold CancelOrder.handler. rewrite Hp.
  apply String.eqb_neq in Hne. by rewrite Hne.
Qed.


Lemma cancel_refused w event orderId order :
  healthy w →
  pathParameters event ≫= (fun p => p !! "order_id") = Some orderId →
  orderId ≠ "" →
  orders_by_id w !! orderId = Some order →
  CancelOrder.cancellable (OrderById.status order) = false →
  ∃ w',
    CancelOrder.handler event w
    = (Ok (CancelOrder.not_cancellable_response orderId order), w')
    ∧ same_storage w w'.
Proof.
  intros H Hp Hne Hsome Hc. rewrite (handler_cancel _ _ _ Hp Hne).
  eexists. split.
  - unfold try_catch, bind, getOrderById, DynamoDB.get_order_by_id, bind.
    request_ok. rewrite Hsome. unfold CancelOrder.cancel. rewrite Hc. reflexivity.
  - by unfold same_storage.
Qed.


Lemma cancel_done w event orderId order s customerId :
  healthy w →
  pathParameters event ≫= (fun p => p !! "order_id") = Some orderId →
  orderId ≠ "" →
  orders_by_id w !! orderId = Some order →
  OrderById.status order = Some s →
  CancelOrder.cancellable (Some s) = true →
  OrderById.customer_id order = Some customerId →
  primary_of w order ≫= Order.status = Some s →
  ∃ w',
    CancelOrder.handler event w
    = (Ok (mkResult 200
             (CancelOrder.CancelledBody orderId OrderStatus.CANCELLED
                "Order cancelled successfully")), w')
    ∧ primary_of w' order ≫= Order.status = Some OrderStatus.CANCELLED
    ∧ orders_by_id w' !! orderId ≫= OrderById.status = Some OrderStatus.CANCELLED
    ∧ inventory w' = inventory w ∧ queue w' = queue w ∧ invoked w' = invoked w.
Proof.
  intros H Hp Hne Hsome Hs Hc Hcid Hsync. rewrite (handler_cancel _ _ _ Hp Hne).
  unfold primary_of in *. rewrite Hcid in *. cbn in Hsync.
  destruct (orders w !! _) as [o|] eqn:Ho; [|done]. cbn in Hsync.
  unfold try_catch, bind, getOrderById, DynamoDB.get_order_by_id, bind.
  request_ok. rewrite Hsome. unfold CancelOrder.cancel. rewrite Hs, Hc, Hcid. cbn.
  unfold bind.
  match goal with |- context [updateOrderStatus ?c ?t ?oid ?n (Some ?e) ?w1] =>
    destruct (fresh_transition_succeeds w1 c t oid n e o)
      as (w' & E & _ & Ho' & Hb' & Hrest)
  end.
  { healthy_tac. } { exact Ho. } { exact Hsync. }
  rewrite E. cbn. eexists. split; [reflexivity|].
  cbn. rewrite Ho', Hb'. cbn. rewrite !lookup_insert_eq. done.
Qed.




(* --------------------------------------------------------------------- *)
(** ** All-or-nothing reservation                                         *)
(* --------------------------------------------------------------------- *)

Lemma only_requests_refl w : only_requests w w.
Proof. exists (cursor (outages w)). by destruct w as [? ? ? ? ? [? ?] ? ? ? ?]. Qed.

Lemma check_run event item w :
  let run := ReserveInventory.check event item w in
  only_requests w run.2
  ∧ (∀ c, run.1 = Ok c → c = checked w event item)
  ∧ (peek (outages w) = false → run.1 = Ok (checked w event item)).
Proof.
  unfold ReserveInventory.check, ReserveInventory.get_inventory, bind, aws_request.
  cbn. destruct (peek (outages w)); cbn.
  - split; [by eexists|]. split; [by intros c [=]|done].
  - split; [by eexists|]. split; [by intros c [= <-]|done].
Qed.

Lemma only_requests_trans w1 w2 w3 :
  only_requests w1 w2 → only_requests w2 w3 → only_requests w1 w3.
Proof. intros [n ->] [m ->]. by exists m. Qed.

Lemma checked_only_requests w w' event item :
  only_requests w w' → checked w' event item = checked w event item.
Proof. by intros [n ->]. Qed.

Lemma only_requests_healthy w w' : only_requests w w' → healthy w → healthy w'.
Proof. intros [n ->] H m. apply H. Qed.

Lemma checks_run event items w :
  let run := promise_all (ReserveInventory.check event) items w in
  only_requests w run.2
  ∧ (∀ cs, run.1 = Ok cs → cs = map (checked w event) items)
  ∧ (healthy w → run.1 = Ok (map (checked w event) items)).
Proof.
  revert w. induction items as [|item items IH]; intros w; cbn.
  { split; [apply only_requests_refl|]. split; [by intros cs [= <-]|done]. }
  destruct (check_run event item w) as (Hw1 & Hc & Hok).
  destruct (ReserveInventory.check event item w) as [[c|e] w1] eqn:E1; cbn in *.
  - destruct (IH w1) as (Hw2 & Hcs & Hoks).
    destruct (promise_all (ReserveInventory.check event) items w1) as [[cs|e] w2] eqn:E2;
      cbn in *.
    + split; [by eapply only_requests_trans|]. split.
      * intros ? [= <-]. rewrite (Hc c), (Hcs cs) by done. f_equal.
        apply map_ext. intros. by apply checked_only_requests.
      * intros H. rewrite (Hc c), (Hcs cs) by done. do 2 f_equal.
        apply map_ext. intros. by apply checked_only_requests.
    + split; [by eapply only_requests_trans|]. split; [by intros ? [=]|].
      intros H. apply (only_requests_healthy _ _ Hw1) in H as H1.
      specialize (Hoks H1). done.
  - split.
    + eapply only_requests_trans; [done|]. apply (IH w1).
    + split; [by intros ? [=]|]. intros H. specialize (Hok (H _)). done.
Qed.

Lemma filter_map_comm {A B} (f : B → bool) (g : A → B) (l : list A) :
  List.filter f (map g l) = map g (List.filter (fun x => f (g x)) l).
Proof.
  induction l as [|x l IH]; [done|]. cbn. destruct (f (g x)); cbn; by rewrite IH.
Qed.

Lemma report_insufficient w event :
  map ReserveInventory.report
    (ReserveInventory.insufficient (map (checked w event) (ReserveInventory.items event)))
  = shortfalls w event.
Proof.
  unfold ReserveInventory.insufficient, shortfalls.
  rewrite filter_map_comm, map_map. cbn.
  f_equal. apply filter_ext. intros item. unfold short.
  by rewrite Z.geb_leb, Z.ltb_antisym.
Qed.

Lemma shortfalls_nonempty w event item :
  item ∈ ReserveInventory.items event →
  short w event item = true →
  Nat.ltb 0 (length (ReserveInventory.insufficient
                       (map (checked w event) (ReserveInventory.items event)))) = true.
Proof.
  intros Hin Hshort. apply Nat.ltb_lt.
  rewrite <- (length_map ReserveInventory.report), report_insufficient.
  unfold shortfalls. rewrite length_map.
  assert (Hf : In item (List.filter (short w event) (ReserveInventory.items event))).
  { apply filter_In. split; [by apply list_elem_of_In|done]. }
  destruct (List.filter _ _); [done|cbn; lia].
Qed.

Lemma reserve_rejects w event item :
  item ∈ ReserveInventory.items event →
  short w event item = true →
  let run := ReserveInventory.handler event w in
  same_storage w run.2
  ∧ (∃ resp, run.1 = Ok resp
             ∧ ReserveInventory.success resp = false
             ∧ ReserveInventory.reservation_id resp = None)
  ∧ (healthy w →
     run.1 = Ok (ReserveInventory.mkResponse false None (Some (shortfalls w event))
                   (Some "Insufficient inventory"))).
Proof.
  intros Hin Hshort.
  unfold ReserveInventory.handler, generateReservationId, calculateTTL, bind, ulid,
    now, Date_now, ret, try_catch.
  cbn -[Nat.ltb].
  set (w0 := with_clock _ _).
  destruct (checks_run event (ReserveInventory.items event) w0) as ([n Hw] & Hcs & Hok).
  assert (Hch : ∀ i, checked w0 event i = checked w event i) by done.
  destruct (promise_all (ReserveInventory.check event) (ReserveInventory.items event) w0)
    as [[cs|e] w1] eqn:E; cbn -[Nat.ltb] in *.
  - rewrite (Hcs cs eq_refl).
    rewrite (map_ext _ _ Hch).
    rewrite (shortfalls_nonempty w event item Hin Hshort). cbn.
    rewrite report_insufficient. subst w1.
    split; [by unfold same_storage|]. split; [eauto|done].
  - subst w1. split.
    + destruct e; by unfold same_storage.
    + split; [destruct e; cbn; eauto|].
      intros H. assert (H0 : healthy w0) by (intros m; apply H).
      specialize (Hok H0). done.
Qed.

(** C2. When some requested item is short (its available quantity is
    below the requested one), the reservation is rejected as a whole: the
    response has [success = false] and no reservation id, and the ledger
    is left as it was, so no item's reserved quantity has changed; when
    the reads go through, the response lists exactly the short items,
    each with its requested and its available quantity. *)
Theorem short_item_rejects_reservation w event item :
  item ∈ ReserveInventory.items event →
  available w event item < OrderItem.quantity item →
  let run := ReserveInventory.handler event w in
  inventory run.2 = inventory w
  ∧ (∃ resp, run.1 = Ok resp
             ∧ ReserveInventory.success resp = false
             ∧ ReserveInventory.reservation_id resp = None)
  ∧ (healthy w →
     run.1 = Ok (ReserveInventory.mkResponse false None (Some (shortfalls w event))
                   (Some "Insufficient inventory")))
  ∧ (∀ i, i ∈ ReserveInventory.items event →
          available w event i < OrderItem.quantity i →
          ReserveInventory.FailedItem.mk (OrderItem.sku i) (OrderItem.quantity i)
            (available w event i) ∈ shortfalls w event)
  ∧ (∀ f, f ∈ shortfalls w event →
          ReserveInventory.FailedItem.available f < ReserveInventory.FailedItem.requested f).
Proof.
  intros Hin Hlt run.
  assert (Hshort : short w event item = true) by by apply Z.ltb_lt.
  destruct (reserve_rejects w event item Hin Hshort) as ((_ & _ & Hinv & _) & Hr & Hh).
  split; [exact Hinv|]. split; [exact Hr|]. split; [exact Hh|]. split.
  - intros i Hi Hlti. unfold shortfalls.
    apply (list_elem_of_fmap_2
             (fun item => ReserveInventory.FailedItem.mk (OrderItem.sku item)
                            (OrderItem.quantity item) (available w event item))).
    apply list_elem_of_In, filter_In. split; [by apply list_elem_of_In|].
    by apply Z.ltb_lt.
  - intros f Hf. unfold shortfalls in Hf.
    apply list_elem_of_fmap in Hf as (i & -> & Hi).
    apply list_elem_of_In, filter_In in Hi as [_ Hi]. cbn. by apply Z.ltb_lt.
Qed.

Lemma short_item_rejects_reservation_witness :
  let run := ReserveInventory.handler Scenario.reservation Scenario.stocked_world in
  inventory run.2 = inventory Scenario.stocked_world
  ∧ run.1 = Ok (ReserveInventory.mkResponse false None
                  (Some [ReserveInventory.FailedItem.mk "WINE-001" 10 2])
                  (Some "Insufficient inventory")).
Proof.
  intros run.
  destruct (short_item_rejects_reservation Scenario.stocked_world
              Scenario.reservation Scenario.ten_wine)
    as (Hinv & _ & Hh & _).
  - apply list_elem_of_In. left. reflexivity.
  - vm_compute. reflexivity.
  - split; [exact Hinv|]. apply Hh. intros n. reflexivity.
Defined.

(** C9. An item whose store and SKU have no inventory record counts as
    having 0 available: asked for in a positive quantity, it makes the
    whole reservation fail with a response, not an error; no record is
    created; and when the reads go through the item is reported as
    insufficient with available 0. *)
Theorem unknown_sku_rejects_reservation w event item :
  item ∈ ReserveInventory.items event →
  inventory w !! ReserveInventory.storeSku event item = None →
  0 < OrderItem.quantity item →
  let run := ReserveInventory.handler event w in
  available w event item = 0
  ∧ inventory run.2 = inventory w
  ∧ inventory run.2 !! ReserveInventory.storeSku event item = None
  ∧ (∃ resp, run.1 = Ok resp ∧ ReserveInventory.success resp = false)
  ∧ (healthy w →
     ∃ failed,
       run.1 = Ok (ReserveInventory.mkResponse false None (Some failed)
                     (Some "Insufficient inventory"))
       ∧ ReserveInventory.FailedItem.mk (OrderItem.sku item)
           (OrderItem.quantity item) 0 ∈ failed).
Proof.
  intros Hin Hnone Hpos run.
  assert (Hav : available w event item = 0).
  { unfold available. by rewrite Hnone. }
  assert (Hshort : short w event item = true).
  { unfold short. rewrite Hav. by apply Z.ltb_lt. }
  destruct (reserve_rejects w event item Hin Hshort)
    as ((_ & _ & Hinv & _) & (resp & Hr & Hs & _) & Hh).
  split; [exact Hav|]. split; [exact Hinv|]. split.
  { fold run in Hinv. by rewrite Hinv. }
  split; [eauto|].
  intros H. exists (shortfalls w event). split; [by apply Hh|].
  rewrite <- Hav. unfold shortfalls.
  apply (list_elem_of_fmap_2
           (fun item => ReserveInventory.FailedItem.mk (OrderItem.sku item)
                          (OrderItem.quantity item) (available w event item))).
  apply list_elem_of_In, filter_In. split; [by apply list_elem_of_In|done].
Qed.

Lemma unknown_sku_rejects_reservation_witness :
  let run := ReserveInventory.handler Scenario.reservation Scenario.world in
  inventory run.2 !! "STORE-001#WINE-001" = None
  ∧ ∃ failed,
      run.1 = Ok (ReserveInventory.mkResponse false None (Some failed)
                    (Some "Insufficient inventory"))
      ∧ ReserveInventory.FailedItem.mk "WINE-001" 10 0 ∈ failed.
Proof.
  intros run.
  destruct (unknown_sku_rejects_reservation Scenario.world Scenario.reservation
              Scenario.ten_wine)
    as (_ & _ & Hnone & _ & Hh).
  - apply list_elem_of_In. left. reflexivity.
  - reflexivity.
  - reflexivity.
  - split; [exact Hnone|]. apply Hh. intros n. reflexivity.
Defined.

(* --------------------------------------------------------------------- *)
(** ** Change events of a MODIFY record                                   *)
(* --------------------------------------------------------------------- *)

(** C5. A MODIFY record with both images always yields its list of
    events.  When only [payment_state] differs between the images, the
    list is exactly one PaymentStateChanged event.  When [status] and
    [payment_state] both differ, it is an OrderStatusChanged event, then
    the status-specific event of the new status (one event if that status
    is CONFIRMED, CANCELLED or SHIPPED, none otherwise), then a
    PaymentStateChanged event. *)
Theorem modify_record_events bus w eventID newImage oldImage :
  let run := StreamProcessor.transformToDomainEvents bus
               (modify_record eventID newImage oldImage) w in
  let timestamp := iso (peek (clock w)) in
  ∃ events,
    run.1 = Ok events
    ∧ same_storage w run.2
    ∧ (Order.status newImage = Order.status oldImage →
       Order.payment_state newImage ≠ Order.payment_state oldImage →
       events
       = [StreamProcessor.entry bus "Payment State Changed" timestamp
            (StreamProcessor.PAYMENT_STATE_CHANGED (Order.order_id newImage)
               (Order.customer_id newImage) (Order.payment_state oldImage)
               (Order.payment_state newImage) (Order.total newImage) timestamp)])
    ∧ (Order.status newImage ≠ Order.status oldImage →
       Order.payment_state newImage ≠ Order.payment_state oldImage →
       event_types events
       = (["ORDER_STATUS_CHANGED"]
          ++ specific_event_type (Order.status newImage)
          ++ ["PAYMENT_STATE_CHANGED"])%list
       ∧ length (specific_event_type (Order.status newImage))
         = (if bool_decide (Order.status newImage = Some OrderStatus.CONFIRMED
                            ∨ Order.status newImage = Some OrderStatus.CANCELLED
                            ∨ Order.status newImage = Some OrderStatus.SHIPPED)
            then 1 else 0)%nat).
Proof.
  intros run timestamp. subst run.
  unfold StreamProcessor.transformToDomainEvents, bind, now, ret. cbn.
  eexists. split; [reflexivity|]. split; [by unfold same_storage|].
  unfold StreamProcessor.modify_events. split.
  - intros Hs Hp. rewrite bool_decide_eq_true_2, bool_decide_eq_false_2 by done. done.
  - intros Hs Hp. rewrite !bool_decide_eq_false_2 by done. cbn. split.
    + unfold StreamProcessor.status_events.
      destruct (Order.status newImage) as [[]|]; reflexivity.
    + destruct (Order.status newImage) as [[]|]; cbn;
        first [ rewrite bool_decide_eq_true_2 by auto; reflexivity
              | rewrite bool_decide_eq_false_2; [reflexivity|];
                intros [|[|]]; discriminate ].
Qed.

Lemma modify_record_events_witness :
  let paid :=
    Order.mk "CUST-001" "2024-03-01T12:00:00.000Z#ORD-1" (Some "ORD-1")
      (Some "2024-03-01T12:00:00.000Z") None None
      (Some OrderStatus.CONFIRMED) (Some PaymentState.CAPTURED)
      None None None None None None None None None in
  let unpaid :=
    Order.mk "CUST-001" "2024-03-01T12:00:00.000Z#ORD-1" (Some "ORD-1")
      (Some "2024-03-01T12:00:00.000Z") None None
      (Some OrderStatus.PENDING) (Some PaymentState.PENDING)
      None None None None None None None None None in
  ∃ events,
    (StreamProcessor.transformToDomainEvents "orders-bus"
       (modify_record (Some "e-1") paid unpaid) Scenario.world).1 = Ok events
    ∧ event_types events
      = ["ORDER_STATUS_CHANGED"; "ORDER_CONFIRMED"; "PAYMENT_STATE_CHANGED"].
Proof.
  intros paid unpaid.
  destruct (modify_record_events "orders-bus" Scenario.world (Some "e-1") paid unpaid)
    as (events & Hrun & _ & _ & Hboth).
  exists events. split; [exact Hrun|].
  apply Hboth; discriminate.
Defined.

(* --------------------------------------------------------------------- *)
(** ** Duplicate work items                                               *)
(* --------------------------------------------------------------------- *)

(** C6. A work item whose order, once re-fetched, is not PENDING adds
    nothing to the batch's failures and changes nothing: no table is
    written, no function is invoked (neither reservation nor payment),
    nothing is queued; the batch goes on with the remaining records. *)
Theorem processed_order_is_skipped w record message order :
  ProcessOrder.body record = Some message →
  peek (outages w) = false →
  orders_by_id w !! OrderProcessingMessage.order_id message = Some order →
  OrderById.status order ≠ Some OrderStatus.PENDING →
  let run := ProcessOrder.process_record record w in
  run.1 = Ok []
  ∧ same_storage w run.2
  ∧ lambda_replies run.2 = lambda_replies w
  ∧ (∀ rest, ProcessOrder.handler (record :: rest) w = ProcessOrder.handler rest run.2).
Proof.
  intros Hbody Hup Hl Hs run.
  assert (E : ProcessOrder.process_record record w
              = (Ok [], with_outages (advance (outages w)) w)).
  { unfold ProcessOrder.process_record, try_catch. rewrite Hbody.
    unfold bind, getOrderById, DynamoDB.get_order_by_id, bind.
    rewrite aws_request_up by done. cbn. rewrite Hl.
    by rewrite bool_decide_eq_false_2. }
  subst run. rewrite E. cbn.
  split; [done|]. split; [by unfold same_storage|]. split; [done|].
  intros rest. unfold bind. rewrite E.
  destruct (ProcessOrder.handler rest _) as [[more|e] w2]; reflexivity.
Qed.


Lemma processed_order_is_skipped_witness :
  let run := ProcessOrder.process_record Scenario.shipped_work_item
               Scenario.shipped_world in
  run.1 = Ok [] ∧ invoked run.2 = [] ∧ orders_by_id run.2 = orders_by_id Scenario.shipped_world.
Proof.
  intros run.
  destruct (processed_order_is_skipped Scenario.shipped_world
              Scenario.shipped_work_item
              (OrderProcessingMessage.mk "ORD-9" "CUST-001"
                 "2024-02-27T09:30:00.000Z#ORD-9"
                 OrderProcessingMessage.PROCESS_ORDER None "2024-02-27T09:30:00.000Z")
              Scenario.shipped_order)
    as (Hr & (_ & Hb & _ & _ & Hi) & _).
  - reflexivity.
  - reflexivity.
  - reflexivity.
  - discriminate.
  - split; [exact Hr|]. split; [exact Hi|exact Hb].
Defined.

(* --------------------------------------------------------------------- *)
(** ** What the payment handler writes                                    *)
(* --------------------------------------------------------------------- *)

(** [set_payment_state] changes [payment_state] and [updated_at] only. *)
Lemma set_payment_state_frame state now_ b :
  same_but_payment b (OrderById.set_payment_state state now_ b).
Proof. unfold same_but_payment. cbn. repeat split. Qed.

Lemma same_but_payment_refl b : same_but_payment b b.
Proof. unfold same_but_payment. repeat split. Qed.

(** C10. The payment handler never writes the orders table (nor the
    ledger, the queue or a function): whatever it does, the primary
    records are as before.  Of the by-ID table it writes at most the item
    of its order, and of that item only [payment_state] (set to CAPTURED
    or to FAILED) and [updated_at].  So when its update reaches the
    table, a primary record whose [payment_state] is PENDING keeps that
    value and differs from the projection's. *)
Theorem payment_touches_projection_only w event :
  let run := ProcessPayment.handler event w in
  let orderId := ProcessPayment.order_id event in
  let was := default (OrderById.blank orderId) (orders_by_id w !! orderId) in
  orders run.2 = orders w
  ∧ inventory run.2 = inventory w ∧ queue run.2 = queue w ∧ invoked run.2 = invoked w
  ∧ (∀ other, other ≠ orderId →
              orders_by_id run.2 !! other = orders_by_id w !! other)
  ∧ (∀ b', orders_by_id run.2 !! orderId = Some b' → same_but_payment was b')
  ∧ (orders_by_id run.2 = orders_by_id w
     ∨ ∃ state,
         (state = PaymentState.CAPTURED ∨ state = PaymentState.FAILED)
         ∧ orders_by_id run.2
           = <[orderId := OrderById.set_payment_state state (iso (peek (clock w))) was]>
               (orders_by_id w))
  ∧ (peek (outages w) = false →
     ∃ state,
       (state = PaymentState.CAPTURED ∨ state = PaymentState.FAILED)
       ∧ orders_by_id run.2 !! orderId
         = Some (OrderById.set_payment_state state (iso (peek (clock w))) was)
       ∧ ∀ key o,
           orders w !! key = Some o →
           Order.payment_state o = Some PaymentState.PENDING →
           orders run.2 !! key = Some o
           ∧ Order.payment_state o
             ≠ (orders_by_id run.2 !! orderId) ≫= OrderById.payment_state).
Proof.
  intros run orderId was.
  assert (Hcases :
    orders run.2 = orders w
    ∧ inventory run.2 = inventory w ∧ queue run.2 = queue w
    ∧ invoked run.2 = invoked w
    ∧ ((peek (outages w) = true ∧ orders_by_id run.2 = orders_by_id w)
       ∨ (peek (outages w) = false
          ∧ ∃ state,
              (state = PaymentState.CAPTURED ∨ state = PaymentState.FAILED)
              ∧ orders_by_id run.2
                = <[orderId := OrderById.set_payment_state state
                                 (iso (peek (clock w))) was]> (orders_by_id w)))).
  { subst run.
    unfold ProcessPayment.handler, bind, now, try_catch, ProcessPayment.simulatePayment,
      bind, Math_random, Date_now, DynamoDB.update_order_by_id_payment, bind,
      aws_request.
    cbn.
    destruct (ProcessPayment.invalid_amount _); cbn;
      [|destruct (PrimFloat.ltb _ _); cbn];
      destruct (peek (outages w)) eqn:Hup; cbn;
      (split; [done|]); (split; [done|]); (split; [done|]); (split; [done|]);
      first [ by left | right; split; [done|]; eexists; split; [|reflexivity]; auto ]. }
  clearbody run.
  destruct Hcases as (Ho & Hi & Hq & Hv & Hb).
  split; [done|]. split; [done|]. split; [done|]. split; [done|].
  split; [|split; [|split]].
  - intros other Hne. destruct Hb as [[_ ->]|(_ & state & _ & ->)]; [done|].
    by rewrite lookup_insert_ne.
  - intros b' Hb'. destruct Hb as [[_ Hsame]|(_ & state & _ & Hset)].
    + rewrite Hsame in Hb'. subst was. rewrite Hb'. apply same_but_payment_refl.
    + rewrite Hset, lookup_insert_eq in Hb'. injection Hb' as <-.
      apply set_payment_state_frame.
  - destruct Hb as [[_ ->]|(_ & state & Hst & ->)]; [by left|]. right. eauto.
  - intros Hup. destruct Hb as [[Hdown _]|(_ & state & Hst & Hset)]; [congruence|].
    exists state. split; [done|]. rewrite Hset, lookup_insert_eq. split; [done|].
    intros key o Hko Hp. rewrite Ho. split; [done|]. rewrite Hp. cbn.
    destruct Hst as [-> | ->]; discriminate.
Qed.

Lemma payment_touches_projection_only_witness :
  let w := (CreateOrder.handler Scenario.event Scenario.world).2 in
  let orderId := "ORD-" ++ peek (ulids Scenario.world) in
  let run := ProcessPayment.handler
               (ProcessPayment.mkRequest orderId "CUST-001" (Some 105.84%float)) w in
  orders run.2 = orders w
  ∧ (orders_by_id run.2 !! orderId) ≫= OrderById.payment_state
    = Some PaymentState.CAPTURED
  ∧ (orders run.2 !! derived_key Scenario.request Scenario.world) ≫= Order.payment_state
    = Some PaymentState.PENDING.
Proof.
  intros w orderId run.
  destruct (payment_touches_projection_only w
              (ProcessPayment.mkRequest orderId "CUST-001" (Some 105.84%float)))
    as (Ho & _).
  split; [exact Ho|]. split; vm_compute; reflexivity.
Defined.
(* ===================================================================== *)
(** * Further properties of the code                                      *)
(* ===================================================================== *)

(* --------------------------------------------------------------------- *)
(** ** The order repository                                               *)
(* --------------------------------------------------------------------- *)

(** X1. Two guarded transitions that expect the same status, one after the
    other, under healthy services: the first one returns true; the second
    one is refused, whatever it asks for, exactly when the first one
    changed the status, and both tables then end with the first one's
    status; when the first one wrote the expected status again, the
    second one returns true as well and both tables end with the second
    one's status. *)
Theorem transition_race_has_one_winner
    w customerId orderTsId orderId expected first second o :
  healthy w →
  orders w !! (customerId, orderTsId) = Some o →
  Order.status o = Some expected →
  let run1 := updateOrderStatus customerId orderTsId orderId first (Some expected) w in
  let run2 :=
    updateOrderStatus customerId orderTsId orderId second (Some expected) run1.2 in
  let last := if bool_decide (first = expected) then second else first in
  run1.1 = Ok true
  ∧ run2.1 = Ok (bool_decide (first = expected))
  ∧ (orders run2.2 !! (customerId, orderTsId)) ≫= Order.status = Some last
  ∧ (orders_by_id run2.2 !! orderId) ≫= OrderById.status = Some last.
Proof.
  intros H Ho Hs run1 run2 last.
  destruct (fresh_transition_succeeds w customerId orderTsId orderId first expected o
              H Ho Hs) as (w1 & E1 & H1 & Ho1 & Hb1 & _).
  subst last run2 run1. rewrite E1. cbn [snd fst].
  case_bool_decide as Hfirst.
  - destruct (fresh_transition_succeeds w1 customerId orderTsId orderId second expected
                (Order.set_status first (iso (peek (clock w))) o) H1)
      as (w2 & E2 & _ & Ho2 & Hb2 & _).
    { by rewrite Ho1, lookup_insert_eq. }
    { cbn. congruence. }
    rewrite E2. cbn [snd fst]. rewrite Ho2, Hb2, !lookup_insert_eq. done.
  - destruct (stale_transition_run w1 customerId orderTsId orderId second expected H1)
      as (w2 & E2 & _ & (Ho2 & Hb2 & _)).
    { rewrite Ho1, lookup_insert_eq. cbn. congruence. }
    rewrite E2. cbn [snd fst]. rewrite Ho2, Hb2, Ho1, Hb1, !lookup_insert_eq. done.
Qed.

Lemma transition_race_has_one_winner_witness :
  let w := (CreateOrder.handler Scenario.event Scenario.world).2 in
  let key := derived_key Scenario.request Scenario.world in
  let orderId := "ORD-" ++ peek (ulids Scenario.world) in
  let run1 :=
    updateOrderStatus key.1 key.2 orderId OrderStatus.CONFIRMED
      (Some OrderStatus.PENDING) w in
  let run2 :=
    updateOrderStatus key.1 key.2 orderId OrderStatus.CANCELLED
      (Some OrderStatus.PENDING) run1.2 in
  run1.1 = Ok true
  ∧ run2.1 = Ok false
  ∧ (orders run2.2 !! key) ≫= Order.status = Some OrderStatus.CONFIRMED
  ∧ (orders_by_id run2.2 !! orderId) ≫= OrderById.status = Some OrderStatus.CONFIRMED.
Proof.
  intros w key orderId.
  apply (transition_race_has_one_winner w key.1 key.2 orderId OrderStatus.PENDING
           OrderStatus.CONFIRMED OrderStatus.CANCELLED
           (derived_order Scenario.request "retry-key-0001" Scenario.world)).
  - intros n. vm_compute. reflexivity.
  - vm_compute. reflexivity.
  - reflexivity.
Defined.

(** X2. A transition without an expected status is not guarded: it writes
    both tables whatever the stored status is, and for an order that has
    no record it creates one in each table that holds nothing but the
    key, the status and the update time. *)
Theorem unguarded_transition_creates_records w customerId orderTsId orderId newStatus :
  healthy w →
  let run := updateOrderStatus customerId orderTsId orderId newStatus None w in
  let at_ := iso (peek (clock w)) in
  run.1 = Ok true
  ∧ orders run.2 !! (customerId, orderTsId)
    = Some (Order.set_status newStatus at_
              (default (Order.blank customerId orderTsId)
                 (orders w !! (customerId, orderTsId))))
  ∧ orders_by_id run.2 !! orderId
    = Some (OrderById.set_status newStatus at_
              (default (OrderById.blank orderId) (orders_by_id w !! orderId)))
  ∧ (orders w !! (customerId, orderTsId) = None →
     orders run.2 !! (customerId, orderTsId)
     = Some (Order.mk customerId orderTsId None None None None (Some newStatus)
               None None None None None None None None (Some at_) None))
  ∧ (orders_by_id w !! orderId = None →
     orders_by_id run.2 !! orderId
     = Some (OrderById.mk orderId None None (Some newStatus) None None None None
               None None None None None (Some at_))).
Proof.
  intros H run at_. subst run.
  unfold updateOrderStatus, bind, now, try_catch, DynamoDB.update_order_status, bind.
  request_ok. unfold DynamoDB.update_order_by_id_status, bind. request_ok.
  rewrite !lookup_insert_eq. split; [done|]. split; [done|]. split; [done|].
  split; intros ->; reflexivity.
Qed.

Lemma unguarded_transition_creates_records_witness :
  let run :=
    updateOrderStatus "CUST-404" "2024-03-01T12:00:00.000Z#ORD-404" "ORD-404"
      OrderStatus.SHIPPED None Scenario.world in
  run.1 = Ok true
  ∧ (orders run.2 !! ("CUST-404", "2024-03-01T12:00:00.000Z#ORD-404"))
      ≫= Order.items = None
  ∧ (orders_by_id run.2 !! "ORD-404") ≫= OrderById.status = Some OrderStatus.SHIPPED.
Proof.
  intros run.
  destruct (unguarded_transition_creates_records Scenario.world
              "CUST-404" "2024-03-01T12:00:00.000Z#ORD-404" "ORD-404"
              OrderStatus.SHIPPED)
    as (Hr & _ & _ & Ho & Hb).
  - intros n. reflexivity.
  - split; [exact Hr|]. fold run in Ho, Hb.
    rewrite Ho, Hb by reflexivity. split; reflexivity.
Defined.

(** X3. The two writes of a transition are not atomic: when the update of
    the primary record goes through and the update of the by-ID item
    meets an outage, the call throws (it does not return [false]), the
    primary record has the new status and the by-ID item keeps the old
    one. *)
Theorem transition_can_split_the_tables
    w customerId orderTsId orderId newStatus expected o :
  peek (outages w) = false →
  feed (outages w) (S (cursor (outages w))) = true →
  orders w !! (customerId, orderTsId) = Some o →
  Order.status o = Some expected →
  let run :=
    updateOrderStatus customerId orderTsId orderId newStatus (Some expected) w in
  run.1 = Throw ServiceUnavailable
  ∧ (orders run.2 !! (customerId, orderTsId)) ≫= Order.status = Some newStatus
  ∧ orders_by_id run.2 = orders_by_id w.
Proof.
  intros Hup Hdown Ho Hs run. subst run.
  unfold updateOrderStatus, bind, now, try_catch, DynamoDB.update_order_status, bind.
  rewrite aws_request_up by done. cbn. rewrite Ho. cbn.
  unfold DynamoDB.status_condition. cbn. rewrite Hs, bool_decide_eq_true_2 by done.
  unfold DynamoDB.update_order_by_id_status, bind.
  rewrite aws_request_down by done. cbn. rewrite lookup_insert_eq. done.
Qed.

Lemma transition_can_split_the_tables_witness :
  let w :=
    with_outages (mkOracle (fun n => Nat.eqb n 1) 0)
      (CreateOrder.handler Scenario.event Scenario.world).2 in
  let key := derived_key Scenario.request Scenario.world in
  let orderId := "ORD-" ++ peek (ulids Scenario.world) in
  let run :=
    updateOrderStatus key.1 key.2 orderId OrderStatus.CONFIRMED
      (Some OrderStatus.PENDING) w in
  run.1 = Throw ServiceUnavailable
  ∧ (orders run.2 !! key) ≫= Order.status = Some OrderStatus.CONFIRMED
  ∧ orders_by_id run.2 = orders_by_id w.
Proof.
  intros w key orderId.
  apply (transition_can_split_the_tables w key.1 key.2 orderId OrderStatus.CONFIRMED
           OrderStatus.PENDING
           (derived_order Scenario.request "retry-key-0001" Scenario.world)).
  - reflexivity.
  - reflexivity.
  - vm_compute. reflexivity.
  - reflexivity.
Defined.

Lemma getOrderByCustomer_run customerId orderTsId w :
  healthy w →
  ∃ w',
    getOrderByCustomer customerId orderTsId w
    = (Ok (orders w !! (customerId, orderTsId)), w')
    ∧ healthy w' ∧ same_storage w w'.
Proof.
  intros H. eexists. split.
  - unfold getOrderByCustomer, DynamoDB.get_order, bind. request_ok. reflexivity.
  - cbn. split; [healthy_tac|by unfold same_storage].
Qed.

Lemma getOrderById_run orderId w :
  healthy w →
  ∃ w',
    getOrderById orderId w = (Ok (orders_by_id w !! orderId), w')
    ∧ healthy w' ∧ same_storage w w'.
Proof.
  intros H. eexists. split.
  - unfold getOrderById, DynamoDB.get_order_by_id, bind. request_ok. reflexivity.
  - cbn. split; [healthy_tac|by unfold same_storage].
Qed.

(** X4. What [createOrder] has stored can be read back: the order itself by
    its customer key, and by its id the by-ID item, which shows the same
    value for each attribute the two tables share. *)
Theorem created_order_reads_back order oid w :
  healthy w →
  Order.order_id order = Some oid →
  orders w !! (Order.customer_id order, Order.order_ts_id order) = None →
  let w1 := (createOrder order w).2 in
  (getOrderByCustomer (Order.customer_id order) (Order.order_ts_id order) w1).1
  = Ok (Some order)
  ∧ ∃ item,
      (getOrderById oid w1).1 = Ok (Some item)
      ∧ OrderById.order_id item = oid
      ∧ OrderById.customer_id item = Some (Order.customer_id order)
      ∧ OrderById.order_ts item = Order.order_ts order
      ∧ OrderById.status item = Order.status order
      ∧ OrderById.payment_state item = Order.payment_state order
      ∧ OrderById.store_id item = Order.store_id order
      ∧ OrderById.county_id item = Order.county_id order
      ∧ OrderById.items item = Order.items order
      ∧ OrderById.subtotal item = Order.subtotal order
      ∧ OrderById.tax item = Order.tax order
      ∧ OrderById.total item = Order.total order
      ∧ OrderById.shipping_address item = Order.shipping_address order
      ∧ OrderById.created_at item = Order.created_at order
      ∧ OrderById.updated_at item = Order.updated_at order.
Proof.
  intros H Hid Hfresh w1. subst w1.
  destruct (createOrder_fresh order oid w H Hid Hfresh) as (w1 & -> & H1 & Ho & Hb & _).
  cbn [snd].
  destruct (getOrderByCustomer_run (Order.customer_id order) (Order.order_ts_id order)
              w1 H1) as (w2 & -> & _).
  destruct (getOrderById_run oid w1 H1) as (w3 & -> & _).
  cbn [fst]. rewrite Ho, Hb, !lookup_insert_eq. split; [done|].
  eexists. split; [reflexivity|]. cbn. repeat split.
Qed.

Lemma created_order_reads_back_witness :
  let order := derived_order Scenario.request "retry-key-0001" Scenario.world in
  let w1 := (createOrder order Scenario.world).2 in
  (getOrderByCustomer (Order.customer_id order) (Order.order_ts_id order) w1).1
  = Ok (Some order).
Proof.
  intros order w1.
  apply (created_order_reads_back order ("ORD-" ++ peek (ulids Scenario.world))
           Scenario.world).
  - intros n. reflexivity.
  - reflexivity.
  - reflexivity.
Defined.

(* --------------------------------------------------------------------- *)
(** ** POST /orders                                                       *)
(* --------------------------------------------------------------------- *)

Lemma create_never_400 request k w :
  ∃ r,
    (try_catch (CreateOrder.create request k)
       (fun _ => ret (mkResult 500 (CreateOrder.ErrorBody "Internal server error")))
       w).1 = Ok r
    ∧ statusCode r ≠ 400.
Proof.
  unfold try_catch, CreateOrder.create, generateOrderId, bind, ulid, ret, now. cbn.
  unfold createOrder, try_catch, bind, DynamoDB.put_order_if_absent, bind, aws_request.
  cbn.
  destruct (peek (outages w)); cbn; [eauto|].
  destruct (orders w !! _) eqn:Hl; cbn.
  { unfold getOrderByCustomer, DynamoDB.get_order, bind, aws_request. cbn.
    destruct (feed _ _); cbn; [eauto|]. rewrite Hl. cbn. eauto. }
  unfold put_projection. cbn. unfold DynamoDB.put_order_by_id, bind, aws_request. cbn.
  destruct (feed _ _); cbn; [eauto|].
  unfold sendOrderMessage, bind, aws_request. cbn.
  destruct (feed _ _); cbn; eauto.
Qed.

(** X5. The create handler answers 400 exactly for a request without a
    usable idempotency header or without a valid body, and then it has
    touched nothing: no id drawn, no clock read, no request sent.  An
    empty [X-Idempotency-Key] header is not usable even when the
    lower-case header is there. *)
Theorem create_rejects_before_any_effect ev w :
  let run := CreateOrder.handler ev w in
  let unusable :=
    CreateOrder.idempotency_header ev = None
    ∨ CreateOrder.idempotency_header ev = Some ""
    ∨ parseAndValidateBody (body ev) = None in
  (∃ r, run.1 = Ok r)
  ∧ (unusable ↔ ∃ b, run.1 = Ok (mkResult 400 b))
  ∧ (unusable → run.2 = w)
  ∧ (headers ev !! "X-Idempotency-Key" = Some "" → unusable).
Proof.
  intros run unusable. subst run unusable.
  assert (Hlow : headers ev !! "X-Idempotency-Key" = Some ""
                 → CreateOrder.idempotency_header ev = Some "").
  { unfold CreateOrder.idempotency_header. by intros ->. }
  destruct (CreateOrder.idempotency_header ev) as [k|] eqn:Hh.
  2:{ unfold CreateOrder.handler, try_catch. rewrite Hh. cbn.
      split; [eauto|]. split; [split; eauto|]. split; [done|]. intros ?%Hlow. done. }
  destruct (String.eqb_spec k "") as [->|Hk].
  { unfold CreateOrder.handler, try_catch. rewrite Hh. cbn.
    split; [eauto|]. split; [split; eauto|]. split; [done|]. auto. }
  destruct (parseAndValidateBody (body ev)) as [request|] eqn:Hp.
  2:{ unfold CreateOrder.handler, try_catch. rewrite Hh, Hp.
      apply String.eqb_neq in Hk. rewrite Hk. cbn.
      split; [eauto|]. split; [split; eauto|]. split; [done|]. auto. }
  rewrite (handler_create ev k request w Hh Hk Hp).
  destruct (create_never_400 request k w) as (r & Hr & Hne).
  assert (Hno : ¬ (Some k = None ∨ Some k = Some "" ∨ Some request = None)).
  { intros [|[|]]; congruence. }
  split; [eauto|]. split; [|split].
  - split; [done|]. intros [b Hb]. rewrite Hr in Hb. injection Hb as ->. done.
  - done.
  - intros ?%Hlow. congruence.
Qed.

Lemma create_rejects_before_any_effect_witness :
  let ev :=
    mkEvent {["X-Idempotency-Key" := ""; "x-idempotency-key" := "retry-key-0001"]}
      None (Json Scenario.request) in
  CreateOrder.handler ev Scenario.world
  = (Ok CreateOrder.missing_key_response, Scenario.world).
Proof.
  intros ev.
  destruct (create_rejects_before_any_effect ev Scenario.world)
    as (_ & _ & Hw & Hlow).
  pose proof (Hw (Hlow eq_refl)) as Hsame.
  rewrite (run_eq (CreateOrder.handler ev) Scenario.world
             (Ok CreateOrder.missing_key_response)) by (vm_compute; reflexivity).
  rewrite Hsame. reflexivity.
Defined.

(** X6. What each answer of the create handler means for what is stored.
    200: nothing changed, and the order shown was already stored under the
    derived key.  201: the derived key was free; the order, its by-ID
    item and one work message have been added.  500: no work message was
    sent; either nothing was stored, or the order was stored under a key
    that was free, with or without its by-ID item.  There is no other
    status than 200, 201, 400 and 500. *)
Theorem create_status_tells_storage ev w r :
  (CreateOrder.handler ev w).1 = Ok r →
  let w' := (CreateOrder.handler ev w).2 in
  let added request k :=
    CreateOrder.idempotency_header ev = Some k
    ∧ parseAndValidateBody (body ev) = Some request
    ∧ orders w !! derived_key request w = None
    ∧ orders w' = <[derived_key request w := derived_order request k w]> (orders w) in
  let projected request k :=
    orders_by_id w'
    = <["ORD-" ++ peek (ulids w)
        := projection ("ORD-" ++ peek (ulids w)) (derived_order request k w)]>
        (orders_by_id w) in
  (statusCode r = 200 ∨ statusCode r = 201 ∨ statusCode r = 400 ∨ statusCode r = 500)
  ∧ (statusCode r = 200 →
     same_storage w w'
     ∧ ∃ request existing,
         parseAndValidateBody (body ev) = Some request
         ∧ orders w !! derived_key request w = Some existing
         ∧ response r
           = CreateOrder.order_body existing (Some "Order already exists (idempotent)"))
  ∧ (statusCode r = 201 →
     ∃ request k,
       added request k ∧ projected request k
       ∧ queue w'
         = (queue w ++ [CreateOrder.work_message request ("ORD-" ++ peek (ulids w))
                          (iso (peek (clock w)))])%list
       ∧ response r = CreateOrder.order_body (derived_order request k w) None)
  ∧ (statusCode r = 500 →
     queue w' = queue w
     ∧ ((orders w' = orders w ∧ orders_by_id w' = orders_by_id w)
        ∨ ∃ request k,
            added request k
            ∧ (orders_by_id w' = orders_by_id w ∨ projected request k))).
Proof.
  intros Hrun w' added projected. subst w' added projected. revert Hrun.
  unfold CreateOrder.handler, try_catch.
  destruct (CreateOrder.idempotency_header ev) as [k|] eqn:Hh; cbn;
    [|intros [= <-]; cbn; repeat split; auto; discriminate].
  destruct (String.eqb k ""); cbn;
    [intros [= <-]; cbn; repeat split; auto; discriminate|].
  destruct (parseAndValidateBody (body ev)) as [request|] eqn:Hp; cbn;
    [|intros [= <-]; cbn; repeat split; auto; discriminate].
  unfold CreateOrder.create, generateOrderId, bind, ulid, ret, now. cbn.
  unfold createOrder, try_catch, bind, DynamoDB.put_order_if_absent, bind, aws_request.
  cbn.
  destruct (peek (outages w)); cbn.
  { intros [= <-]; cbn. repeat split; auto; discriminate. }
  destruct (orders w !! _) as [existing|] eqn:Hl; cbn.
  { unfold getOrderByCustomer, DynamoDB.get_order, bind, aws_request. cbn.
    destruct (feed _ _); cbn.
    { intros [= <-]; cbn. repeat split; auto; discriminate. }
    rewrite Hl. cbn. intros [= <-]; cbn.
    split; [auto|]. split; [|split; [discriminate|discriminate]].
    intros _. split; [by unfold same_storage|]. exists request, existing. done. }
  unfold put_projection. cbn. unfold DynamoDB.put_order_by_id, bind, aws_request. cbn.
  destruct (feed _ _); cbn.
  { intros [= <-]; cbn. split; [auto|]. split; [discriminate|]. split; [discriminate|].
    intros _. split; [done|]. right. exists request, k. auto. }
  unfold sendOrderMessage, bind, aws_request. cbn.
  destruct (feed _ _); cbn.
  { intros [= <-]; cbn. split; [auto|]. split; [discriminate|]. split; [discriminate|].
    intros _. split; [done|]. right. exists request, k. auto. }
  intros [= <-]; cbn. split; [auto|]. split; [discriminate|]. split; [|discriminate].
  intros _. exists request, k. done.
Qed.

Lemma create_status_tells_storage_witness :
  let w' := (CreateOrder.handler Scenario.event Scenario.world).2 in
  ∃ request k,
    orders w' = <[derived_key request Scenario.world
                  := derived_order request k Scenario.world]> ∅
    ∧ length (queue w') = 1%nat.
Proof.
  intros w'.
  destruct (create_status_tells_storage Scenario.event Scenario.world
              (mkResult 201
                 (CreateOrder.order_body
                    (derived_order Scenario.request "retry-key-0001" Scenario.world)
                    None)))
    as (_ & _ & H201 & _).
  - vm_compute. reflexivity.
  - destruct (H201 eq_refl) as (request & k & (_ & _ & _ & Ho) & _ & Hq & _).
    exists request, k. fold w' in Ho, Hq. split; [exact Ho|].
    rewrite Hq. reflexivity.
Defined.

(** X7. When the order and its by-ID item are stored and the work queue then
    refuses the message, the handler answers 500 although the order
    stays stored, and nothing is queued: no worker will pick the order
    up. *)
Theorem queue_failure_leaves_order_unprocessed w ev k req :
  CreateOrder.idempotency_header ev = Some k → k ≠ "" →
  parseAndValidateBody (body ev) = Some req →
  peek (outages w) = false →
  feed (outages w) (S (cursor (outages w))) = false →
  feed (outages w) (S (S (cursor (outages w)))) = true →
  orders w !! derived_key req w = None →
  let run := CreateOrder.handler ev w in
  run.1 = Ok (mkResult 500 (CreateOrder.ErrorBody "Internal server error"))
  ∧ orders run.2 !! derived_key req w = Some (derived_order req k w)
  ∧ (orders_by_id run.2 !! ("ORD-" ++ peek (ulids w))) ≫= OrderById.status
    = Some OrderStatus.PENDING
  ∧ queue run.2 = queue w.
Proof.
  intros Hh Hk Hp H0 H1 H2 Hfresh run. subst run.
  rewrite (handler_create _ _ _ _ Hh Hk Hp).
  unfold try_catch, CreateOrder.create, generateOrderId, bind, ulid, ret, now. cbn.
  unfold createOrder, try_catch, bind, DynamoDB.put_order_if_absent, bind.
  rewrite aws_request_up by done. cbn.
  unfold derived_key in Hfresh. cbn in Hfresh. rewrite Hfresh.
  unfold put_projection. cbn. unfold DynamoDB.put_order_by_id, bind.
  rewrite aws_request_up by done. cbn.
  unfold sendOrderMessage, bind. rewrite aws_request_down by done. cbn.
  rewrite !lookup_insert_eq. done.
Qed.

Lemma queue_failure_leaves_order_unprocessed_witness :
  let w := with_outages (mkOracle (fun n => Nat.eqb n 2) 0) Scenario.world in
  let run := CreateOrder.handler Scenario.event w in
  run.1 = Ok (mkResult 500 (CreateOrder.ErrorBody "Internal server error"))
  ∧ orders run.2 !! derived_key Scenario.request w
    = Some (derived_order Scenario.request "retry-key-0001" w)
  ∧ (orders_by_id run.2 !! ("ORD-" ++ peek (ulids w))) ≫= OrderById.status
    = Some OrderStatus.PENDING
  ∧ queue run.2 = queue w.
Proof.
  intros w.
  apply (queue_failure_leaves_order_unprocessed w Scenario.event "retry-key-0001"
           Scenario.request);
    first [ discriminate | reflexivity ].
Defined.

(* --------------------------------------------------------------------- *)
(** ** What the handlers keep, whatever the services answer               *)
(* --------------------------------------------------------------------- *)

Section Keeps.
Context (R : World → World → Prop) `{!Reflexive R, !Transitive R}.

Lemma keeps_ret {A} (a : A) : keeps R (ret a).
Proof. intros w. reflexivity. Qed.

Lemma keeps_throw {A} (e : Error) : keeps R (@throw A e).
Proof. intros w. reflexivity. Qed.

Lemma keeps_bind {A B} (m : M A) (k : A → M B) :
  keeps R m → (∀ a, keeps R (k a)) → keeps R (bind m k).
Proof.
  intros Hm Hk w. unfold bind. specialize (Hm w).
  destruct (m w) as [[a|e] w1]; cbn in *; [|done].
  etrans; [exact Hm|]. apply Hk.
Qed.

Lemma keeps_try_catch {A} (m : M A) (h : Error → M A) :
  keeps R m → (∀ e, keeps R (h e)) → keeps R (try_catch m h).
Proof.
  intros Hm Hh w. unfold try_catch. specialize (Hm w).
  destruct (m w) as [[a|e] w1]; cbn in *; [done|].
  etrans; [exact Hm|]. apply Hh.
Qed.

Lemma keeps_promise_all {A B} (f : A → M B) (xs : list A) :
  (∀ x, keeps R (f x)) → keeps R (promise_all f xs).
Proof.
  intros Hf. induction xs as [|x xs IH]; intros w; cbn; [reflexivity|].
  specialize (Hf x w). destruct (f x w) as [[b|e] w1]; cbn in *.
  - specialize (IH w1). destruct (promise_all f xs w1) as [[bs|e] w2]; cbn in *;
      by etrans.
  - etrans; [exact Hf|]. apply IH.
Qed.
End Keeps.

Lemma keeps_weaken {A} (R1 R2 : World → World → Prop) (m : M A) :
  (∀ w w', R1 w w' → R2 w w') → keeps R1 m → keeps R2 m.
Proof. intros HR Hm w. apply HR, Hm. Qed.

#[local] Instance tables_kept_refl : Reflexive tables_kept.
Proof. by intros w. Qed.

#[local] Instance tables_kept_trans : Transitive tables_kept.
Proof. intros a b c (? & ? & ?) (? & ? & ?). repeat split; congruence. Qed.

Lemma same_but_status_refl o : same_but_status o o.
Proof. unfold same_but_status. repeat split. Qed.

Lemma same_but_status_trans o1 o2 o3 :
  same_but_status o1 o2 → same_but_status o2 o3 → same_but_status o1 o3.
Proof. unfold same_but_status. intros H1 H2. destruct_and!. repeat split; congruence. Qed.

Lemma same_but_state_refl b : same_but_state b b.
Proof. unfold same_but_state. repeat split. Qed.

Lemma same_but_state_trans b1 b2 b3 :
  same_but_state b1 b2 → same_but_state b2 b3 → same_but_state b1 b3.
Proof. unfold same_but_state. intros H1 H2. destruct_and!. repeat split; congruence. Qed.

#[local] Instance records_kept_refl : Reflexive records_kept.
Proof.
  intros w. split.
  - intros key. destruct (orders w !! key) eqn:E; [|done].
    eauto using same_but_status_refl.
  - intros id. destruct (orders_by_id w !! id) eqn:E; [|done].
    eauto using same_but_state_refl.
Qed.

#[local] Instance records_kept_trans : Transitive records_kept.
Proof.
  intros a b c [Ho1 Hb1] [Ho2 Hb2]. split.
  - intros key. specialize (Ho1 key). specialize (Ho2 key).
    destruct (orders a !! key) as [o|].
    + destruct Ho1 as (o' & E & Hs). rewrite E in Ho2.
      destruct Ho2 as (o'' & E' & Hs'). eauto using same_but_status_trans.
    + by rewrite Ho1 in Ho2.
  - intros id. specialize (Hb1 id). specialize (Hb2 id).
    destruct (orders_by_id a !! id) as [x|].
    + destruct Hb1 as (x' & E & Hs). rewrite E in Hb2.
      destruct Hb2 as (x'' & E' & Hs'). eauto using same_but_state_trans.
    + by rewrite Hb1 in Hb2.
Qed.

#[local] Instance ledger_kept_refl : Reflexive ledger_kept.
Proof. by intros w. Qed.

#[local] Instance ledger_kept_trans : Transitive ledger_kept.
Proof. unfold ledger_kept. intros a b c. congruence. Qed.

Lemma tables_kept_records w w' : tables_kept w w' → records_kept w w'.
Proof.
  intros (Ho & Hb & _). split.
  - intros key. rewrite Ho. destruct (orders w !! key); [|done].
    eauto using same_but_status_refl.
  - intros id. rewrite Hb. destruct (orders_by_id w !! id); [|done].
    eauto using same_but_state_refl.
Qed.

Lemma tables_kept_ledger w w' : tables_kept w w' → ledger_kept w w'.
Proof. by intros (_ & _ & ?). Qed.

(** The operations that write no table. *)
Lemma aws_request_tables : keeps tables_kept aws_request.
Proof. intros w. unfold aws_request. by destruct (peek (outages w)). Qed.

Lemma now_tables : keeps tables_kept now.
Proof. by intros w. Qed.

Lemma ulid_tables : keeps tables_kept ulid.
Proof. by intros w. Qed.

Lemma Math_random_tables : keeps tables_kept Math_random.
Proof. by intros w. Qed.

Lemma Date_now_tables : keeps tables_kept Date_now.
Proof. by intros w. Qed.

Lemma getOrderById_tables orderId : keeps tables_kept (getOrderById orderId).
Proof.
  intros w. unfold getOrderById, DynamoDB.get_order_by_id, bind, aws_request.
  by destruct (peek (outages w)).
Qed.

Lemma getOrderByCustomer_tables c t : keeps tables_kept (getOrderByCustomer c t).
Proof.
  intros w. unfold getOrderByCustomer, DynamoDB.get_order, bind, aws_request.
  by destruct (peek (outages w)).
Qed.

Lemma get_inventory_tables key : keeps tables_kept (ReserveInventory.get_inventory key).
Proof.
  intros w. unfold ReserveInventory.get_inventory, bind, aws_request.
  by destruct (peek (outages w)).
Qed.

Lemma sendOrderMessage_tables m : keeps tables_kept (sendOrderMessage m).
Proof.
  intros w. unfold sendOrderMessage, bind, aws_request.
  by destruct (peek (outages w)).
Qed.

Lemma send_invoke_tables fn p a : keeps tables_kept (ProcessOrder.send_invoke fn p a).
Proof.
  intros w. unfold ProcessOrder.send_invoke, bind, aws_request.
  destruct (peek (outages w)); [done|]. by destruct a.
Qed.

Create HintDb keeps.

#[local] Hint Resolve aws_request_tables now_tables ulid_tables Math_random_tables
  Date_now_tables getOrderById_tables getOrderByCustomer_tables get_inventory_tables
  sendOrderMessage_tables send_invoke_tables : keeps.

Ltac keeps_step :=
  lazymatch goal with
  | |- keeps _ (bind _ _) => apply keeps_bind; [try apply _ ..| |intros ?]
  | |- keeps _ (try_catch _ _) => apply keeps_try_catch; [try apply _ ..| |intros ?]
  | |- keeps _ (ret _) => apply keeps_ret; apply _
  | |- keeps _ (throw _) => apply keeps_throw; apply _
  | |- keeps _ (promise_all _ _) => apply keeps_promise_all; [try apply _ ..|intros ?]
  | |- keeps _ (match ?x with _ => _ end) => destruct x
  end.

Ltac keeps_tac := repeat keeps_step; eauto with keeps.

Lemma invokeFunction_tables fn p a : keeps tables_kept (ProcessOrder.invokeFunction fn p a).
Proof. unfold ProcessOrder.invokeFunction. keeps_tac. Qed.

(** The guarded update of the primary table. *)
Lemma update_order_status_records c t new now_ e :
  keeps records_kept (DynamoDB.update_order_status c t new now_ (Some e)).
Proof.
  intros w. unfold DynamoDB.update_order_status, bind, aws_request.
  destruct (peek (outages w)); [by apply tables_kept_records|]. cbn.
  case_bool_decide as Hc; cbn; [|by apply tables_kept_records].
  destruct (orders w !! (c, t)) as [o|] eqn:Ho; [|done]. cbn. split; cbn.
  - intros key. destruct (decide (key = (c, t))) as [->|Hne].
    + rewrite Ho, lookup_insert_eq. eexists. split; [done|].
      unfold same_but_status. by repeat split.
    + rewrite lookup_insert_ne by done.
      destruct (orders w !! key); eauto using same_but_status_refl.
  - intros id. destruct (orders_by_id w !! id); eauto using same_but_state_refl.
Qed.

Lemma update_order_status_settled c t new now_ e :
  e = OrderStatus.PENDING
  ∨ (e = OrderStatus.CONFIRMED ∧ new = OrderStatus.CANCELLED) →
  keeps settled_kept (DynamoDB.update_order_status c t new now_ (Some e)).
Proof.
  intros He w. unfold DynamoDB.update_order_status, bind, aws_request.
  assert (Hrefl : ∀ w0 n, settled_kept w0 (with_outages n w0)).
  { intros w0 n key o Ho. destruct (Order.status o) as [[]|]; auto. }
  destruct (peek (outages w)); [apply Hrefl|]. cbn.
  case_bool_decide as Hc; cbn; [|apply Hrefl].
  destruct (orders w !! (c, t)) as [o|] eqn:Ho; [|done]. cbn in Hc.
  intros key o' Ho'. cbn.
  destruct (decide (key = (c, t))) as [->|Hne].
  - assert (o' = o) as -> by congruence. rewrite Hc, lookup_insert_eq.
    destruct He as [->|[-> ->]]; [done|]. right. eauto.
  - rewrite lookup_insert_ne by done. destruct (Order.status o') as [[]|]; auto.
Qed.

(** The update of the by-ID table, on an item that exists. *)
Lemma update_order_by_id_status_records orderId new now_ :
  keeps_having orderId records_kept
    (DynamoDB.update_order_by_id_status orderId new now_).
Proof.
  intros w [b Hb]. unfold DynamoDB.update_order_by_id_status, bind, aws_request.
  destruct (peek (outages w)); [by apply tables_kept_records|]. cbn. split; cbn.
  - intros key. destruct (orders w !! key); eauto using same_but_status_refl.
  - intros id. destruct (decide (id = orderId)) as [->|Hne].
    + rewrite Hb, lookup_insert_eq. eexists. split; [done|].
      unfold same_but_state. by repeat split.
    + rewrite lookup_insert_ne by done.
      destruct (orders_by_id w !! id); eauto using same_but_state_refl.
Qed.

Lemma settled_kept_same_orders w w' : orders w' = orders w → settled_kept w w'.
Proof.
  intros Ho key o Hl. rewrite Ho. destruct (Order.status o) as [[]|]; auto.
Qed.

#[local] Instance settled_kept_refl : Reflexive settled_kept.
Proof. intros w. by apply settled_kept_same_orders. Qed.

#[local] Instance settled_kept_trans : Transitive settled_kept.
Proof.
  intros a b c H1 H2 key o Ho. specialize (H1 key o Ho).
  destruct (Order.status o) as [s|] eqn:Hs; [destruct s|]; try done;
    try (specialize (H2 key o H1); rewrite Hs in H2; exact H2).
  destruct H1 as [H1|(o' & H1 & Hs')].
  - specialize (H2 key o H1). by rewrite Hs in H2.
  - specialize (H2 key o' H1). rewrite Hs' in H2. right. eauto.
Qed.

Lemma tables_kept_settled w w' : tables_kept w w' → settled_kept w w'.
Proof. intros (Ho & _). by apply settled_kept_same_orders. Qed.

Lemma update_order_by_id_status_settled orderId new now_ :
  keeps settled_kept (DynamoDB.update_order_by_id_status orderId new now_).
Proof.
  intros w. apply settled_kept_same_orders.
  unfold DynamoDB.update_order_by_id_status, bind, aws_request.
  by destruct (peek (outages w)).
Qed.

Lemma update_order_status_ledger c t new now_ e :
  keeps ledger_kept (DynamoDB.update_order_status c t new now_ e).
Proof.
  intros w. unfold DynamoDB.update_order_status, bind, aws_request, ledger_kept.
  destruct (peek (outages w)); [done|]. cbn.
  by destruct (DynamoDB.status_condition _ _).
Qed.

Lemma update_order_by_id_status_ledger orderId new now_ :
  keeps ledger_kept (DynamoDB.update_order_by_id_status orderId new now_).
Proof.
  intros w. unfold DynamoDB.update_order_by_id_status, bind, aws_request, ledger_kept.
  by destruct (peek (outages w)).
Qed.

#[local] Instance silent_refl : Reflexive silent.
Proof. by intros w. Qed.

#[local] Instance silent_trans : Transitive silent.
Proof. intros a b c [? ?] [? ?]. split; congruence. Qed.

Lemma aws_request_silent : keeps silent aws_request.
Proof. intros w. unfold aws_request. by destruct (peek (outages w)). Qed.

Lemma now_silent : keeps silent now.
Proof. by intros w. Qed.

Lemma getOrderById_silent orderId : keeps silent (getOrderById orderId).
Proof.
  intros w. unfold getOrderById, DynamoDB.get_order_by_id, bind, aws_request.
  by destruct (peek (outages w)).
Qed.

Lemma update_order_status_silent c t new now_ e :
  keeps silent (DynamoDB.update_order_status c t new now_ e).
Proof.
  intros w. unfold DynamoDB.update_order_status, bind, aws_request.
  destruct (peek (outages w)); [done|]. cbn.
  by destruct (DynamoDB.status_condition _ _).
Qed.

Lemma update_order_by_id_status_silent orderId new now_ :
  keeps silent (DynamoDB.update_order_by_id_status orderId new now_).
Proof.
  intros w. unfold DynamoDB.update_order_by_id_status, bind, aws_request.
  by destruct (peek (outages w)).
Qed.

#[local] Hint Resolve update_order_status_records update_order_by_id_status_settled
  update_order_status_ledger update_order_by_id_status_ledger
  aws_request_silent now_silent getOrderById_silent update_order_status_silent
  update_order_by_id_status_silent : keeps.

#[local] Hint Extern 5 (keeps records_kept _) =>
  apply (keeps_weaken tables_kept records_kept _ tables_kept_records) : keeps.
#[local] Hint Extern 5 (keeps ledger_kept _) =>
  apply (keeps_weaken tables_kept ledger_kept _ tables_kept_ledger) : keeps.
#[local] Hint Extern 5 (keeps settled_kept _) =>
  apply (keeps_weaken tables_kept settled_kept _ tables_kept_settled) : keeps.

Lemma updateOrderStatus_settled c t orderId new e :
  e = OrderStatus.PENDING
  ∨ (e = OrderStatus.CONFIRMED ∧ new = OrderStatus.CANCELLED) →
  keeps settled_kept (updateOrderStatus c t orderId new (Some e)).
Proof.
  intros He. unfold updateOrderStatus. keeps_tac. by apply update_order_status_settled.
Qed.

Lemma updateOrderStatus_ledger c t orderId new e :
  keeps ledger_kept (updateOrderStatus c t orderId new e).
Proof. unfold updateOrderStatus. keeps_tac. Qed.

Lemma updateOrderStatus_silent c t orderId new e :
  keeps silent (updateOrderStatus c t orderId new e).
Proof. unfold updateOrderStatus. keeps_tac. Qed.

#[local] Hint Resolve updateOrderStatus_ledger updateOrderStatus_silent
  invokeFunction_tables : keeps.

(** From a world that has the by-ID item, a step that keeps the records
    leads to a world that has it. *)
Lemma records_kept_having id w w' :
  records_kept w w' → is_Some (orders_by_id w !! id) → is_Some (orders_by_id w' !! id).
Proof.
  intros [_ Hb] [b Hl]. specialize (Hb id). rewrite Hl in Hb.
  destruct Hb as (b' & -> & _). done.
Qed.

Lemma having_keeps {A} id (m : M A) :
  keeps records_kept m → keeps_having id records_kept m.
Proof. intros Hm w _. apply Hm. Qed.

Lemma having_bind {A B} id (m : M A) (k : A → M B) :
  keeps_having id records_kept m →
  (∀ a, keeps_having id records_kept (k a)) →
  keeps_having id records_kept (bind m k).
Proof.
  intros Hm Hk w Hid. unfold bind. specialize (Hm w Hid).
  destruct (m w) as [[a|e] w1]; cbn in *; [|done].
  etrans; [exact Hm|]. apply Hk. by apply (records_kept_having id w).
Qed.

Lemma having_try_catch {A} id (m : M A) (h : Error → M A) :
  keeps_having id records_kept m →
  (∀ e, keeps_having id records_kept (h e)) →
  keeps_having id records_kept (try_catch m h).
Proof.
  intros Hm Hh w Hid. unfold try_catch. specialize (Hm w Hid).
  destruct (m w) as [[a|e] w1]; cbn in *; [done|].
  etrans; [exact Hm|]. apply Hh. by apply (records_kept_having id w).
Qed.

(** What follows a read of the by-ID table runs, when the item was found,
    in a world that has it. *)
Lemma having_found {A} id (k : option OrderById.t → M A) :
  (∀ order, keeps_having id records_kept (k (Some order))) →
  keeps records_kept (k None) →
  keeps records_kept (bind (getOrderById id) k).
Proof.
  intros Hsome Hnone w.
  unfold bind at 1, getOrderById, DynamoDB.get_order_by_id, bind, aws_request.
  destruct (peek (outages w)); cbn; [by apply tables_kept_records|].
  destruct (orders_by_id w !! id) as [order|] eqn:Hl.
  - etrans; [|apply Hsome; cbn; by rewrite Hl]. by apply tables_kept_records.
  - etrans; [|apply Hnone]. by apply tables_kept_records.
Qed.

Ltac records_step :=
  lazymatch goal with
  | |- keeps records_kept (bind (getOrderById _) _) =>
      apply having_found; [intros ?; cbv beta iota|cbv beta iota]
  | |- keeps_having _ records_kept (DynamoDB.update_order_by_id_status _ _ _) =>
      apply update_order_by_id_status_records
  | |- keeps_having _ records_kept (bind _ _) => apply having_bind; [|intros ?]
  | |- keeps_having _ records_kept (try_catch _ _) =>
      apply having_try_catch; [|intros ?]
  | |- keeps_having _ records_kept (match ?x with _ => _ end) => destruct x
  | |- keeps_having _ records_kept (ret _) => apply having_keeps
  | |- keeps_having _ records_kept (throw _) => apply having_keeps
  | |- keeps _ _ => keeps_step
  end.

Ltac records_tac :=
  repeat records_step;
  first [ solve [eauto with keeps]
        | solve [apply having_keeps; keeps_tac]
        | idtac ].

Lemma updateOrderStatus_records c t orderId new e :
  keeps_having orderId records_kept (updateOrderStatus c t orderId new (Some e)).
Proof. unfold updateOrderStatus. records_tac. Qed.

Lemma cancel_records orderId order :
  keeps_having orderId records_kept (CancelOrder.cancel orderId order).
Proof.
  unfold CancelOrder.cancel.
  destruct (OrderById.status order) as [s|]; cbn; [|records_tac].
  case_bool_decide as Hs; cbn; [|records_tac].
  apply having_bind; [|intros ?; records_tac].
  destruct (OrderById.customer_id order); [|records_tac].
  apply updateOrderStatus_records.
Qed.

Lemma cancel_handler_records event : keeps records_kept (CancelOrder.handler event).
Proof.
  unfold CancelOrder.handler. records_tac. apply cancel_records.
Qed.

Ltac keeps_split := split; [|split].

Lemma cancel_keeps orderId order :
  keeps settled_kept (CancelOrder.cancel orderId order)
  ∧ keeps ledger_kept (CancelOrder.cancel orderId order)
  ∧ keeps silent (CancelOrder.cancel orderId order).
Proof.
  unfold CancelOrder.cancel.
  destruct (OrderById.status order) as [s|]; cbn;
    [|keeps_split; keeps_tac].
  case_bool_decide as Hs; cbn; [|keeps_split; keeps_tac].
  keeps_split; keeps_tac.
  apply updateOrderStatus_settled.
  unfold CancelOrder.CANCELLABLE_STATUSES in Hs. set_solver.
Qed.

Lemma cancel_handler_keeps (R : World → World → Prop) `{!Reflexive R, !Transitive R} event :
  keeps R aws_request →
  (∀ orderId order, keeps R (CancelOrder.cancel orderId order)) →
  keeps R (CancelOrder.handler event).
Proof.
  intros Hreq Hcancel. unfold CancelOrder.handler, getOrderById, DynamoDB.get_order_by_id.
  keeps_tac.
Qed.

(** X8. Whatever the request and whatever the services answer, the
    cancel handler adds and removes no record of either table and
    changes no attribute other than [status] and [updated_at]; a primary
    record that is
    neither PENDING nor CONFIRMED stays as it is; the ledger is
    unchanged, so that no reserved stock is released; and nothing is
    queued or invoked. *)
Theorem cancel_only_moves_status event w :
  let w' := (CancelOrder.handler event w).2 in
  records_kept w w' ∧ settled_kept w w' ∧ ledger_kept w w' ∧ silent w w'.
Proof.
  cbn. split; [|keeps_split].
  - apply cancel_handler_records.
  - apply (cancel_handler_keeps settled_kept); [eauto with keeps|apply cancel_keeps].
  - apply (cancel_handler_keeps ledger_kept); [eauto with keeps|apply cancel_keeps].
  - apply (cancel_handler_keeps silent); [eauto with keeps|apply cancel_keeps].
Qed.

Lemma failOrder_keeps (R : World → World → Prop) `{!Reflexive R, !Transitive R} message reason :
  (∀ A (m : M A), keeps tables_kept m → keeps R m) →
  (∀ c t orderId new,
     keeps R (updateOrderStatus c t orderId new (Some OrderStatus.PENDING))) →
  keeps R (ProcessOrder.failOrder message reason).
Proof.
  intros Hread Hupd. unfold ProcessOrder.failOrder.
  keeps_tac; apply Hread; eauto with keeps.
Qed.

Lemma workflow_keeps (R : World → World → Prop) `{!Reflexive R, !Transitive R} record message order :
  (∀ A (m : M A), keeps tables_kept m → keeps R m) →
  (∀ c t orderId new,
     keeps R (updateOrderStatus c t orderId new (Some OrderStatus.PENDING))) →
  keeps R (ProcessOrder.workflow record message order).
Proof.
  intros Hread Hupd. unfold ProcessOrder.workflow.
  keeps_tac;
    first [by apply failOrder_keeps | apply Hread; eauto with keeps].
Qed.

Lemma process_handler_keeps (R : World → World → Prop) `{!Reflexive R, !Transitive R} records :
  (∀ A (m : M A), keeps tables_kept m → keeps R m) →
  (∀ c t orderId new,
     keeps R (updateOrderStatus c t orderId new (Some OrderStatus.PENDING))) →
  keeps R (ProcessOrder.handler records).
Proof.
  intros Hread Hupd. induction records as [|record rest IH]; cbn [ProcessOrder.handler].
  - keeps_tac.
  - apply keeps_bind; [apply _ ..| |intros ?; keeps_tac].
    unfold ProcessOrder.process_record.
    keeps_tac; first [by apply workflow_keeps | apply Hread; eauto with keeps].
Qed.

Lemma failOrder_records message reason :
  keeps records_kept (ProcessOrder.failOrder message reason).
Proof.
  unfold ProcessOrder.failOrder.
  apply keeps_try_catch; [apply _ ..| |intros ?; keeps_tac].
  apply having_found; [intros order|keeps_tac].
  apply having_bind; [|intros ?; records_tac].
  apply having_bind; [|intros ?; records_tac].
  apply updateOrderStatus_records.
Qed.

Lemma workflow_records record message order :
  keeps_having (OrderProcessingMessage.order_id message) records_kept
    (ProcessOrder.workflow record message order).
Proof.
  unfold ProcessOrder.workflow.
  apply having_bind; [records_tac|intros inventoryResult].
  destruct (negb _).
  { apply having_keeps. keeps_tac. apply failOrder_records. }
  apply having_bind; [records_tac|intros paymentResult].
  destruct (negb _).
  { apply having_keeps. keeps_tac. apply failOrder_records. }
  apply having_bind; [apply updateOrderStatus_records|intros updated].
  records_tac.
Qed.

Lemma process_handler_records records : keeps records_kept (ProcessOrder.handler records).
Proof.
  induction records as [|record rest IH]; cbn [ProcessOrder.handler].
  - keeps_tac.
  - apply keeps_bind; [apply _ ..| |intros ?; keeps_tac].
    unfold ProcessOrder.process_record.
    apply keeps_try_catch; [apply _ ..| |intros ?; keeps_tac].
    destruct (ProcessOrder.body record) as [message|]; [|keeps_tac].
    apply having_found; [intros order|keeps_tac].
    destruct (negb _); [records_tac|apply workflow_records].
Qed.

#[local] Instance pending_only_refl : Reflexive pending_only.
Proof. by intros w key o Ho _. Qed.

#[local] Instance pending_only_trans : Transitive pending_only.
Proof. intros a b c H1 H2 key o Ho Hs. apply H2; [|done]. by apply H1. Qed.

Lemma tables_kept_pending_only w w' : tables_kept w w' → pending_only w w'.
Proof. intros (Ho & _) key o Hl _. by rewrite Ho. Qed.

Lemma updateOrderStatus_pending_only c t orderId new :
  keeps pending_only (updateOrderStatus c t orderId new (Some OrderStatus.PENDING)).
Proof.
  assert (Hsame : ∀ A (m : M A), keeps tables_kept m → keeps pending_only m).
  { intros A m. apply keeps_weaken, tables_kept_pending_only. }
  unfold updateOrderStatus. keeps_tac; try (apply Hsame; solve [eauto with keeps]).
  - intros w. unfold DynamoDB.update_order_status, bind, aws_request.
    destruct (peek (outages w)); [by apply tables_kept_pending_only|]. cbn.
    case_bool_decide as Hc; cbn; [|by apply tables_kept_pending_only].
    destruct (orders w !! (c, t)) as [o|] eqn:Ho; [|done]. cbn in Hc.
    intros key o' Ho' Hs. cbn.
    destruct (decide (key = (c, t))) as [->|Hne]; [congruence|].
    by rewrite lookup_insert_ne.
  - intros w key o Ho _.
    unfold DynamoDB.update_order_by_id_status, bind, aws_request.
    by destruct (peek (outages w)).
Qed.

(** X9. Whatever the batch and whatever the services and the invoked
    functions answer, the saga handler with its own writes adds and
    removes no record of either table and changes no attribute other
    than [status] and [updated_at]; it rewrites no primary record that
    has left PENDING, so that a cancelled, failed or confirmed order is
    never taken back; and it writes nothing to the ledger itself.  What
    the functions it invokes write is their own. *)
Theorem saga_only_moves_pending_orders records w :
  let w' := (ProcessOrder.handler records w).2 in
  records_kept w w' ∧ pending_only w w' ∧ ledger_kept w w'.
Proof.
  cbn. split; [|split].
  - apply process_handler_records.
  - apply (process_handler_keeps pending_only).
    + intros A m. apply keeps_weaken, tables_kept_pending_only.
    + apply updateOrderStatus_pending_only.
  - apply (process_handler_keeps ledger_kept).
    + intros A m. apply keeps_weaken, tables_kept_ledger.
    + eauto with keeps.
Qed.

(* --------------------------------------------------------------------- *)
(** ** No handler rejects                                                 *)
(* --------------------------------------------------------------------- *)

Lemma answers_ret {A} (a : A) : answers (ret a).
Proof. intros w. by exists a. Qed.

Lemma answers_bind {A B} (m : M A) (k : A → M B) :
  answers m → (∀ a, answers (k a)) → answers (bind m k).
Proof.
  intros Hm Hk w. unfold bind. destruct (Hm w) as [a Ha].
  destruct (m w) as [r w1]. cbn in Ha. subst r. apply Hk.
Qed.

Lemma answers_try_catch {A} (m : M A) (h : Error → M A) :
  (∀ e, answers (h e)) → answers (try_catch m h).
Proof.
  intros Hh w. unfold try_catch. destruct (m w) as [[a|e] w1]; [by exists a|].
  apply Hh.
Qed.

Lemma answers_now : answers now.
Proof. intros w. by eexists. Qed.

Lemma answers_ulid : answers ulid.
Proof. intros w. by eexists. Qed.

Lemma answers_Date_now : answers Date_now.
Proof. intros w. by eexists. Qed.

Lemma answers_invokeFunction fn p a : answers (ProcessOrder.invokeFunction fn p a).
Proof. apply answers_try_catch. intros e. apply answers_ret. Qed.

Lemma answers_failOrder message reason : answers (ProcessOrder.failOrder message reason).
Proof. apply answers_try_catch. intros e. apply answers_ret. Qed.

Lemma answers_process_record record : answers (ProcessOrder.process_record record).
Proof. apply answers_try_catch. intros e. apply answers_ret. Qed.

(** X10. No handler rejects, whatever its input and whatever the services
    answer: the three API handlers always produce a response, the
    reservation and payment functions always produce a result object,
    and the saga handler always produces its list of failed messages. *)
Theorem handlers_always_answer :
  (∀ event, answers (CreateOrder.handler event))
  ∧ (∀ event, answers (GetOrder.handler event))
  ∧ (∀ event, answers (CancelOrder.handler event))
  ∧ (∀ request, answers (ReserveInventory.handler request))
  ∧ (∀ request, answers (ProcessPayment.handler request))
  ∧ (∀ records, answers (ProcessOrder.handler records)).
Proof.
  repeat split.
  - intros event. apply answers_try_catch. intros e. apply answers_ret.
  - intros event. apply answers_try_catch. intros e. apply answers_ret.
  - intros event. apply answers_try_catch. intros e. apply answers_ret.
  - intros request. unfold ReserveInventory.handler, generateReservationId, calculateTTL.
    repeat (apply answers_bind; [|intros ?]);
      eauto using answers_ulid, answers_now, answers_Date_now, answers_ret.
    apply answers_try_catch. intros []; apply answers_ret.
  - intros request. unfold ProcessPayment.handler.
    apply answers_bind; [apply answers_now|intros ?].
    apply answers_try_catch. intros e. apply answers_ret.
  - intros records. induction records as [|record rest IH]; cbn [ProcessOrder.handler].
    + apply answers_ret.
    + apply answers_bind; [apply answers_process_record|intros ?].
      apply answers_bind; [apply IH|intros ?]. apply answers_ret.
Qed.

(* --------------------------------------------------------------------- *)
(** ** Reading an order                                                   *)
(* --------------------------------------------------------------------- *)

Lemma only_requests_advance w : only_requests w (with_outages (advance (outages w)) w).
Proof. by exists (S (cursor (outages w))). Qed.

(** X11. GET /orders/{order_id} reads and never writes: the world it
    leaves differs from the one it found at most in the number of
    requests sent.  It answers 400 exactly when the path has no order id
    or an empty one, and then sends no request; 500 exactly when its one
    request fails; 200 only with the stored item of that id, whose
    thirteen attributes it shows; and 404 only when no item has the
    id. *)
Theorem get_order_outcomes event w :
  let orderId := pathParameters event ≫= (fun p => p !! "order_id") in
  ∃ response,
    (GetOrder.handler event w).1 = Ok response
    ∧ only_requests w (GetOrder.handler event w).2
    ∧ (statusCode response = 400 ↔ orderId = None ∨ orderId = Some "")
    ∧ (statusCode response = 400 → (GetOrder.handler event w).2 = w)
    ∧ (statusCode response = 500 ↔
         ¬ (orderId = None ∨ orderId = Some "") ∧ peek (outages w) = true)
    ∧ (statusCode response = 200 ↔
         ∃ id order, orderId = Some id ∧ id ≠ "" ∧ peek (outages w) = false
                     ∧ orders_by_id w !! id = Some order)
    ∧ (∀ id order, orderId = Some id → orders_by_id w !! id = Some order →
         statusCode response = 200 → response = GetOrder.order_response order)
    ∧ (statusCode response = 404 ↔
         ∃ id, orderId = Some id ∧ id ≠ "" ∧ peek (outages w) = false
               ∧ orders_by_id w !! id = None).
Proof.
  cbn. unfold GetOrder.handler.
  destruct (pathParameters event ≫= (fun p => p !! "order_id")) as [id|] eqn:Hid; cbn.
  2:{ eexists. split; [reflexivity|]. split; [apply only_requests_refl|].
      cbn. repeat split; try naive_solver. }
  destruct (String.eqb id "") eqn:He.
  { apply String.eqb_eq in He. subst id. eexists. split; [reflexivity|].
    split; [apply only_requests_refl|]. cbn. repeat split; try naive_solver. }
  apply String.eqb_neq in He.
  unfold try_catch, bind, getOrderById, DynamoDB.get_order_by_id, bind, aws_request.
  destruct (peek (outages w)) eqn:Hout; cbn.
  { eexists. split; [reflexivity|]. split; [apply only_requests_advance|].
    cbn. repeat split; try naive_solver. }
  destruct (orders_by_id w !! id) as [order|] eqn:Hl; cbn.
  - eexists. split; [reflexivity|]. split; [apply only_requests_advance|].
    cbn. repeat split; try naive_solver.
  - eexists. split; [reflexivity|]. split; [apply only_requests_advance|].
    cbn. repeat split; try naive_solver.
Qed.

(* --------------------------------------------------------------------- *)
(** ** Requests in sequence                                               *)
(* --------------------------------------------------------------------- *)

(** X12. An order that POST /orders has just created is served by
    GET /orders/{order_id} under the id the creation returned, with the
    customer, the PENDING status and payment state, the lines and the
    totals the creation response showed. *)
Theorem created_order_is_served event idempotencyKey request get_event w :
  healthy w →
  CreateOrder.idempotency_header event = Some idempotencyKey →
  idempotencyKey ≠ "" →
  parseAndValidateBody (body event) = Some request →
  orders w !! derived_key request w = None →
  pathParameters get_event ≫= (fun p => p !! "order_id")
  = Some ("ORD-" ++ peek (ulids w)) →
  let order := derived_order request idempotencyKey w in
  let w1 := (CreateOrder.handler event w).2 in
  (CreateOrder.handler event w).1
  = Ok (mkResult 201
          (CreateOrder.OrderBody (Some ("ORD-" ++ peek (ulids w)))
             (CreateOrderRequest.customer_id request)
             (Some OrderStatus.PENDING) (Some PaymentState.PENDING)
             (Order.items order) (Order.subtotal order) (Order.tax order)
             (Order.total order) (Some (iso (peek (clock w)))) None))
  ∧ (GetOrder.handler get_event w1).1
    = Ok (mkResult 200
            (GetOrder.OrderBody ("ORD-" ++ peek (ulids w))
               (Some (CreateOrderRequest.customer_id request))
               (Some OrderStatus.PENDING) (Some PaymentState.PENDING)
               (Some (CreateOrderRequest.store_id request))
               (Some (CreateOrderRequest.county_id request))
               (Order.items order) (Order.subtotal order) (Order.tax order)
               (Order.total order)
               (Some (CreateOrderRequest.shipping_address request))
               (Some (iso (peek (clock w)))) (Some (iso (peek (clock w)))))).
Proof.
  intros H Hh Hk Hp Hfree Hget. cbn zeta.
  rewrite (handler_create _ _ _ _ Hh Hk Hp). unfold try_catch.
  destruct (create_first request idempotencyKey w H Hfree)
    as (w' & Hrun & H' & _ & Hby & _).
  rewrite Hrun. cbn [fst snd]. split; [done|].
  unfold GetOrder.handler. rewrite Hget.
  change (String.eqb ("ORD-" ++ peek (ulids w)) "") with false. cbv iota.
  unfold try_catch, bind, getOrderById, DynamoDB.get_order_by_id, bind.
  rewrite aws_request_healthy by done. cbn.
  rewrite Hby, lookup_insert_eq. done.
Qed.

Lemma created_order_is_served_witness :
  ∃ response,
    (GetOrder.handler (cancel_event "ORD-01HQXG5Z8K3V9T2M4N6P7R0S1W")
       (CreateOrder.handler Scenario.event Scenario.world).2).1
    = Ok response
    ∧ statusCode response = 200.
Proof.
  eexists. split.
  - refine (proj2 (created_order_is_served Scenario.event "retry-key-0001"
                     Scenario.request
                     (cancel_event "ORD-01HQXG5Z8K3V9T2M4N6P7R0S1W")
                     Scenario.world _ _ _ _ _ _)).
    + by intros n.
    + reflexivity.
    + done.
    + reflexivity.
    + reflexivity.
    + reflexivity.
  - reflexivity.
Defined.

Lemma cancel_done_state event w response orderId :
  healthy w →
  pathParameters event ≫= (fun p => p !! "order_id") = Some orderId →
  orderId ≠ "" →
  (CancelOrder.handler event w).1 = Ok response →
  statusCode response = 200 →
  healthy (CancelOrder.handler event w).2
  ∧ ∃ b, orders_by_id (CancelOrder.handler event w).2 !! orderId = Some b
         ∧ OrderById.status b = Some OrderStatus.CANCELLED.
Proof.
  intros H Hid Hne. rewrite (handler_cancel _ _ _ Hid Hne).
  unfold try_catch, bind, getOrderById, DynamoDB.get_order_by_id, bind.
  rewrite aws_request_healthy by done. cbn.
  destruct (orders_by_id w !! orderId) as [order|] eqn:Hl; cbn;
    [|intros; by simplify_eq].
  unfold CancelOrder.cancel.
  destruct (CancelOrder.cancellable (OrderById.status order)) eqn:Hc; cbn;
    [|intros; by simplify_eq].
  destruct (OrderById.customer_id order) as [customerId|]; cbn;
    [|intros; by simplify_eq].
  unfold updateOrderStatus, bind, now, try_catch,
    DynamoDB.update_order_status, DynamoDB.update_order_by_id_status, bind. cbn.
  request_ok.
  destruct (DynamoDB.status_condition _ _) eqn:Hcond; cbn;
    [|intros; by simplify_eq].
  request_ok. intros _ _. split; [healthy_tac|].
  rewrite lookup_insert_eq. eauto.
Qed.

(** X13. Cancelling twice.  Under healthy services, once a DELETE of an
    order has answered 200, every further DELETE of that order answers
    409 with the order's current status, CANCELLED, and writes
    nothing. *)
Theorem cancel_twice_is_refused event again w response :
  healthy w →
  (CancelOrder.handler event w).1 = Ok response →
  statusCode response = 200 →
  pathParameters again ≫= (fun p => p !! "order_id")
  = pathParameters event ≫= (fun p => p !! "order_id") →
  let w1 := (CancelOrder.handler event w).2 in
  ∃ orderId message,
    pathParameters event ≫= (fun p => p !! "order_id") = Some orderId
    ∧ (CancelOrder.handler again w1).1
      = Ok (mkResult 409
              (CancelOrder.ErrorBody "Order cannot be cancelled" (Some orderId)
                 (Some OrderStatus.CANCELLED) message))
    ∧ same_storage w1 (CancelOrder.handler again w1).2.
Proof.
  intros H Hrun Hcode Hpath. cbn zeta.
  destruct (pathParameters event ≫= (fun p => p !! "order_id")) as [orderId|] eqn:Hid.
  2:{ unfold CancelOrder.handler in Hrun. rewrite Hid in Hrun. cbn in Hrun.
      by simplify_eq. }
  destruct (decide (orderId = "")) as [->|Hne].
  { unfold CancelOrder.handler in Hrun. rewrite Hid in Hrun. cbn in Hrun.
    by simplify_eq. }
  destruct (cancel_done_state _ _ _ _ H Hid Hne Hrun Hcode) as (H1 & b & Hb & Hs).
  destruct (cancel_refused _ again orderId b H1 Hpath Hne Hb) as (w2 & Hrun2 & Hsame).
  { by rewrite Hs. }
  exists orderId. eexists. split; [done|]. rewrite Hrun2. cbn [fst snd].
  split; [|done]. unfold CancelOrder.not_cancellable_response. by rewrite Hs.
Qed.

Lemma cancel_twice_is_refused_witness :
  ∃ response,
    (CancelOrder.handler (cancel_event "ORD-01HQXG5Z8K3V9T2M4N6P7R0S1W")
       (CancelOrder.handler (cancel_event "ORD-01HQXG5Z8K3V9T2M4N6P7R0S1W")
          (CreateOrder.handler Scenario.event Scenario.world).2).2).1
    = Ok response
    ∧ statusCode response = 409.
Proof.
  destruct (cancel_twice_is_refused
              (cancel_event "ORD-01HQXG5Z8K3V9T2M4N6P7R0S1W")
              (cancel_event "ORD-01HQXG5Z8K3V9T2M4N6P7R0S1W")
              (CreateOrder.handler Scenario.event Scenario.world).2
              (mkResult 200
                 (CancelOrder.CancelledBody "ORD-01HQXG5Z8K3V9T2M4N6P7R0S1W"
                    OrderStatus.CANCELLED "Order cancelled successfully")))
    as (orderId & message & _ & Hrun & _).
  - intros n. reflexivity.
  - vm_compute. reflexivity.
  - reflexivity.
  - reflexivity.
  - eexists. split; [exact Hrun|reflexivity].
Defined.

Lemma cancel_stale w event orderId order s customerId :
  peek (outages w) = false →
  peek (advance (outages w)) = false →
  pathParameters event ≫= (fun p => p !! "order_id") = Some orderId →
  orderId ≠ "" →
  orders_by_id w !! orderId = Some order →
  OrderById.status order = Some s →
  CancelOrder.cancellable (Some s) = true →
  OrderById.customer_id order = Some customerId →
  primary_of w order ≫= Order.status ≠ Some s →
  (CancelOrder.handler event w).1
  = Ok (mkResult 409
          (CancelOrder.ErrorBody "Order status changed, please retry"
             (Some orderId) None None))
  ∧ same_storage w (CancelOrder.handler event w).2.
Proof.
  intros Hup1 Hup2 Hp Hne Hsome Hs Hc Hcid Hstale.
  rewrite (handler_cancel _ _ _ Hp Hne).
  unfold try_catch, bind, getOrderById, DynamoDB.get_order_by_id, bind.
  rewrite aws_request_up by done. cbn. rewrite Hsome. cbn.
  unfold CancelOrder.cancel. rewrite Hs, Hc, Hcid. cbn.
  unfold updateOrderStatus, bind, now, try_catch,
    DynamoDB.update_order_status, bind. cbn.
  rewrite aws_request_up by done. cbn.
  unfold primary_of in Hstale. rewrite Hcid in Hstale. cbn in Hstale.
  rewrite bool_decide_eq_false_2 by done. cbn. by unfold same_storage.
Qed.

(** X14. A cancellation that fails halfway cannot be retried.  When the
    read and the update of the primary record go through and the update
    of the by-ID item meets an outage, DELETE answers 500, the primary
    record is CANCELLED and the by-ID item still shows the old status.
    From then on, as long as the two tables stay so, every DELETE of
    the order whose requests go through answers 409 "Order status
    changed, please retry" and writes nothing. *)
Theorem cancel_failing_halfway_is_stuck event w orderId order s customerId :
  pathParameters event ≫= (fun p => p !! "order_id") = Some orderId →
  orderId ≠ "" →
  orders_by_id w !! orderId = Some order →
  OrderById.status order = Some s →
  CancelOrder.cancellable (Some s) = true →
  OrderById.customer_id order = Some customerId →
  primary_of w order ≫= Order.status = Some s →
  peek (outages w) = false →
  peek (advance (outages w)) = false →
  peek (advance (advance (outages w))) = true →
  let w1 := (CancelOrder.handler event w).2 in
  (CancelOrder.handler event w).1
  = Ok (mkResult 500 (CancelOrder.ErrorBody "Internal server error" None None None))
  ∧ primary_of w1 order ≫= Order.status = Some OrderStatus.CANCELLED
  ∧ orders_by_id w1 = orders_by_id w
  ∧ ∀ again w2,
      pathParameters again ≫= (fun p => p !! "order_id") = Some orderId →
      peek (outages w2) = false →
      peek (advance (outages w2)) = false →
      orders w2 = orders w1 →
      orders_by_id w2 = orders_by_id w1 →
      (CancelOrder.handler again w2).1
      = Ok (mkResult 409
              (CancelOrder.ErrorBody "Order status changed, please retry"
                 (Some orderId) None None))
      ∧ same_storage w2 (CancelOrder.handler again w2).2.
Proof.
  intros Hid Hne Hl Hs Hc Hcid Hsync Hup1 Hup2 Hdown. cbn zeta.
  assert (Hrun :
    CancelOrder.handler event w
    = (Ok (mkResult 500 (CancelOrder.ErrorBody "Internal server error" None None None)),
       with_outages (advance (advance (advance (outages w))))
         (with_orders
            (<[(customerId, template (OrderById.order_ts order) ++ "#"
                            ++ OrderById.order_id order)
               := Order.set_status OrderStatus.CANCELLED (iso (peek (clock w)))
                    (default (Order.blank customerId
                                (template (OrderById.order_ts order) ++ "#"
                                 ++ OrderById.order_id order))
                       (primary_of w order))]> (orders w))
            (with_clock (advance (clock w)) w)))).
  { rewrite (handler_cancel _ _ _ Hid Hne).
    unfold try_catch, bind, getOrderById, DynamoDB.get_order_by_id, bind.
    rewrite aws_request_up by done. cbn. rewrite Hl. cbn.
    unfold CancelOrder.cancel. rewrite Hs, Hc, Hcid. cbn.
    unfold updateOrderStatus, bind, now, try_catch,
      DynamoDB.update_order_status, DynamoDB.update_order_by_id_status, bind. cbn.
    rewrite aws_request_up by done. cbn.
    unfold primary_of in Hsync |- *. rewrite Hcid in Hsync |- *. cbn in Hsync |- *.
    rewrite bool_decide_eq_true_2 by done. cbn.
    rewrite aws_request_down by done. cbn. reflexivity. }
  rewrite Hrun. cbn [fst snd]. split; [done|]. split; [|split; [done|]].
  - unfold primary_of. rewrite Hcid. cbn. by rewrite lookup_insert_eq.
  - intros again w2 Hagain Hu1 Hu2 Ho2 Hb2.
    apply (cancel_stale w2 again orderId order s customerId); try done.
    + by rewrite Hb2.
    + unfold primary_of. rewrite Hcid, Ho2. cbn. rewrite lookup_insert_eq. cbn.
      apply cancellable_spec in Hc. destruct Hc; by simplify_eq.
Qed.

Lemma cancel_failing_halfway_is_stuck_witness :
  let w :=
    with_outages (mkOracle (fun n => Nat.eqb n 2) 0)
      (CreateOrder.handler Scenario.event Scenario.world).2 in
  let event := cancel_event "ORD-01HQXG5Z8K3V9T2M4N6P7R0S1W" in
  ∃ response response',
    (CancelOrder.handler event w).1 = Ok response
    ∧ statusCode response = 500
    ∧ (CancelOrder.handler event (CancelOrder.handler event w).2).1 = Ok response'
    ∧ statusCode response' = 409.
Proof.
  intros w event.
  destruct (cancel_failing_halfway_is_stuck event w
              "ORD-01HQXG5Z8K3V9T2M4N6P7R0S1W"
              (projection "ORD-01HQXG5Z8K3V9T2M4N6P7R0S1W"
                 (derived_order Scenario.request "retry-key-0001" Scenario.world))
              OrderStatus.PENDING "CUST-001")
    as (Hrun & _ & _ & Hagain).
  - reflexivity.
  - done.
  - vm_compute. reflexivity.
  - reflexivity.
  - reflexivity.
  - reflexivity.
  - vm_compute. reflexivity.
  - reflexivity.
  - reflexivity.
  - reflexivity.
  - do 2 eexists. split; [exact Hrun|]. split; [reflexivity|].
    split;
      [apply (Hagain event);
         [reflexivity|vm_compute; reflexivity|vm_compute; reflexivity|exact eq_refl
         |exact eq_refl]
      |reflexivity].
Defined.

(* --------------------------------------------------------------------- *)
(** ** The saga, step by step                                             *)
(* --------------------------------------------------------------------- *)

Lemma invoke_sync_run fn p w :
  peek (outages w) = false →
  ProcessOrder.invokeFunction fn p false w
  = (Ok (match peek (lambda_replies w) with
         | FunctionError m =>
             ProcessOrder.mkInvokeResult false
               (Some (match m with
                      | Some m => if String.eqb m "" then "Function error" else m
                      | None => "Function error"
                      end))
         | Returned => ProcessOrder.mkInvokeResult true None
         end),
     with_lambda_replies (advance (lambda_replies w))
       (with_invoked (invoked w ++ [mkInvocation fn p false])
          (with_outages (advance (outages w)) w))).
Proof.
  intros Hup. unfold ProcessOrder.invokeFunction, try_catch, bind,
    ProcessOrder.send_invoke, bind.
  rewrite aws_request_up by done. cbn.
  by destruct (peek (lambda_replies w)).
Qed.

Lemma invoke_async_run fn p w :
  peek (outages w) = false →
  ProcessOrder.invokeFunction fn p true w
  = (Ok (ProcessOrder.mkInvokeResult true None),
     with_invoked (invoked w ++ [mkInvocation fn p true])
       (with_outages (advance (outages w)) w)).
Proof.
  intros Hup. unfold ProcessOrder.invokeFunction, try_catch, bind,
    ProcessOrder.send_invoke, bind.
  by rewrite aws_request_up by done.
Qed.

Lemma process_record_pending record message order w :
  ProcessOrder.body record = Some message →
  peek (outages w) = false →
  orders_by_id w !! OrderProcessingMessage.order_id message = Some order →
  OrderById.status order = Some OrderStatus.PENDING →
  ProcessOrder.process_record record w
  = try_catch (ProcessOrder.workflow record message order)
      (fun _ => ret [ProcessOrder.messageId record])
      (with_outages (advance (outages w)) w).
Proof.
  intros Hbody Hup Hl Hs. unfold ProcessOrder.process_record, try_catch at 1.
  rewrite Hbody. unfold bind at 1, getOrderById, DynamoDB.get_order_by_id, bind at 1.
  rewrite aws_request_up by done. cbn -[ProcessOrder.workflow].
  rewrite Hl, Hs. rewrite bool_decide_eq_true_2 by done. reflexivity.
Qed.

(** X15. The saga on a PENDING order whose two worker functions return.
    Under healthy services, when the by-ID item and the primary record
    are PENDING and neither synchronous invocation reports a function
    error, the record is acknowledged, both records end CONFIRMED, and
    the handler has invoked, in this order, the reservation with the
    order's lines and store, the payment with the order's total, and,
    asynchronously, the CONFIRMED notification.  What the functions
    returned is not looked at. *)
Theorem saga_confirms_pending_order record message order o w :
  let orderId := OrderProcessingMessage.order_id message in
  let customerId := OrderProcessingMessage.customer_id message in
  let key :=
    (customerId,
     template (OrderById.order_ts order) ++ "#" ++ OrderById.order_id order) in
  healthy w →
  ProcessOrder.body record = Some message →
  orders_by_id w !! orderId = Some order →
  OrderById.status order = Some OrderStatus.PENDING →
  orders w !! key = Some o →
  Order.status o = Some OrderStatus.PENDING →
  peek (lambda_replies w) = Returned →
  peek (advance (lambda_replies w)) = Returned →
  let run := ProcessOrder.process_record record w in
  run.1 = Ok []
  ∧ (orders run.2 !! key) ≫= Order.status = Some OrderStatus.CONFIRMED
  ∧ (orders_by_id run.2 !! orderId) ≫= OrderById.status = Some OrderStatus.CONFIRMED
  ∧ invoked run.2
    = (invoked w
       ++ [mkInvocation RESERVE_INVENTORY_FN
             (ReservePayload orderId customerId (OrderById.items order)
                (OrderById.store_id order)) false;
           mkInvocation PROCESS_PAYMENT_FN
             (PaymentPayload orderId customerId (OrderById.total order)) false;
           mkInvocation SEND_NOTIFICATIONS_FN
             (NotifyPayload orderId customerId OrderStatus.CONFIRMED
                (OrderById.total order) None) true])%list
  ∧ inventory run.2 = inventory w
  ∧ queue run.2 = queue w.
Proof.
  intros orderId customerId key H Hbody Hl Hs Ho Hos Hr1 Hr2 run. subst run.
  rewrite (process_record_pending _ _ _ _ Hbody (H _) Hl Hs).
  unfold try_catch, ProcessOrder.workflow, bind.
  rewrite invoke_sync_run by apply H. cbn [lambda_replies with_lambda_replies
    with_invoked with_outages]. rewrite Hr1. cbn [negb ProcessOrder.success].
  rewrite invoke_sync_run by apply H. cbn [lambda_replies with_lambda_replies
    with_invoked with_outages]. rewrite Hr2. cbn [negb ProcessOrder.success].
  match goal with
  | |- context [updateOrderStatus ?c ?t ?i ?n ?e ?w0] =>
      destruct (fresh_transition_succeeds w0 c t i n OrderStatus.PENDING o)
        as (w' & E & H' & Ho' & Hb' & Hinv & Hq & Hi); [healthy_tac|exact Ho|exact Hos|]
  end.
  rewrite E. cbn [negb]. rewrite invoke_async_run by apply H'. cbn.
  rewrite Ho', Hb', Hinv, Hq, Hi, !lookup_insert_eq. cbn.
  repeat split; try done. by rewrite <- !app_assoc.
Qed.

Lemma saga_confirms_pending_order_witness :
  let w := (CreateOrder.handler Scenario.event Scenario.world).2 in
  let orderId := "ORD-01HQXG5Z8K3V9T2M4N6P7R0S1W" in
  let message :=
    CreateOrder.work_message Scenario.request orderId "2024-03-01T12:00:00.000Z" in
  let run :=
    ProcessOrder.process_record (ProcessOrder.mkSQSRecord "msg-1" (Some message)) w in
  run.1 = Ok []
  ∧ (orders_by_id run.2 !! orderId) ≫= OrderById.status = Some OrderStatus.CONFIRMED.
Proof.
  intros w orderId message.
  destruct (saga_confirms_pending_order
              (ProcessOrder.mkSQSRecord "msg-1" (Some message)) message
              (projection orderId
                 (derived_order Scenario.request "retry-key-0001" Scenario.world))
              (derived_order Scenario.request "retry-key-0001" Scenario.world) w)
    as (Hr & _ & Hb & _).
  - intros n. vm_compute. reflexivity.
  - reflexivity.
  - vm_compute. reflexivity.
  - reflexivity.
  - vm_compute. reflexivity.
  - reflexivity.
  - vm_compute. reflexivity.
  - vm_compute. reflexivity.
  - split; [exact Hr|exact Hb].
Defined.

(** X16. The saga when a worker function fails.  Under healthy services,
    when the by-ID item and the primary record are PENDING and the
    reservation, or after it the payment, reports a function error, the
    record is acknowledged all the same (it is not retried), both
    records end FAILED, and the FAILED notification is sent with the
    reason.  After a failed reservation the payment is never invoked;
    after a failed payment nothing releases the reservation: the handler
    invokes nothing more and leaves the ledger as it is. *)
Theorem saga_fails_order_on_function_error record message order o w m :
  let orderId := OrderProcessingMessage.order_id message in
  let customerId := OrderProcessingMessage.customer_id message in
  let key :=
    (customerId,
     template (OrderById.order_ts order) ++ "#" ++ OrderById.order_id order) in
  let reserve :=
    mkInvocation RESERVE_INVENTORY_FN
      (ReservePayload orderId customerId (OrderById.items order)
         (OrderById.store_id order)) false in
  let pay :=
    mkInvocation PROCESS_PAYMENT_FN
      (PaymentPayload orderId customerId (OrderById.total order)) false in
  let notify reason :=
    mkInvocation SEND_NOTIFICATIONS_FN
      (NotifyPayload orderId customerId OrderStatus.FAILED None (Some reason)) true in
  healthy w →
  ProcessOrder.body record = Some message →
  orders_by_id w !! orderId = Some order →
  OrderById.status order = Some OrderStatus.PENDING →
  orders w !! key = Some o →
  Order.status o = Some OrderStatus.PENDING →
  peek (lambda_replies w) = FunctionError m
  ∨ (peek (lambda_replies w) = Returned
     ∧ peek (advance (lambda_replies w)) = FunctionError m) →
  let run := ProcessOrder.process_record record w in
  run.1 = Ok []
  ∧ (orders run.2 !! key) ≫= Order.status = Some OrderStatus.FAILED
  ∧ (orders_by_id run.2 !! orderId) ≫= OrderById.status = Some OrderStatus.FAILED
  ∧ invoked run.2
    = (invoked w
       ++ match peek (lambda_replies w) with
          | FunctionError _ => [reserve; notify "Inventory reservation failed"]
          | Returned => [reserve; pay; notify "Payment processing failed"]
          end)%list
  ∧ inventory run.2 = inventory w
  ∧ queue run.2 = queue w.
Proof.
  intros orderId customerId key reserve pay notify H Hbody Hl Hs Ho Hos Hfail run.
  subst run. cbn zeta.
  assert (Hfailed : ∀ w0 reason,
    healthy w0 → orders w0 = orders w → orders_by_id w0 = orders_by_id w →
    inventory w0 = inventory w → queue w0 = queue w →
    ∃ w',
      ProcessOrder.failOrder message reason w0 = (Ok tt, w')
      ∧ (orders w' !! key) ≫= Order.status = Some OrderStatus.FAILED
      ∧ (orders_by_id w' !! orderId) ≫= OrderById.status = Some OrderStatus.FAILED
      ∧ invoked w' = (invoked w0 ++ [notify reason])%list
      ∧ inventory w' = inventory w
      ∧ queue w' = queue w).
  { intros w0 reason H0 Ho0 Hb0 Hi0 Hq0.
    unfold ProcessOrder.failOrder, try_catch, bind at 1 2,
      getOrderById, DynamoDB.get_order_by_id, bind at 1.
    rewrite aws_request_healthy by done. cbn [fst snd orders_by_id with_outages].
    fold orderId. rewrite Hb0, Hl. unfold bind at 1 2.
    match goal with
    | |- context [updateOrderStatus ?c ?t ?i ?n ?e ?w1] =>
        destruct (fresh_transition_succeeds w1 c t i n OrderStatus.PENDING o)
          as (w' & E & H' & Ho' & Hb' & Hinv & Hq & Hi);
          [healthy_tac|cbn; rewrite Ho0; exact Ho|exact Hos|]
    end.
    rewrite E. cbn [ret fst snd]. unfold bind.
    rewrite invoke_async_run by apply H'. cbn.
    eexists. split; [reflexivity|]. cbn.
    rewrite Ho', Hb', Hinv, Hq, Hi, !lookup_insert_eq. cbn.
    repeat split; try done. }
  enough (∃ w',
    ProcessOrder.process_record record w = (Ok [], w')
    ∧ (orders w' !! key) ≫= Order.status = Some OrderStatus.FAILED
    ∧ (orders_by_id w' !! orderId) ≫= OrderById.status = Some OrderStatus.FAILED
    ∧ invoked w'
      = (invoked w
         ++ match peek (lambda_replies w) with
            | FunctionError _ => [reserve; notify "Inventory reservation failed"]
            | Returned => [reserve; pay; notify "Payment processing failed"]
            end)%list
    ∧ inventory w' = inventory w
    ∧ queue w' = queue w) as (w' & -> & Hrest) by exact (conj eq_refl Hrest).
  rewrite (process_record_pending _ _ _ _ Hbody (H _) Hl Hs).
  unfold try_catch, ProcessOrder.workflow, bind at 1.
  rewrite invoke_sync_run by apply H. cbn [lambda_replies with_lambda_replies
    with_invoked with_outages].
  destruct Hfail as [Hr1|[Hr1 Hr2]]; rewrite Hr1; cbn [negb ProcessOrder.success].
  - unfold bind.
    match goal with
    | |- context [ProcessOrder.failOrder message ?reason ?w0] =>
        destruct (Hfailed w0 reason) as (w' & E & Hof & Hbf & Hinvf & Hif & Hqf);
          [healthy_tac|done..|]
    end.
    rewrite E. cbn. eexists. split; [reflexivity|].
    rewrite Hinvf. cbn. rewrite <- app_assoc. done.
  - unfold bind at 1.
    rewrite invoke_sync_run by apply H. cbn [lambda_replies with_lambda_replies
      with_invoked with_outages]. rewrite Hr2. cbn [negb ProcessOrder.success].
    unfold bind.
    match goal with
    | |- context [ProcessOrder.failOrder message ?reason ?w0] =>
        destruct (Hfailed w0 reason) as (w' & E & Hof & Hbf & Hinvf & Hif & Hqf);
          [healthy_tac|done..|]
    end.
    rewrite E. cbn. eexists. split; [reflexivity|].
    rewrite Hinvf. cbn. rewrite <- !app_assoc. done.
Qed.

Lemma saga_fails_order_on_function_error_witness :
  let w :=
    with_lambda_replies (Scenario.steady (FunctionError (Some "out of stock")))
      (CreateOrder.handler Scenario.event Scenario.world).2 in
  let orderId := "ORD-01HQXG5Z8K3V9T2M4N6P7R0S1W" in
  let message :=
    CreateOrder.work_message Scenario.request orderId "2024-03-01T12:00:00.000Z" in
  let run :=
    ProcessOrder.process_record (ProcessOrder.mkSQSRecord "msg-1" (Some message)) w in
  run.1 = Ok []
  ∧ (orders_by_id run.2 !! orderId) ≫= OrderById.status = Some OrderStatus.FAILED.
Proof.
  intros w orderId message.
  destruct (saga_fails_order_on_function_error
              (ProcessOrder.mkSQSRecord "msg-1" (Some message)) message
              (projection orderId
                 (derived_order Scenario.request "retry-key-0001" Scenario.world))
              (derived_order Scenario.request "retry-key-0001" Scenario.world) w
              (Some "out of stock"))
    as (Hr & _ & Hb & _).
  - intros n. vm_compute. reflexivity.
  - reflexivity.
  - vm_compute. reflexivity.
  - reflexivity.
  - vm_compute. reflexivity.
  - reflexivity.
  - left. reflexivity.
  - split; [exact Hr|exact Hb].
Defined.

(** X17. The saga on a stale projection.  When the by-ID item says PENDING
    and the primary record does not (it is missing, or has another
    status, as after a cancellation that failed halfway), a healthy run
    whose functions return still invokes the reservation and the
    payment, and only then has its transition refused: it reports the
    record as failed, so that the queue delivers it again, and writes no
    table.  Every delivery therefore reserves and charges again. *)
Theorem saga_on_stale_projection_charges_again record message order w :
  let orderId := OrderProcessingMessage.order_id message in
  let customerId := OrderProcessingMessage.customer_id message in
  let key :=
    (customerId,
     template (OrderById.order_ts order) ++ "#" ++ OrderById.order_id order) in
  healthy w →
  ProcessOrder.body record = Some message →
  orders_by_id w !! orderId = Some order →
  OrderById.status order = Some OrderStatus.PENDING →
  (orders w !! key) ≫= Order.status ≠ Some OrderStatus.PENDING →
  peek (lambda_replies w) = Returned →
  peek (advance (lambda_replies w)) = Returned →
  let run := ProcessOrder.process_record record w in
  run.1 = Ok [ProcessOrder.messageId record]
  ∧ orders run.2 = orders w
  ∧ orders_by_id run.2 = orders_by_id w
  ∧ inventory run.2 = inventory w
  ∧ invoked run.2
    = (invoked w
       ++ [mkInvocation RESERVE_INVENTORY_FN
             (ReservePayload orderId customerId (OrderById.items order)
                (OrderById.store_id order)) false;
           mkInvocation PROCESS_PAYMENT_FN
             (PaymentPayload orderId customerId (OrderById.total order)) false])%list.
Proof.
  intros orderId customerId key H Hbody Hl Hs Hstale Hr1 Hr2 run. subst run.
  rewrite (process_record_pending _ _ _ _ Hbody (H _) Hl Hs).
  unfold try_catch, ProcessOrder.workflow, bind.
  rewrite invoke_sync_run by apply H. cbn [lambda_replies with_lambda_replies
    with_invoked with_outages]. rewrite Hr1. cbn [negb ProcessOrder.success].
  rewrite invoke_sync_run by apply H. cbn [lambda_replies with_lambda_replies
    with_invoked with_outages]. rewrite Hr2. cbn [negb ProcessOrder.success].
  match goal with
  | |- context [updateOrderStatus ?c ?t ?i ?n ?e ?w0] =>
      destruct (stale_transition_run w0 c t i n OrderStatus.PENDING)
        as (w' & E & H' & Ho' & Hb' & Hinv & Hq & Hi); [healthy_tac|exact Hstale|]
  end.
  rewrite E. cbn. rewrite Ho', Hb', Hinv, Hi. cbn.
  repeat split; try done. by rewrite <- !app_assoc.
Qed.

Lemma saga_on_stale_projection_charges_again_witness :
  let event := cancel_event "ORD-01HQXG5Z8K3V9T2M4N6P7R0S1W" in
  let w :=
    with_outages (Scenario.steady false)
      (CancelOrder.handler event
         (with_outages (mkOracle (fun n => Nat.eqb n 2) 0)
            (CreateOrder.handler Scenario.event Scenario.world).2)).2 in
  let message :=
    CreateOrder.work_message Scenario.request "ORD-01HQXG5Z8K3V9T2M4N6P7R0S1W"
      "2024-03-01T12:00:00.000Z" in
  (ProcessOrder.process_record (ProcessOrder.mkSQSRecord "msg-1" (Some message)) w).1
  = Ok ["msg-1"].
Proof.
  intros event w message.
  refine (proj1 (saga_on_stale_projection_charges_again
                   (ProcessOrder.mkSQSRecord "msg-1" (Some message)) message
                   (projection "ORD-01HQXG5Z8K3V9T2M4N6P7R0S1W"
                      (derived_order Scenario.request "retry-key-0001" Scenario.world))
                   w _ _ _ _ _ _ _)).
  - intros n. reflexivity.
  - reflexivity.
  - vm_compute. reflexivity.
  - reflexivity.
  - vm_compute. discriminate.
  - vm_compute. reflexivity.
  - vm_compute. reflexivity.
Defined.

Ltac one_record :=
  do 2 eexists; (split; [reflexivity|]); first [by left | by right].

(** X18. What a batch reports.  Whatever the services answer, the saga
    handler returns the ids of some of its records, in the order of the
    batch and each at most as often as it occurs there; a record whose
    body is not JSON is always among them. *)
Theorem saga_reports_records_of_the_batch records w :
  ∃ failed,
    (ProcessOrder.handler records w).1 = Ok failed
    ∧ sublist failed (map ProcessOrder.messageId records)
    ∧ ∀ record, record ∈ records → ProcessOrder.body record = None →
                ProcessOrder.messageId record ∈ failed.
Proof.
  revert w. induction records as [|record rest IH]; intros w.
  - exists []. split; [done|]. split; [done|].
    intros record Hin. by apply elem_of_nil in Hin.
  - cbn [ProcessOrder.handler]. unfold bind.
    assert (Hone : ∃ w1 failed,
      ProcessOrder.process_record record w = (Ok failed, w1)
      ∧ (failed = [] ∧ ProcessOrder.body record ≠ None
         ∨ failed = [ProcessOrder.messageId record])).
    { unfold ProcessOrder.process_record, try_catch.
      destruct (ProcessOrder.body record) as [message|] eqn:Hbody;
        [|cbn; one_record].
      unfold bind at 1.
      destruct (getOrderById _ w) as [[[order|]|e] w1]; cbn; [| |one_record];
        [|one_record].
      case_bool_decide; cbn; [|one_record].
      unfold ProcessOrder.workflow, bind.
      destruct (ProcessOrder.invokeFunction _ _ _ w1) as [[r1|e1] w2]; [|one_record].
      destruct (negb (ProcessOrder.success r1)).
      { destruct (ProcessOrder.failOrder _ _ w2) as [[[]|e2] w3]; cbn; one_record. }
      destruct (ProcessOrder.invokeFunction _ _ _ w2) as [[r2|e2] w3]; [|one_record].
      destruct (negb (ProcessOrder.success r2)).
      { destruct (ProcessOrder.failOrder _ _ w3) as [[[]|e3] w4]; cbn; one_record. }
      destruct (updateOrderStatus _ _ _ _ _ w3) as [[[]|e3] w4]; cbn; [|one_record..].
      destruct (ProcessOrder.invokeFunction _ _ _ w4) as [[r4|e4] w5]; cbn; one_record. }
    destruct Hone as (w1 & failed & -> & Hfailed).
    destruct (IH w1) as (more & Hrun & Hsub & Hbad).
    destruct (ProcessOrder.handler rest w1) as [r w2]. cbn in Hrun. subst r. cbn.
    exists (failed ++ more)%list. split; [done|].
    destruct Hfailed as [[-> Hbody]| ->]; cbn.
    + split; [by apply sublist_cons|].
      intros r [->|Hin]%elem_of_cons Hb; [done|by apply Hbad].
    + split; [by apply sublist_skip|].
      intros r [->|Hin]%elem_of_cons Hb; [apply list_elem_of_here|].
      apply list_elem_of_further. by apply Hbad.
Qed.

(* --------------------------------------------------------------------- *)
(** ** Payment                                                            *)
(* --------------------------------------------------------------------- *)


(* --------------------------------------------------------------------- *)
(** ** The ledger                                                         *)
(* --------------------------------------------------------------------- *)

Lemma commit_update_ne now_ u inv k :
  k ≠ u.1 → ReserveInventory.commit_update now_ u inv !! k = inv !! k.
Proof.
  intros Hne. unfold ReserveInventory.commit_update.
  destruct (inv !! u.1); [by rewrite lookup_insert_ne|done].
Qed.

Lemma commit_update_eq now_ u inv i :
  inv !! u.1 = Some i →
  ReserveInventory.commit_update now_ u inv !! u.1
  = Some (Inventory.mk (Inventory.store_sku i) (Inventory.quantity_available i)
            (Some (default 0 (Inventory.quantity_reserved i) + u.2)) (Some now_)).
Proof.
  intros Hl. unfold ReserveInventory.commit_update. by rewrite Hl, lookup_insert_eq.
Qed.

(** The transaction's updates, on a ledger in which every condition
    holds: an item that is asked for gets its quantity added to what is
    reserved, the other items stay. *)
Lemma commit_updates_lookup now_ updates inv k :
  NoDup updates.*1 →
  forallb (ReserveInventory.commit_condition inv) updates = true →
  match inv !! k with
  | Some i =>
      ∃ i',
        foldr (ReserveInventory.commit_update now_) inv updates !! k = Some i'
        ∧ Inventory.store_sku i' = Inventory.store_sku i
        ∧ Inventory.quantity_available i' = Inventory.quantity_available i
        ∧ (k ∉ updates.*1 → i' = i)
        ∧ (k ∈ updates.*1 →
           ∃ qa, Inventory.quantity_available i = Some qa
                 ∧ (default 0 (Inventory.quantity_reserved i') ≤ qa)%Z)
  | None => foldr (ReserveInventory.commit_update now_) inv updates !! k = None
  end.
Proof.
  induction updates as [|u us IH]; intros Hnd Hall.
  - cbn. destruct (inv !! k) as [i|] eqn:Hk; [|done].
    exists i. repeat split; try done. intros Hin. by apply elem_of_nil in Hin.
  - cbn in Hnd, Hall |- *. apply NoDup_cons in Hnd as [Hnew Hnd].
    apply andb_true_iff in Hall as [Hu Hall]. specialize (IH Hnd Hall).
    unfold ReserveInventory.commit_condition in Hu.
    destruct (decide (k = u.1)) as [->|Hne].
    + destruct (inv !! u.1) as [i|] eqn:Hk; [|done].
      destruct IH as (i' & Hl & _ & _ & Hsame & _).
      rewrite (Hsame Hnew) in Hl. rewrite (commit_update_eq _ _ _ _ Hl).
      eexists. split; [done|]. cbn. split; [done|]. split; [done|].
      split; [intros Hout; exfalso; apply Hout; apply list_elem_of_here|].
      intros _. destruct (Inventory.quantity_available i) as [qa|]; [|done].
      exists qa. split; [done|]. apply Z.geb_le in Hu. lia.
    + rewrite commit_update_ne by done. destruct (inv !! k) as [i|]; [|done].
      destruct IH as (i' & Hl & Hsku & Hqa & Hsame & Hin).
      exists i'. split; [done|]. split; [done|]. split; [done|]. split.
      * intros Hout. apply Hsame. intros Hin'. apply Hout. by apply list_elem_of_further.
      * intros [Heq|Hin']%elem_of_cons; [done|by apply Hin].
Qed.

(** X20. The reservation function never oversells and never loses track
    of stock.  Whatever the request and whatever the services answer, it
    creates and deletes no ledger item and leaves [quantity_available]
    as it is; of an item whose reserved quantity did not exceed the
    available one, the reserved quantity still does not exceed it.  It
    writes nothing else: no order, no message, no invocation, and no
    record of the reservation id it returns. *)
Theorem reservation_never_oversells event w :
  let w' := (ReserveInventory.handler event w).2 in
  (∀ k, match inventory w !! k with
        | Some i =>
            ∃ i',
              inventory w' !! k = Some i'
              ∧ Inventory.store_sku i' = Inventory.store_sku i
              ∧ Inventory.quantity_available i' = Inventory.quantity_available i
              ∧ ∀ qa, Inventory.quantity_available i = Some qa →
                      (default 0 (Inventory.quantity_reserved i) ≤ qa)%Z →
                      (default 0 (Inventory.quantity_reserved i') ≤ qa)%Z
        | None => inventory w' !! k = None
        end)
  ∧ orders w' = orders w
  ∧ orders_by_id w' = orders_by_id w
  ∧ queue w' = queue w
  ∧ invoked w' = invoked w.
Proof.
  cbn zeta.
  assert (Hsame : ∀ w0 w1 : World,
    inventory w1 = inventory w0 → orders w1 = orders w0 →
    orders_by_id w1 = orders_by_id w0 → queue w1 = queue w0 →
    invoked w1 = invoked w0 →
    (∀ k, match inventory w0 !! k with
          | Some i =>
              ∃ i',
                inventory w1 !! k = Some i'
                ∧ Inventory.store_sku i' = Inventory.store_sku i
                ∧ Inventory.quantity_available i' = Inventory.quantity_available i
                ∧ ∀ qa, Inventory.quantity_available i = Some qa →
                        (default 0 (Inventory.quantity_reserved i) ≤ qa)%Z →
                        (default 0 (Inventory.quantity_reserved i') ≤ qa)%Z
          | None => inventory w1 !! k = None
          end)
    ∧ orders w1 = orders w0 ∧ orders_by_id w1 = orders_by_id w0
    ∧ queue w1 = queue w0 ∧ invoked w1 = invoked w0).
  { intros w0 w1 Hi Ho Hb Hq Hv. split; [|done]. intros k. rewrite Hi.
    destruct (inventory w0 !! k) as [i|]; [|done]. exists i. by repeat split. }
  destruct (ReserveInventory.handler event w) as [r w'] eqn:Hrun. cbn [snd].
  revert Hrun.
  unfold ReserveInventory.handler, generateReservationId, calculateTTL,
    bind at 1 2 3 4 5, ulid, now, Date_now, ret. cbn [fst snd].
  unfold try_catch, bind.
  pose proof (checks_run event (ReserveInventory.items event)
    (with_clock (advance (with_clock (advance (clock (with_ulids (advance (ulids w)) w)))
       (with_ulids (advance (ulids w)) w)).(clock))
       (with_clock (advance (clock (with_ulids (advance (ulids w)) w)))
          (with_ulids (advance (ulids w)) w)))) as [[n Hreq] _].
  cbn -[Nat.ltb] in Hreq |- *.
  destruct (promise_all _ _ _) as [[checks|e] w1]; cbn in Hreq; subst w1.
  2:{ destruct e; cbn; intros Hrun; simplify_eq;
        exact (Hsame w _ eq_refl eq_refl eq_refl eq_refl eq_refl). }
  destruct (Nat.ltb 0 (length (ReserveInventory.insufficient checks))); cbn;
    [intros Hrun; simplify_eq; exact (Hsame w _ eq_refl eq_refl eq_refl eq_refl eq_refl)|].
  unfold ReserveInventory.executeTransaction, bind, aws_request. cbn.
  match goal with |- context [if feed ?o ?c then _ else _] => destruct (feed o c) end;
    cbn; [intros Hrun; simplify_eq;
          exact (Hsame w _ eq_refl eq_refl eq_refl eq_refl eq_refl)|].
  destruct (negb _ || _ || _) eqn:Hvalid; cbn;
    [intros Hrun; simplify_eq; exact (Hsame w _ eq_refl eq_refl eq_refl eq_refl eq_refl)|].
  destruct (forallb _ _) eqn:Hall; cbn;
    [|intros Hrun; simplify_eq; exact (Hsame w _ eq_refl eq_refl eq_refl eq_refl eq_refl)].
  intros Hrun. simplify_eq. cbn. split; [|done]. intros k.
  apply orb_false_iff in Hvalid as [[Hnd _]%orb_false_iff _].
  apply negb_false_iff, bool_decide_eq_true in Hnd.
  pose proof (commit_updates_lookup (iso (peek (clock w)))
                (ReserveInventory.transactItems event) (inventory w) k Hnd Hall) as Hk.
  destruct (inventory w !! k) as [i|]; [|done].
  destruct Hk as (i' & Hl & Hsku & Hqa & Hout & Hin).
  exists i'. split; [done|]. split; [done|]. split; [done|].
  intros qa Hq Hle.
  destruct (decide (k ∈ (ReserveInventory.transactItems event).*1)) as [Hk|Hk].
  - destruct (Hin Hk) as (qa' & Hq' & Hle'). congruence.
  - by rewrite (Hout Hk).
Qed.

Lemma append_assoc (a b c : string) : a ++ (b ++ c) = (a ++ b) ++ c.
Proof.
  induction a as [|x a IH]; [reflexivity|].
  change (String x (a ++ (b ++ c)) = String x ((a ++ b) ++ c)). by rewrite IH.
Qed.

Lemma storeSku_keys event :
  (ReserveInventory.transactItems event).*1
  = map (String.append (ReserveInventory.store_id event ++ "#"))
      (map OrderItem.sku (ReserveInventory.items event)).
Proof.
  unfold ReserveInventory.transactItems, ReserveInventory.storeSku.
  induction (ReserveInventory.items event) as [|item items IH]; [done|].
  cbn [map fmap list_fmap fst]. f_equal; [apply append_assoc|exact IH].
Qed.

(** X21. Requests the transaction cannot carry.  A reservation request
    with no lines, with two lines of the same SKU, or with more than a
    hundred lines is never granted, even when the stock would suffice:
    the function answers [success: false] without a reservation id and
    the ledger stays as it is. *)
Theorem reservation_rejects_malformed_requests event w :
  ReserveInventory.items event = []
  ∨ ¬ NoDup (map OrderItem.sku (ReserveInventory.items event))
  ∨ (100 < length (ReserveInventory.items event))%nat →
  let run := ReserveInventory.handler event w in
  ∃ response,
    run.1 = Ok response
    ∧ ReserveInventory.success response = false
    ∧ ReserveInventory.reservation_id response = None
    ∧ inventory run.2 = inventory w.
Proof.
  intros Hbad. cbn zeta.
  assert (Hvalid :
    negb (bool_decide (NoDup (ReserveInventory.transactItems event).*1))
    || Nat.eqb (length (ReserveInventory.transactItems event)) 0
    || Nat.ltb 100 (length (ReserveInventory.transactItems event)) = true).
  { assert (Hlen : length (ReserveInventory.transactItems event)
                   = length (ReserveInventory.items event)).
    { unfold ReserveInventory.transactItems. apply length_map. }
    rewrite Hlen. destruct Hbad as [Hnil|[Hdup|Hlong]].
    - assert (length (ReserveInventory.items event) = 0%nat) as -> by by rewrite Hnil.
      cbn. by rewrite orb_true_r.
    - rewrite bool_decide_eq_false_2; [done|]. rewrite storeSku_keys.
      intros Hnd. apply Hdup. eapply (NoDup_fmap_1 (String.append _)). exact Hnd.
    - apply Nat.ltb_lt in Hlong. rewrite Hlong. by rewrite orb_true_r. }
  destruct (ReserveInventory.handler event w) as [r w'] eqn:Hrun. cbn [fst snd].
  revert Hrun.
  unfold ReserveInventory.handler, generateReservationId, calculateTTL,
    bind at 1 2 3 4 5, ulid, now, Date_now, ret. cbn [fst snd].
  unfold try_catch, bind.
  pose proof (checks_run event (ReserveInventory.items event)
    (with_clock (advance (with_clock (advance (clock (with_ulids (advance (ulids w)) w)))
       (with_ulids (advance (ulids w)) w)).(clock))
       (with_clock (advance (clock (with_ulids (advance (ulids w)) w)))
          (with_ulids (advance (ulids w)) w)))) as [[n Hreq] _].
  cbn -[Nat.ltb] in Hreq |- *.
  destruct (promise_all _ _ _) as [[checks|e] w1]; cbn in Hreq; subst w1.
  2:{ destruct e; cbn; intros Hrun; simplify_eq; by eexists. }
  destruct (Nat.ltb 0 (length (ReserveInventory.insufficient checks))); cbn;
    [intros Hrun; simplify_eq; by eexists|].
  unfold ReserveInventory.executeTransaction, bind, aws_request. cbn -[Nat.ltb].
  match goal with |- context [if feed ?o ?c then _ else _] => destruct (feed o c) end;
    cbn -[Nat.ltb]; [intros Hrun; simplify_eq; by eexists|].
  rewrite Hvalid. cbn. intros Hrun. simplify_eq. by eexists.
Qed.

Lemma reservation_rejects_malformed_requests_witness :
  let event :=
    ReserveInventory.mkRequest "ORD-1" "CUST-001" "STORE-001"
      [OrderItem.mk "WINE-001" "Red wine" 1 25%float 25%float;
       OrderItem.mk "WINE-001" "Red wine" 1 25%float 25%float] in
  ∃ response,
    (ReserveInventory.handler event Scenario.stocked_world).1 = Ok response
    ∧ ReserveInventory.success response = false.
Proof.
  intros event.
  destruct (reservation_rejects_malformed_requests event Scenario.stocked_world)
    as (response & Hrun & Hfalse & _).
  - right. left. vm_compute. intros Hnd. apply NoDup_cons in Hnd as [Hnew _].
    apply Hnew. apply list_elem_of_here.
  - by exists response.
Defined.

(* --------------------------------------------------------------------- *)
(** ** Change events of any record                                        *)
(* --------------------------------------------------------------------- *)

(** X22. The events of one change record, whatever its kind.  There are at
    most three; each names the configured bus and the source
    "acme.orders", and carries the one timestamp read for the record.
    An INSERT with a new image gives exactly ORDER_CREATED, with the
    number of lines of the order (0 when it has none); a REMOVE with an
    old image gives exactly ORDER_DELETED; a MODIFY that changes neither
    the status nor the payment state (an update of another attribute)
    gives nothing; and so does a record without images, without the
    image its kind needs, or of no known kind. *)
Theorem change_record_events bus record w :
  let run := StreamProcessor.transformToDomainEvents bus record w in
  let newImage := StreamProcessor.dynamodb record ≫= StreamProcessor.NewImage in
  let oldImage := StreamProcessor.dynamodb record ≫= StreamProcessor.OldImage in
  ∃ events,
    run.1 = Ok events
    ∧ same_storage w run.2
    ∧ (length events ≤ 3)%nat
    ∧ Forall (fun e =>
                StreamProcessor.EventBusName e = bus
                ∧ StreamProcessor.Source e = "acme.orders"
                ∧ StreamProcessor.Time e = iso (peek (clock w))) events
    ∧ (StreamProcessor.eventName record = Some StreamProcessor.INSERT →
       match newImage with
       | Some n =>
           events
           = [StreamProcessor.entry bus "Order Created" (iso (peek (clock w)))
                (StreamProcessor.ORDER_CREATED (Order.order_id n)
                   (Order.customer_id n) (Order.store_id n)
                   (Order.county_id n) (Order.status n) (Order.total n)
                   (length (default [] (Order.items n)))
                   (iso (peek (clock w))))]
       | None => events = []
       end)
    ∧ (StreamProcessor.eventName record = Some StreamProcessor.REMOVE →
       match oldImage with
       | Some o =>
           events = [StreamProcessor.entry bus "Order Deleted"
                       (iso (peek (clock w)))
                       (StreamProcessor.ORDER_DELETED (Order.order_id o)
                          (Order.customer_id o) (iso (peek (clock w))))]
       | None => events = []
       end)
    ∧ (StreamProcessor.eventName record = Some StreamProcessor.MODIFY →
       (newImage = None ∨ oldImage = None → events = [])
       ∧ ∀ n o, newImage = Some n → oldImage = Some o →
                Order.status n = Order.status o →
                Order.payment_state n = Order.payment_state o →
                events = [])
    ∧ (StreamProcessor.eventName record = None → events = []).
Proof.
  cbn zeta. unfold StreamProcessor.transformToDomainEvents, bind, now.
  destruct (StreamProcessor.dynamodb record) as [[newImage oldImage]|]; cbn.
  2:{ exists []. repeat split; try done; auto. }
  eexists. split; [reflexivity|]. split; [by unfold same_storage|].
  destruct (StreamProcessor.eventName record) as [[]|]; cbn.
  - destruct newImage as [n|]; cbn.
    + split; [lia|]. split; [by repeat constructor|].
      split; [|done]. intros _. by destruct (Order.items n).
    + split; [lia|]. by split.
  - destruct newImage as [n|], oldImage as [o|]; cbn;
      try (split; [lia|]; split; [done|]; repeat split; try done; intros; by simplify_eq).
    unfold StreamProcessor.modify_events, StreamProcessor.status_events.
    repeat case_bool_decide; cbn; try congruence;
      (split; [lia|]); (split; [by repeat constructor|]);
      repeat split; try done; try (by intros [|]);
      intros; simplify_eq; congruence.
  - destruct oldImage as [o|]; cbn.
    + split; [lia|]. split; [by repeat constructor|]. by repeat split.
    + split; [lia|]. by split.
  - split; [lia|]. by split.
Qed.

(* --------------------------------------------------------------------- *)
(** ** Publishing the change events                                       *)
(* --------------------------------------------------------------------- *)

Lemma batches_step m :
  (0 < m)%nat → S ((m - 10 + 9) / 10) = ((m + 9) / 10)%nat.
Proof.
  intros Hm. destruct (le_lt_dec 10 m) as [Hbig|Hsmall].
  - replace (m + 9)%nat with (m - 10 + 9 + 1 * 10)%nat by lia.
    rewrite Nat.div_add by done. lia.
  - replace (m - 10)%nat with 0%nat by lia.
    apply (Nat.div_unique (m + 9) 10 1 (m - 1)); lia.
Qed.

Lemma publish_from_accepted fuel : ∀ i events b,
  (length events ≤ i + 10 * fuel)%nat →
  (∀ j, refusal (feed (EventBridge.replies b)
                   (cursor (EventBridge.replies b) + j)) = false) →
  ∃ batches,
    StreamHandler.publish_from fuel i events b
    = (true,
       EventBridge.mkBus (EventBridge.requests b ++ batches)
         (mkOracle (feed (EventBridge.replies b))
            (cursor (EventBridge.replies b) + length batches)))
    ∧ slices_of (drop i events) batches
    ∧ length batches = ((length (drop i events) + 9) / 10)%nat.
Proof.
  induction fuel as [|fuel IH]; intros i events b Hfuel Hok.
  - exists []. cbn. rewrite app_nil_r, Nat.add_0_r.
    assert (drop i events = []) as -> by (apply drop_ge; lia).
    destruct b as [? [? ?]]. by repeat split.
  - cbn [StreamHandler.publish_from].
    destruct (Nat.ltb i (length events)) eqn:Hi.
    2:{ apply Nat.ltb_ge in Hi. exists []. rewrite app_nil_r, Nat.add_0_r.
        assert (drop i events = []) as -> by (by apply drop_ge).
        destruct b as [? [? ?]]. by repeat split. }
    apply Nat.ltb_lt in Hi. unfold EventBridge.send.
    pose proof (Hok 0%nat) as H0. rewrite Nat.add_0_r in H0. unfold peek.
    destruct (feed (EventBridge.replies b) (cursor (EventBridge.replies b)))
      as [|count]; [done|]. cbn in H0. rewrite H0.
    destruct (IH (i + 10)%nat events
                (EventBridge.mkBus
                   (EventBridge.requests b ++ [take 10 (drop i events)])
                   (advance (EventBridge.replies b))))
      as (batches & Hrun & [Hcat Hall] & Hlen).
    { lia. }
    { intros j. unfold advance. cbn [EventBridge.replies feed cursor].
      replace (S (cursor (EventBridge.replies b)) + j)%nat
        with (cursor (EventBridge.replies b) + S j)%nat by lia. apply Hok. }
    exists (take 10 (drop i events) :: batches). rewrite Hrun. cbn.
    split; [|split; [split|]].
    + f_equal. f_equal; [by rewrite <- app_assoc|]. f_equal. lia.
    + cbn. rewrite Hcat, <- drop_drop. apply take_drop.
    + constructor; [|done]. rewrite length_take, length_drop. lia.
    + cbn [length]. rewrite Hlen, !length_drop.
      replace (length events - (i + 10))%nat with (length events - i - 10)%nat by lia.
      apply batches_step. lia.
Qed.


(** X23. What [publishEvents] sends to a bus that accepts.  Every event is
    sent exactly once and in order: the requests it adds are the slices
    of the list, each of one to ten entries, ⌈n/10⌉ of them for n
    events, and the call returns normally. *)
Theorem publish_sends_every_event_once events b :
  accepting b →
  let run := StreamHandler.publishEvents events b in
  run.1 = true
  ∧ ∃ batches,
      EventBridge.requests run.2 = (EventBridge.requests b ++ batches)%list
      ∧ slices_of events batches
      ∧ length batches = ((length events + 9) / 10)%nat.
Proof.
  intros Hok. cbn zeta. unfold StreamHandler.publishEvents.
  destruct (publish_from_accepted (length events) 0 events b)
    as (batches & -> & Hslices & Hlen); [lia|by intros j|].
  cbn. split; [done|]. exists batches. by rewrite drop_0 in Hslices, Hlen.
Qed.

Lemma publish_sends_every_event_once_witness :
  let e :=
    StreamProcessor.entry "orders-bus" "Order Deleted" "2024-03-01T12:00:00.000Z"
      (StreamProcessor.ORDER_DELETED (Some "ORD-1") "CUST-001"
         "2024-03-01T12:00:00.000Z") in
  let b := EventBridge.mkBus [] (Scenario.steady (EventBridge.Answered None)) in
  let run := StreamHandler.publishEvents (replicate 11 e) b in
  run.1 = true ∧ length (EventBridge.requests run.2) = 2%nat.
Proof.
  intros e b.
  destruct (publish_sends_every_event_once (replicate 11 e) b)
    as (Hrun & batches & Hreq & _ & Hlen).
  - intros n. reflexivity.
  - cbn zeta. split; [exact Hrun|]. rewrite Hreq, length_app, Hlen. reflexivity.
Defined.







(* --------------------------------------------------------------------- *)
(** ** Sort keys and request hashes                                       *)
(* --------------------------------------------------------------------- *)

Lemma split_hash_plain s : has_hash s = false → split_hash s = [s].
Proof.
  induction s as [|c s IH]; [done|]. cbn. intros [Hc Hs]%orb_false_iff.
  rewrite Hc, (IH Hs). done.
Qed.

Lemma split_hash_app s rest :
  has_hash s = false → split_hash (s ++ "#" ++ rest) = s :: split_hash rest.
Proof.
  induction s as [|c s IH]; [done|]. cbn. intros [Hc Hs]%orb_false_iff.
  change (String c s ++ "#" ++ rest) with (String c (s ++ "#" ++ rest)).
  cbn. rewrite Hc, (IH Hs). done.
Qed.

Lemma split_hash_head s :
  ∃ piece pieces,
    split_hash s = piece :: pieces
    ∧ (has_hash s = false → piece = s)
    ∧ (has_hash s = true → (String.length piece < String.length s)%nat).
Proof.
  induction s as [|c s (piece & pieces & IH & Hplain & Hshort)].
  - exists "", []. by repeat split.
  - cbn. destruct (Ascii.eqb c "#") eqn:Hc; cbn.
    + exists "", (split_hash s). split; [done|]. split; [done|]. cbn. lia.
    + rewrite IH. exists (String c piece), pieces. split; [done|].
      split; [intros Hs; by rewrite (Hplain Hs)|]. intros Hs. cbn.
      specialize (Hshort Hs). lia.
Qed.

(** X25. Sort keys can be taken apart again.  A sort key made by
    [generateOrderSortKey] is parsed back into the timestamp it was made
    with and the order id, provided that neither contains "#"; the
    timestamp of the clock never does.  An order id that contains "#"
    does not come back: what is parsed is a shorter piece of it. *)
Theorem sort_key_round_trip orderId w :
  has_hash (iso (peek (clock w))) = false →
  ∃ sortKey,
    (generateOrderSortKey orderId w).1 = Ok sortKey
    ∧ ParsedSortKey.timestamp (parseOrderSortKey sortKey)
      = Some (iso (peek (clock w)))
    ∧ (has_hash orderId = false →
       ParsedSortKey.orderId (parseOrderSortKey sortKey) = Some orderId)
    ∧ (has_hash orderId = true →
       ∃ piece,
         ParsedSortKey.orderId (parseOrderSortKey sortKey) = Some piece
         ∧ (String.length piece < String.length orderId)%nat).
Proof.
  intros Hts. eexists. split; [reflexivity|].
  unfold parseOrderSortKey. rewrite (split_hash_app _ _ Hts). cbn.
  split; [done|].
  destruct (split_hash_head orderId) as (piece & pieces & -> & Hplain & Hshort). cbn.
  split.
  - intros Hid. by rewrite (Hplain Hid).
  - intros Hid. exists piece. split; [done|]. by apply Hshort.
Qed.

Lemma sort_key_round_trip_witness :
  ∃ sortKey,
    (generateOrderSortKey "ORD-01HQXG5Z8K3V9T2M4N6P7R0S1W" Scenario.world).1
    = Ok sortKey
    ∧ ParsedSortKey.orderId (parseOrderSortKey sortKey)
      = Some "ORD-01HQXG5Z8K3V9T2M4N6P7R0S1W".
Proof.
  destruct (sort_key_round_trip "ORD-01HQXG5Z8K3V9T2M4N6P7R0S1W" Scenario.world)
    as (sortKey & Hrun & _ & Hid & _).
  - reflexivity.
  - exists sortKey. split; [exact Hrun|]. apply Hid. reflexivity.
Defined.

Lemma ToInt32_range x : (- 2 ^ 31 ≤ ToInt32 x < 2 ^ 31)%Z.
Proof. unfold ToInt32. pose proof (Z.mod_pos_bound (x + 2 ^ 31) (2 ^ 32)). lia. Qed.

Lemma ToInt32_congruent x y :
  (x - y) mod 2 ^ 32 = 0 → ToInt32 x = ToInt32 y.
Proof.
  intros Hxy. unfold ToInt32. f_equal.
  apply Z.mod_divide in Hxy as [k Hk]; [|done].
  replace (x + 2 ^ 31) with (y + 2 ^ 31 + k * 2 ^ 32) by lia.
  apply Z.mod_add. done.
Qed.

Lemma ToInt32_mod x : (ToInt32 x - x) mod 2 ^ 32 = 0.
Proof.
  unfold ToInt32. pose proof (Z.div_mod (x + 2 ^ 31) (2 ^ 32) ltac:(done)) as Hdm.
  apply Z.mod_divide; [done|]. exists (- ((x + 2 ^ 31) / 2 ^ 32)). lia.
Qed.

Lemma hash_turn_polynomial hash char sum :
  hash = ToInt32 sum → hash_turn hash char = ToInt32 (31 * sum + char).
Proof.
  intros ->. unfold hash_turn. apply ToInt32_congruent.
  pose proof (ToInt32_mod (ToInt32 sum * 2 ^ 5)) as H1.
  pose proof (ToInt32_mod sum) as H2.
  apply Z.mod_divide in H1 as [k1 H1]; [|done].
  apply Z.mod_divide in H2 as [k2 H2]; [|done].
  apply Z.mod_divide; [done|]. exists (k1 + 31 * k2). lia.
Qed.

(** X26. The request hash is the 31-polynomial of the text.  Whatever the
    char codes, the loop of [hashRequestData], with its shifts and its
    truncations to 32 bits, ends on the 32-bit integer of
    [Σ json[i] · 31^(n-1-i)]; the number it prints is the absolute value
    of that integer, between 0 and 2^31 inclusive.  So two texts whose
    polynomials agree modulo 2^32 get the same hash. *)
Theorem request_hash_is_polynomial json :
  hashRequestData json = Z.abs (ToInt32 (polynomial_31 json))
  ∧ (0 ≤ hashRequestData json ≤ 2 ^ 31)%Z
  ∧ ∀ other,
      (polynomial_31 json - polynomial_31 other) mod 2 ^ 32 = 0 →
      hashRequestData other = hashRequestData json.
Proof.
  assert (Hloop : ∀ codes hash sum,
    hash = ToInt32 sum →
    fold_left hash_turn codes hash
    = ToInt32 (fold_left (fun sum char => 31 * sum + char) codes sum)).
  { induction codes as [|char codes IH]; intros hash sum Hhash; [done|].
    cbn. apply IH. by apply hash_turn_polynomial. }
  assert (Hhash : ∀ codes, hashRequestData codes = Z.abs (ToInt32 (polynomial_31 codes))).
  { intros codes. unfold hashRequestData, polynomial_31. f_equal. by apply Hloop. }
  split; [apply Hhash|]. split.
  - rewrite Hhash. pose proof (ToInt32_range (polynomial_31 json)). lia.
  - intros other Hsame. rewrite !Hhash. f_equal. symmetry.
    by apply ToInt32_congruent.
Qed.

(* --------------------------------------------------------------------- *)
(** ** What creation stores                                               *)
(* --------------------------------------------------------------------- *)

Lemma min_length_nonempty s : min_length 1 s = true → s ≠ "".
Proof. by destruct s. Qed.

Lemma valid_lines items :
  forallb CreateOrderItemSchema items = true →
  Forall valid_line (CreateOrder.itemsWithTotals items).
Proof.
  induction items as [|item items IH]; [constructor|].
  cbn. intros [Hitem Hitems]%andb_true_iff. constructor; [|by apply IH].
  unfold CreateOrderItemSchema in Hitem.
  apply andb_true_iff in Hitem as [[[Hsku Hname]%andb_true_iff Hq]%andb_true_iff Hp].
  unfold valid_line. cbn. repeat split; try by apply min_length_nonempty.
  - by apply Z.ltb_lt.
  - exact Hp.
Qed.

Lemma create_orders request k w :
  let w' := (try_catch (CreateOrder.create request k)
               (fun _ => ret (mkResult 500
                                (CreateOrder.ErrorBody "Internal server error")))
               w).2 in
  orders w' = orders w
  ∨ orders w !! derived_key request w = None
    ∧ orders w' = <[derived_key request w := derived_order request k w]> (orders w).
Proof.
  cbn zeta.
  unfold try_catch, CreateOrder.create, generateOrderId, bind, ulid, ret, now. cbn.
  unfold createOrder, try_catch, bind, DynamoDB.put_order_if_absent, bind, aws_request.
  cbn.
  destruct (peek (outages w)); cbn; [by left|].
  fold (derived_key request w). fold (derived_order request k w).
  change (CreateOrderRequest.customer_id request,
          iso (peek (clock w)) ++ "#" ++ ("ORD-" ++ peek (ulids w)))
    with (derived_key request w).
  destruct (orders w !! derived_key request w) eqn:Hl; cbn.
  { unfold getOrderByCustomer, DynamoDB.get_order, bind, aws_request. cbn.
    destruct (feed _ _); cbn; [by left|].
    change (CreateOrderRequest.customer_id request,
            iso (peek (clock w)) ++ "#" ++ ("ORD-" ++ peek (ulids w)))
      with (derived_key request w).
    rewrite Hl. cbn. by left. }
  unfold put_projection. cbn. unfold DynamoDB.put_order_by_id, bind, aws_request. cbn.
  destruct (feed _ _); cbn; [by right|].
  unfold sendOrderMessage, bind, aws_request. cbn.
  destruct (feed _ _); cbn; by right.
Qed.

(** X27. POST /orders stores only orders made from a valid request.
    Whatever the services answer and whatever the response, a primary
    record that the handler has added is the order built from the
    validated body: it is PENDING with payment PENDING, has at least one
    line, every line is named, has a positive quantity and price and
    their product as total, and it is stored under the customer and
    under [order_ts#order_id], the key that the other handlers rebuild
    from its attributes. *)
Theorem create_stores_only_valid_orders ev w key o :
  let w' := (CreateOrder.handler ev w).2 in
  orders w' !! key = Some o →
  orders w !! key = None →
  ∃ request k lines ts id,
    parseAndValidateBody (body ev) = Some request
    ∧ CreateOrder.idempotency_header ev = Some k
    ∧ o = derived_order request k w
    ∧ Order.status o = Some OrderStatus.PENDING
    ∧ Order.payment_state o = Some PaymentState.PENDING
    ∧ Order.items o = Some lines
    ∧ lines ≠ []
    ∧ Forall valid_line lines
    ∧ Order.order_ts o = Some ts
    ∧ Order.order_id o = Some id
    ∧ key = (Order.customer_id o, ts ++ "#" ++ id)
    ∧ Order.customer_id o ≠ "".
Proof.
  cbn zeta. intros Hnew Hold.
  unfold CreateOrder.handler in Hnew.
  destruct (CreateOrder.idempotency_header ev) as [k|] eqn:Hk;
    [|cbn in Hnew; congruence].
  destruct (String.eqb k "") eqn:Hempty; [cbn in Hnew; congruence|].
  destruct (parseAndValidateBody (body ev)) as [request|] eqn:Hbody;
    [|cbn in Hnew; congruence].
  destruct (create_orders request k w) as [Hsame|[Hfree Hadded]];
    cbn zeta in *.
  { rewrite Hsame in Hnew. congruence. }
  rewrite Hadded in Hnew.
  destruct (decide (key = derived_key request w)) as [->|Hne];
    [|rewrite lookup_insert_ne in Hnew by done; congruence].
  rewrite lookup_insert_eq in Hnew. injection Hnew as <-.
  assert (Hvalid : CreateOrderRequestSchema request = true).
  { unfold parseAndValidateBody in Hbody. destruct (body ev); try done.
    destruct (CreateOrderRequestSchema request0) eqn:Hs; by simplify_eq. }
  unfold CreateOrderRequestSchema in Hvalid.
  apply andb_true_iff in Hvalid as [Hvalid _].
  apply andb_true_iff in Hvalid as [Hvalid Hsome].
  apply andb_true_iff in Hvalid as [Hvalid Hitems].
  apply andb_true_iff in Hvalid as [Hvalid _].
  apply andb_true_iff in Hvalid as [Hcid _].
  exists request, k, (CreateOrder.itemsWithTotals (CreateOrderRequest.items request)),
    (iso (peek (clock w))), ("ORD-" ++ peek (ulids w)).
  split; [done|]. split; [done|]. split; [done|]. cbn.
  split; [done|]. split; [done|]. split; [done|]. split.
  { destruct (CreateOrderRequest.items request); [done|]. done. }
  split; [by apply valid_lines|]. split; [done|]. split; [done|].
  split; [done|]. by apply min_length_nonempty.
Qed.

Lemma create_stores_only_valid_orders_witness :
  let key := ("CUST-001", "2024-03-01T12:00:00.000Z#ORD-01HQXG5Z8K3V9T2M4N6P7R0S1W") in
  ∃ lines,
    Order.items (derived_order Scenario.request "retry-key-0001" Scenario.world)
    = Some lines
    ∧ Forall valid_line lines.
Proof.
  intros key.
  destruct (create_stores_only_valid_orders Scenario.event Scenario.world key
              (derived_order Scenario.request "retry-key-0001" Scenario.world))
    as (request & k & lines & ts & id & _ & _ & Ho & _ & _ & Hitems & _ & Hvalid & _).
  - vm_compute. reflexivity.
  - reflexivity.
  - exists lines. split; [exact Hitems|exact Hvalid].
Defined.

(** X28. Repeating [createOrder] does not repair a missing projection.
    When the write of the primary record goes through and the write of
    the by-ID item meets an outage, the call throws and the order is
    stored without its by-ID item.  A later call with the same order,
    under healthy services, finds the primary record, returns it with
    [created: false], and writes nothing: the by-ID item stays
    missing, so that the order cannot be read, cancelled or processed
    by its id. *)
Theorem create_retry_leaves_projection_missing order oid w :
  Order.order_id order = Some oid →
  orders w !! (Order.customer_id order, Order.order_ts_id order) = None →
  orders_by_id w !! oid = None →
  peek (outages w) = false →
  peek (advance (outages w)) = true →
  let w1 := (createOrder order w).2 in
  (createOrder order w).1 = Throw ServiceUnavailable
  ∧ orders w1 !! (Order.customer_id order, Order.order_ts_id order) = Some order
  ∧ ∀ w2,
      healthy w2 → orders w2 = orders w1 → orders_by_id w2 = orders_by_id w1 →
      (createOrder order w2).1 = Ok (mkCreateResult false order)
      ∧ same_storage w2 (createOrder order w2).2
      ∧ (getOrderById oid (createOrder order w2).2).1 = Ok None.
Proof.
  intros Hid Hfree Hmiss Hup Hdown. cbn zeta.
  assert (Hrun :
    createOrder order w
    = (Throw ServiceUnavailable,
       with_outages (advance (advance (outages w)))
         (with_orders
            (<[(Order.customer_id order, Order.order_ts_id order) := order]> (orders w))
            w))).
  { unfold createOrder, try_catch, bind, DynamoDB.put_order_if_absent, bind.
    rewrite aws_request_up by done. cbn. rewrite Hfree.
    unfold put_projection. rewrite Hid. unfold DynamoDB.put_order_by_id, bind.
    rewrite aws_request_down by done. reflexivity. }
  rewrite Hrun. cbn [fst snd]. split; [done|]. split.
  { cbn. by rewrite lookup_insert_eq. }
  intros w2 H2 Ho2 Hb2.
  assert (Hrun2 :
    createOrder order w2
    = (Ok (mkCreateResult false order),
       with_outages (advance (advance (outages w2))) w2)).
  { unfold createOrder, try_catch, bind, DynamoDB.put_order_if_absent, bind.
    request_ok. rewrite Ho2. cbn. rewrite lookup_insert_eq.
    unfold getOrderByCustomer, DynamoDB.get_order, bind.
    request_ok. rewrite Ho2. cbn. by rewrite lookup_insert_eq. }
  rewrite Hrun2. cbn [fst snd]. split; [done|]. split; [by unfold same_storage|].
  unfold getOrderById, DynamoDB.get_order_by_id, bind.
  request_ok. rewrite Hb2. cbn. by rewrite Hmiss.
Qed.

Lemma create_retry_leaves_projection_missing_witness :
  let order := derived_order Scenario.request "retry-key-0001" Scenario.world in
  let w1 := (createOrder order Scenario.world_second_request_down).2 in
  (createOrder order Scenario.world_second_request_down).1 = Throw ServiceUnavailable
  ∧ (createOrder order (with_outages (Scenario.steady false) w1)).1
    = Ok (mkCreateResult false order).
Proof.
  intros order w1.
  destruct (create_retry_leaves_projection_missing order
              "ORD-01HQXG5Z8K3V9T2M4N6P7R0S1W" Scenario.world_second_request_down)
    as (Hrun & _ & Hretry).
  - reflexivity.
  - reflexivity.
  - reflexivity.
  - reflexivity.
  - reflexivity.
  - split; [exact Hrun|].
    apply (Hretry (with_outages (Scenario.steady false) w1)).
    + intros n. reflexivity.
    + reflexivity.
    + reflexivity.
Defined.

(* --------------------------------------------------------------------- *)
(** ** From creation to confirmation                                      *)
(* --------------------------------------------------------------------- *)

Lemma create_keeps_replies request k w :
  lambda_replies
    (try_catch (CreateOrder.create request k)
       (fun _ => ret (mkResult 500 (CreateOrder.ErrorBody "Internal server error")))
       w).2
  = lambda_replies w.
Proof.
  unfold try_catch, CreateOrder.create, generateOrderId, bind, ulid, ret, now. cbn.
  unfold createOrder, try_catch, bind, DynamoDB.put_order_if_absent, bind, aws_request.
  cbn.
  destruct (peek (outages w)); cbn; [done|].
  destruct (orders w !! _) eqn:Hl; cbn.
  { unfold getOrderByCustomer, DynamoDB.get_order, bind, aws_request. cbn.
    destruct (feed _ _); cbn; [done|]. rewrite Hl. done. }
  unfold put_projection. cbn. unfold DynamoDB.put_order_by_id, bind, aws_request. cbn.
  destruct (feed _ _); cbn; [done|].
  unfold sendOrderMessage, bind, aws_request. cbn.
  destruct (feed _ _); cbn; done.
Qed.

Lemma process_record_confirms record message order o w :
  healthy w →
  ProcessOrder.body record = Some message →
  orders_by_id w !! OrderProcessingMessage.order_id message = Some order →
  OrderById.status order = Some OrderStatus.PENDING →
  orders w !! (OrderProcessingMessage.customer_id message,
               template (OrderById.order_ts order) ++ "#" ++ OrderById.order_id order)
  = Some o →
  Order.status o = Some OrderStatus.PENDING →
  peek (lambda_replies w) = Returned →
  peek (advance (lambda_replies w)) = Returned →
  ∃ w',
    ProcessOrder.process_record record w = (Ok [], w')
    ∧ healthy w'
    ∧ orders_by_id w' !! OrderProcessingMessage.order_id message
      = Some (OrderById.set_status OrderStatus.CONFIRMED (iso (peek (clock w))) order).
Proof.
  intros H Hbody Hl Hs Ho Hos Hr1 Hr2.
  rewrite (process_record_pending _ _ _ _ Hbody (H _) Hl Hs).
  unfold try_catch, ProcessOrder.workflow, bind.
  rewrite invoke_sync_run by apply H. cbn [lambda_replies with_lambda_replies
    with_invoked with_outages]. rewrite Hr1. cbn [negb ProcessOrder.success].
  rewrite invoke_sync_run by apply H. cbn [lambda_replies with_lambda_replies
    with_invoked with_outages]. rewrite Hr2. cbn [negb ProcessOrder.success].
  match goal with
  | |- context [updateOrderStatus ?c ?t ?i ?n ?e ?w0] =>
      destruct (fresh_transition_succeeds w0 c t i n OrderStatus.PENDING o)
        as (w' & E & H' & Ho' & Hb' & _); [healthy_tac|exact Ho|exact Hos|]
  end.
  rewrite E. cbn [negb]. rewrite invoke_async_run by apply H'. cbn.
  eexists. split; [reflexivity|]. split; [healthy_tac|]. cbn.
  rewrite Hb', lookup_insert_eq. cbn. by rewrite Hl.
Qed.

(** X29. From creation to confirmation.  Under healthy services, when
    POST /orders has created an order and the saga handler then receives
    the work message the creation queued, and both worker functions
    return, the saga finds the order under the keys it rebuilds, reports
    no failure, and GET /orders/{order_id} afterwards shows the order
    CONFIRMED with the totals of the creation. *)
Theorem created_order_gets_confirmed ev k request get_event messageId w :
  healthy w →
  CreateOrder.idempotency_header ev = Some k →
  k ≠ "" →
  parseAndValidateBody (body ev) = Some request →
  orders w !! derived_key request w = None →
  peek (lambda_replies w) = Returned →
  peek (advance (lambda_replies w)) = Returned →
  pathParameters get_event ≫= (fun p => p !! "order_id")
  = Some ("ORD-" ++ peek (ulids w)) →
  let w1 := (CreateOrder.handler ev w).2 in
  ∃ message,
    queue w1 = (queue w ++ [message])%list
    ∧ let batch := [ProcessOrder.mkSQSRecord messageId (Some message)] in
      let w2 := (ProcessOrder.handler batch w1).2 in
      (ProcessOrder.handler batch w1).1 = Ok []
      ∧ ∃ item,
          (GetOrder.handler get_event w2).1 = Ok (GetOrder.order_response item)
          ∧ OrderById.status item = Some OrderStatus.CONFIRMED
          ∧ OrderById.total item
            = Some (CreateOrder.total
                      (CreateOrder.subtotal (CreateOrderRequest.items request))
                      (CreateOrder.tax
                         (CreateOrder.subtotal (CreateOrderRequest.items request)))).
Proof.
  intros H Hh Hk Hp Hfree Hr1 Hr2 Hget. cbn zeta.
  pose proof (create_keeps_replies request k w) as Hreplies.
  destruct (create_first request k w H Hfree)
    as (w1 & Hrun & H1 & Ho1 & Hb1 & Hq1).
  unfold try_catch in Hreplies. rewrite Hrun in Hreplies. cbn in Hreplies.
  assert (Hcreate : (CreateOrder.handler ev w).2 = w1).
  { rewrite (handler_create _ _ _ _ Hh Hk Hp). unfold try_catch. by rewrite Hrun. }
  rewrite Hcreate.
  eexists. split; [exact Hq1|].
  destruct (process_record_confirms
              (ProcessOrder.mkSQSRecord messageId
                 (Some (CreateOrder.work_message request ("ORD-" ++ peek (ulids w))
                          (iso (peek (clock w))))))
              (CreateOrder.work_message request ("ORD-" ++ peek (ulids w))
                 (iso (peek (clock w))))
              (projection ("ORD-" ++ peek (ulids w)) (derived_order request k w))
              (derived_order request k w) w1)
    as (w2 & Hrun2 & H2 & Hb2); try done.
  - cbn. by rewrite Hb1, lookup_insert_eq.
  - cbn. rewrite Ho1. apply lookup_insert_eq.
  - by rewrite Hreplies.
  - by rewrite Hreplies.
  - cbn zeta.
    match goal with
    | |- context [ProcessOrder.handler ?batch w1] =>
        assert (Hbatch : ProcessOrder.handler batch w1 = (Ok [], w2))
          by (cbn [ProcessOrder.handler]; unfold bind; rewrite Hrun2; reflexivity)
    end.
    rewrite Hbatch. cbn [fst snd]. split; [done|].
    eexists. split.
    + unfold GetOrder.handler. rewrite Hget.
      change (String.eqb ("ORD-" ++ peek (ulids w)) "") with false. cbv iota.
      unfold try_catch, bind, getOrderById, DynamoDB.get_order_by_id, bind.
      rewrite aws_request_healthy by done. cbn in Hb2 |- *. rewrite Hb2. reflexivity.
    + done.
Qed.

Lemma created_order_gets_confirmed_witness :
  let w1 := (CreateOrder.handler Scenario.event Scenario.world).2 in
  ∃ message,
    queue w1 = [message]
    ∧ (ProcessOrder.handler [ProcessOrder.mkSQSRecord "msg-1" (Some message)] w1).1
      = Ok [].
Proof.
  destruct (created_order_gets_confirmed Scenario.event "retry-key-0001"
              Scenario.request (cancel_event "ORD-01HQXG5Z8K3V9T2M4N6P7R0S1W")
              "msg-1" Scenario.world)
    as (message & Hq & Hrun & _).
  - intros n. reflexivity.
  - reflexivity.
  - done.
  - reflexivity.
  - reflexivity.
  - reflexivity.
  - reflexivity.
  - reflexivity.
  - exists message. split; [exact Hq|exact Hrun].
Defined.

(** X30. A cancelled order is not processed.  Under healthy services, an
    order that POST /orders has created can be cancelled by
    DELETE /orders/{order_id} under the returned id; when the saga
    handler then receives the work message the creation queued, it
    acknowledges it and invokes nothing (neither the reservation nor the
    payment), and the by-ID item stays CANCELLED. *)
Theorem cancelled_order_is_not_processed ev k request delete_event messageId w :
  healthy w →
  CreateOrder.idempotency_header ev = Some k →
  k ≠ "" →
  parseAndValidateBody (body ev) = Some request →
  orders w !! derived_key request w = None →
  pathParameters delete_event ≫= (fun p => p !! "order_id")
  = Some ("ORD-" ++ peek (ulids w)) →
  let w1 := (CreateOrder.handler ev w).2 in
  let w2 := (CancelOrder.handler delete_event w1).2 in
  ∃ message,
    queue w1 = (queue w ++ [message])%list
    ∧ (CancelOrder.handler delete_event w1).1
      = Ok (mkResult 200
              (CancelOrder.CancelledBody ("ORD-" ++ peek (ulids w))
                 OrderStatus.CANCELLED "Order cancelled successfully"))
    ∧ let batch := [ProcessOrder.mkSQSRecord messageId (Some message)] in
      let w3 := (ProcessOrder.handler batch w2).2 in
      (ProcessOrder.handler batch w2).1 = Ok []
      ∧ invoked w3 = invoked w
      ∧ (orders_by_id w3 !! ("ORD-" ++ peek (ulids w))) ≫= OrderById.status
        = Some OrderStatus.CANCELLED.
Proof.
  intros H Hh Hk Hp Hfree Hdel. cbn zeta.
  destruct (create_first request k w H Hfree)
    as (w1 & Hrun & H1 & Ho1 & Hb1 & Hq1).
  assert (Hinv1 : invoked w1 = invoked w).
  { revert Hrun.
    unfold CreateOrder.create, generateOrderId, bind, ulid, ret, now. cbn.
    unfold createOrder, try_catch, bind, DynamoDB.put_order_if_absent, bind.
    request_ok. unfold derived_key in Hfree. cbn in Hfree. rewrite Hfree.
    unfold put_projection. cbn. unfold DynamoDB.put_order_by_id, bind.
    request_ok. unfold sendOrderMessage, bind. request_ok.
    intros Hrun. by simplify_eq. }
  assert (Hcreate : (CreateOrder.handler ev w).2 = w1).
  { rewrite (handler_create _ _ _ _ Hh Hk Hp). unfold try_catch. by rewrite Hrun. }
  rewrite Hcreate.
  assert (Hne : "ORD-" ++ peek (ulids w) ≠ "") by done.
  destruct (cancel_done w1 delete_event ("ORD-" ++ peek (ulids w))
              (projection ("ORD-" ++ peek (ulids w)) (derived_order request k w))
              OrderStatus.PENDING (CreateOrderRequest.customer_id request))
    as (w2 & Hrun2 & _ & Hb2 & _ & _ & Hinv2); try done.
  { by rewrite Hb1, lookup_insert_eq. }
  { unfold primary_of. cbn. rewrite Ho1.
    change (CreateOrderRequest.customer_id request,
            iso (peek (clock w)) ++ "#" ++ ("ORD-" ++ peek (ulids w)))
      with (derived_key request w).
    by rewrite lookup_insert_eq. }
  destruct (cancel_done_state delete_event w1
              (mkResult 200
                 (CancelOrder.CancelledBody ("ORD-" ++ peek (ulids w))
                    OrderStatus.CANCELLED "Order cancelled successfully"))
              ("ORD-" ++ peek (ulids w)) H1 Hdel Hne)
    as (H2 & b & Hl2 & Hs2); [by rewrite Hrun2|done|].
  rewrite Hrun2 in H2, Hl2 |- *. cbn [fst snd] in H2, Hl2 |- *.
  eexists. split; [exact Hq1|]. split; [done|]. cbn zeta.
  match goal with
  | |- context [ProcessOrder.handler ?batch w2] =>
      assert (Hbatch : ProcessOrder.handler batch w2
                       = (Ok [], with_outages (advance (outages w2)) w2))
  end.
  { cbn [ProcessOrder.handler]. unfold bind at 1.
    unfold ProcessOrder.process_record, try_catch. cbn [ProcessOrder.body].
    unfold bind at 1, getOrderById, DynamoDB.get_order_by_id, bind at 1.
    rewrite aws_request_healthy by done. cbn. rewrite Hl2, Hs2.
    rewrite bool_decide_eq_false_2 by done. reflexivity. }
  rewrite Hbatch. cbn. split; [done|]. split; [congruence|]. by rewrite Hl2.
Qed.

Lemma cancelled_order_is_not_processed_witness :
  let w1 := (CreateOrder.handler Scenario.event Scenario.world).2 in
  let w2 :=
    (CancelOrder.handler (cancel_event "ORD-01HQXG5Z8K3V9T2M4N6P7R0S1W") w1).2 in
  ∃ message,
    queue w1 = [message]
    ∧ (ProcessOrder.handler [ProcessOrder.mkSQSRecord "msg-1" (Some message)] w2).1
      = Ok [].
Proof.
  destruct (cancelled_order_is_not_processed Scenario.event "retry-key-0001"
              Scenario.request (cancel_event "ORD-01HQXG5Z8K3V9T2M4N6P7R0S1W")
              "msg-1" Scenario.world)
    as (message & Hq & _ & Hrun & _).
  - intros n. reflexivity.
  - reflexivity.
  - done.
  - reflexivity.
  - reflexivity.
  - reflexivity.
  - exists message. split; [exact Hq|exact Hrun].
Defined.
